(** * freecloud_checkin: the session-state heuristic engine

    A shallow embedding of [scripts/freecloud_checkin.py] and the properties
    its specification states about it.

    Python [str] values are lists of Unicode code points.  The regular
    expressions of the script are values of a small syntax tree, run by a
    backtracking matcher that explores alternatives in the order of
    CPython's [re] module (leftmost start, first alternative first, greedy
    repetition).  Network, HTML parser, URL joining and JSON decoding belong
    to libraries the script imports; they are the fields of a [Runtime]. *)

From Stdlib Require Import String Ascii DecimalString.
From Stdlib Require Import List NArith ZArith Bool Lia Sorted.
Import ListNotations.

Set Implicit Arguments.
Unset Strict Implicit.
Set Warnings "-register-all".

(* ================================================================== *)
(** ** Strings *)

(** A Python [str]: the sequence of its code points. *)
Definition str := list N.

(** UTF-8 decoding of a literal of this file, so that the literals of the
    script can be written as they are in the source. *)
Fixpoint utf8_decode (bs : list N) (acc : N) (pending : nat) : str :=
  match bs with
  | [] => []
  | b :: bs' =>
      match pending with
      | S p =>
          let acc' := (acc * 64 + b mod 64)%N in
          match p with
          | O => acc' :: utf8_decode bs' 0%N O
          | S _ => utf8_decode bs' acc' p
          end
      | O =>
          if (b <? 0x80)%N then b :: utf8_decode bs' 0%N O
          else if (b <? 0xE0)%N then utf8_decode bs' (b mod 32)%N 1
          else if (b <? 0xF0)%N then utf8_decode bs' (b mod 16)%N 2
          else utf8_decode bs' (b mod 8)%N 3
      end
  end.

Definition U (s : string) : str :=
  utf8_decode (map N_of_ascii (list_ascii_of_string s)) 0%N O.

Definition cp_eqb (a b : N) : bool := N.eqb a b.

Fixpoint str_eqb (a b : str) : bool :=
  match a, b with
  | [], [] => true
  | x :: a', y :: b' => cp_eqb x y && str_eqb a' b'
  | _, _ => false
  end.

(** Truthiness of a [str]: the empty string is falsy. *)
Definition truthy (s : str) : bool :=
  match s with [] => false | _ :: _ => true end.

(** [Py_UNICODE_ISSPACE]: the code points [str.strip()] removes and the
    class [\s] of a [str] pattern matches. *)
Definition is_space (c : N) : bool :=
  ((0x09 <=? c) && (c <=? 0x0D) || (0x1C <=? c) && (c <=? 0x20)
   || (c =? 0x85) || (c =? 0xA0) || (c =? 0x1680)
   || (0x2000 <=? c) && (c <=? 0x200A)
   || (c =? 0x2028) || (c =? 0x2029) || (c =? 0x202F) || (c =? 0x205F)
   || (c =? 0x3000))%N.

Fixpoint lstrip_by (p : N -> bool) (s : str) : str :=
  match s with
  | c :: s' => if p c then lstrip_by p s' else s
  | [] => []
  end.

Definition rstrip_by (p : N -> bool) (s : str) : str :=
  rev (lstrip_by p (rev s)).

(** [s.strip()] *)
Definition strip (s : str) : str := rstrip_by is_space (lstrip_by is_space s).

(** [s.rstrip("/")] *)
Definition rstrip_slash (s : str) : str := rstrip_by (cp_eqb 0x2F) s.

(** [s.startswith(p)] *)
Fixpoint startswith (s p : str) : bool :=
  match p, s with
  | [], _ => true
  | y :: p', x :: s' => cp_eqb x y && startswith s' p'
  | _ :: _, [] => false
  end.

(** [s.split("@", 1)]: the text before the first separator and the text
    after it, or [None] when the separator does not occur (the result then
    has one element). *)
Fixpoint split_once (sep : N) (s : str) : option (str * str) :=
  match s with
  | [] => None
  | c :: s' =>
      if cp_eqb c sep then Some ([], s')
      else match split_once sep s' with
           | Some (a, b) => Some (c :: a, b)
           | None => None
           end
  end.

(** [str(n)] for an integer. *)
Definition str_of_Z (z : Z) : str :=
  U (NilZero.string_of_int (Z.to_int z)).

(* ================================================================== *)
(** ** Regular expressions *)

(** A set of code points, as its membership test. *)
Definition cset := N -> bool.

(** The patterns of the script apply [*], [+] and [?] to one-character
    items only, and have at most one capture group. *)
Inductive regex : Type :=
| Eps
| Chr (c : cset)
| Cat (r1 r2 : regex)
| Alt (r1 r2 : regex)
| Star (c : cset)
| Group (r : regex).

(** Value of group 1: [None] while it has not taken part in the match. *)
Definition capture := option str.

Section Matcher.
Variable R : Type.

(** Greedy repetition: take as many characters as the class allows and
    give them back one at a time while the rest fails. *)
Fixpoint star_run (c : cset) (s : str) (k : str -> option R) : option R :=
  match s with
  | x :: s' =>
      if c x then
        match star_run c s' k with
        | Some v => Some v
        | None => k s
        end
      else k s
  | [] => k []
  end.

Fixpoint run (r : regex) (s : str) (g : capture)
         (k : str -> capture -> option R) : option R :=
  match r with
  | Eps => k s g
  | Chr c =>
      match s with
      | x :: s' => if c x then k s' g else None
      | [] => None
      end
  | Cat r1 r2 => run r1 s g (fun s1 g1 => run r2 s1 g1 k)
  | Alt r1 r2 =>
      match run r1 s g k with
      | Some v => Some v
      | None => run r2 s g k
      end
  | Star c => star_run c s (fun s' => k s' g)
  | Group r1 =>
      run r1 s g
          (fun s1 _ => k s1 (Some (firstn (length s - length s1) s)))
  end.
End Matcher.

(** A match anchored at the start of [s]; the result is group 1. *)
Definition match_at (r : regex) (s : str) : option capture :=
  run r s None (fun _ g => Some g).

(** [re.search(r, s)]: the match at the leftmost start position that has
    one, [None] when no position has. *)
Fixpoint search (r : regex) (s : str) : option capture :=
  match match_at r s with
  | Some g => Some g
  | None =>
      match s with
      | [] => None
      | _ :: s' => search r s'
      end
  end.

(** [bool(re.search(r, s))] *)
Definition found (r : regex) (s : str) : bool :=
  match search r s with Some _ => true | None => false end.

(** *** What a pattern denotes

    [Matches r m g g']: the pattern [r] matches exactly the text [m],
    taking group 1 from [g] to [g'].  This is the reading of a pattern as
    a set of texts, with no order among the alternatives; the matcher
    above is compared with it below. *)
Inductive Matches : regex -> str -> capture -> capture -> Prop :=
| MEps g : Matches Eps [] g g
| MChr (c : cset) x g : c x = true -> Matches (Chr c) [x] g g
| MCat r1 r2 m1 m2 g g1 g2 :
    Matches r1 m1 g g1 -> Matches r2 m2 g1 g2 ->
    Matches (Cat r1 r2) (m1 ++ m2) g g2
| MAltL r1 r2 m g g' : Matches r1 m g g' -> Matches (Alt r1 r2) m g g'
| MAltR r1 r2 m g g' : Matches r2 m g g' -> Matches (Alt r1 r2) m g g'
| MStar (c : cset) m g : forallb c m = true -> Matches (Star c) m g g
| MGroup r m g g' : Matches r m g g' -> Matches (Group r) m g (Some m).

(** Some part of [s] is matched by [r]. *)
Definition Contains (r : regex) (s : str) : Prop :=
  exists pre m post g, s = pre ++ m ++ post /\ Matches r m None g.

(** [r] matches a part of [s] that starts where [s] starts. *)
Definition MatchesPrefix (r : regex) (s : str) : Prop :=
  exists m post g, s = m ++ post /\ Matches r m None g.

(** [r] matches at one of the start positions inside [pre], in the text
    [pre ++ s]. *)
Fixpoint match_before (r : regex) (pre s : str) : bool :=
  match pre with
  | [] => false
  | _ :: pre' =>
      match match_at r (pre ++ s) with
      | Some _ => true
      | None => match_before r pre' s
      end
  end.

(** [r] has no capture group. *)
Fixpoint group_free (r : regex) : bool :=
  match r with
  | Eps | Chr _ | Star _ => true
  | Cat r1 r2 | Alt r1 r2 => group_free r1 && group_free r2
  | Group _ => false
  end.

(** *** Character items *)

Definition is_upper_ascii (c : N) : bool := ((0x41 <=? c) && (c <=? 0x5A))%N.
Definition is_lower_ascii (c : N) : bool := ((0x61 <=? c) && (c <=? 0x7A))%N.

(** A literal [p] of a pattern compiled with [re.IGNORECASE].  The literals
    of the script are ASCII characters and CJK ideographs.  An ideograph
    has no case and matches itself only.  An ASCII letter matches every
    code point whose lower case is its lower case: the two ASCII letters
    and, for [i], [s] and [k], the code points U+0130 and U+0131, U+017F,
    and U+212A. *)
Definition chr_i (p : N) : cset := fun c =>
  let lo := if is_upper_ascii p then (p + 32)%N else p in
  if is_lower_ascii lo then
    ((c =? lo) || (c =? lo - 32)
     || (lo =? 0x69) && ((c =? 0x130) || (c =? 0x131))
     || (lo =? 0x73) && (c =? 0x17F)
     || (lo =? 0x6B) && (c =? 0x212A))%N
  else (c =? p)%N.

(** A literal text under [re.IGNORECASE]. *)
Fixpoint lit_i (s : str) : regex :=
  match s with
  | [] => Eps
  | c :: s' => Cat (Chr (chr_i c)) (lit_i s')
  end.

Definition L (s : string) : regex := lit_i (U s).

(** [c?], [c+] *)
Definition Opt (c : cset) : regex := Alt (Chr c) Eps.
Definition Plus (c : cset) : regex := Cat (Chr c) (Star c).

(** [r1 r2 ... rn] and [r1|r2|...|rn] *)
Fixpoint seq (rs : list regex) : regex :=
  match rs with
  | [] => Eps
  | r :: rs' => Cat r (seq rs')
  end.

Fixpoint alt (rs : list regex) : regex :=
  match rs with
  | [] => Chr (fun _ => false)
  | r :: rs' => Alt r (alt rs')
  end.

(** [\s] *)
Definition ws : cset := is_space.
(** The class of the double and the single quote, and its complement. *)
Definition quote : cset := fun c => ((c =? 0x22) || (c =? 0x27))%N.
Definition not_quote : cset := fun c => negb (quote c).
(** [[-_]] *)
Definition dash_or_underscore : cset := fun c => ((c =? 0x2D) || (c =? 0x5F))%N.

(* ================================================================== *)
(** ** Challenge detector *)

(** The [patterns] list of [is_2fa_or_human_challenge]. *)
Definition challenge_patterns : list regex :=
  [ seq [L "Two"; Star ws; L "Factor"];
    seq [L "Two"; Opt (chr_i 0x2D); L "Factor"];
    L "二次验证";
    L "二步验证";
    L "两步验证";
    L "验证码";
    L "人机验证";
    L "机器人验证";
    L "hcaptcha";
    L "recaptcha";
    L "Please complete the security check";
    seq [L "Attention Required!"; Star ws; L "Cloudflare"];
    L "安全验证" ].

(** [two[-_]?factor|twofa|2fa] *)
Definition challenge_url_pattern : regex :=
  alt [ seq [L "two"; Opt dash_or_underscore; L "factor"]; L "twofa"; L "2fa" ].

Definition is_2fa_or_human_challenge (text url : str) : bool :=
  if negb (truthy text) then false
  else if existsb (fun p => found p text) challenge_patterns then true
  else if found challenge_url_pattern url then true
  else false.

(* ================================================================== *)
(** ** Values exchanged with the libraries *)

(** The status constants [SUCCESS], [ALREADY], [TWO_FA], [FAILED] and
    [SKIPPED] of the script. *)
Inductive status : Type := SUCCESS | ALREADY | TWO_FA | FAILED | SKIPPED.

Definition status_eqb (a b : status) : bool :=
  match a, b with
  | SUCCESS, SUCCESS | ALREADY, ALREADY | TWO_FA, TWO_FA
  | FAILED, FAILED | SKIPPED, SKIPPED => true
  | _, _ => false
  end.

(** Exceptions: the class and [str(e)]. *)
Inductive exn_class : Type :=
| RequestException   (* raised by [http_request] on a 5xx answer *)
| TransportError     (* whatever [session.request] raises *)
| TypeError
| IndexError
| AttributeError     (* a method called on a value that does not have it *)
| ValueError         (* raised by [urljoin] *)
| UnicodeEncodeError (* raised by [print] *).

Record exn : Type := Exn { exn_cls : exn_class; exn_str : str }.

Inductive Res (A : Type) : Type :=
| Ok (a : A)
| Raise (e : exn).
Arguments Raise {A} e.

(** A step that may raise, followed by another that uses its value. *)
Definition res_bind A B (r : Res A) (f : A -> Res B) : Res B :=
  match r with
  | Ok a => f a
  | Raise e => Raise e
  end.

(** A decoded JSON document.  Numbers are integers here; the script only
    reads whether a number is zero. *)
Inductive jval : Type :=
| JNull
| JBool (b : bool)
| JNum (z : Z)
| JStr (s : str)
| JArr (l : list jval)
| JObj (o : list (str * jval)).

(** A [dict] with [str] keys, in insertion order. *)
Definition dict (V : Type) := list (str * V).

Fixpoint dict_get V (d : dict V) (k : str) : option V :=
  match d with
  | [] => None
  | (k', v) :: d' => if str_eqb k' k then Some v else dict_get d' k
  end.

Definition dict_mem V (d : dict V) (k : str) : bool :=
  match dict_get d k with Some _ => true | None => false end.

(** [d[k] = v] *)
Fixpoint dict_set V (d : dict V) (k : str) (v : V) : dict V :=
  match d with
  | [] => [(k, v)]
  | (k', v') :: d' =>
      if str_eqb k' k then (k', v) :: d' else (k', v') :: dict_set d' k v
  end.

(** The arguments [http_request] hands to [session.request]; the session
    object is named by the index of the account it was created for. *)
Record Request : Type := mkRequest {
  rq_session : nat;
  rq_method : str;
  rq_url : str;
  rq_timeout : Z;
  rq_headers : dict str;
  rq_data : option (dict str);
  rq_allow_redirects : option bool
}.

(** What the script reads of a [requests.Response]: [status_code], [text],
    [url], the [Content-Type] header and the outcome of [json()] ([None]
    when it raises). *)
Record Response : Type := mkResponse {
  status_code : Z;
  text : str;
  url : str;
  content_type : option str;
  json : option jval
}.

Inductive reply : Type :=
| Answer (r : Response)
| Fails (e : exn).

(** One call of [session.request] and what came of it. *)
Abbreviation exchange := (Request * reply)%type.

(** A parsed document, as BeautifulSoup presents it. *)
Inductive node : Type :=
| Tag (name : str) (attrs : dict str) (children : list node)
| Text (t : str).

(** An action descriptor, the [dict] [_find_checkin_action_in_html]
    returns: [method] and [url] are always set, [data] need not be. *)
Record Action : Type := mkAction {
  act_method : str;
  act_url : str;
  act_data : option (dict str)
}.

(** An element of the [ACCOUNTS] array: whatever JSON value the array
    holds there. *)
Definition Account : Type := jval.

(** [json.loads(raw_accounts)] followed by the [isinstance] test. *)
Inductive accounts_input : Type :=
| BadJson (e : exn)
| NotAList
| AccountList (l : list Account).

(** What the script takes from its libraries and from its environment.
    [HAVE_BS4] tells whether [bs4] could be imported; [BeautifulSoup]
    parses a page, [None] standing for an exception; [urljoin] is that of
    [urllib.parse]; [str_upper] and [str_lower] are [str.upper] and
    [str.lower]; [session_request] answers a request knowing every
    exchange made so far, whatever the session; [getenv] is [os.getenv];
    [json_loads] decodes the [ACCOUNTS] text.
    [urljoin_error] is the exception [urljoin] raises on a reference read
    from a page, if it raises; the joins of a base with the fixed paths of
    the script are taken to return.  [print_error] is the exception
    [print] raises on a message, if it raises, and [py_str] is [str] on a
    decoded JSON value that is not a text.
    [_find_checkin_action_in_html] is the script's own action discovery
    (lines 236 to 293), which returns an action, returns [None] or raises;
    nothing below depends on which. *)
Class Runtime : Type := {
  HAVE_BS4 : bool;
  BeautifulSoup : str -> option node;
  urljoin : str -> str -> str;
  urljoin_error : str -> str -> option exn;
  str_upper : str -> str;
  str_lower : str -> str;
  session_request : list exchange -> Request -> reply;
  _find_checkin_action_in_html : str -> str -> Res (option Action);
  getenv : str -> option str;
  json_loads : str -> accounts_input;
  print_error : str -> option exn;
  py_str : jval -> str
}.

(* ================================================================== *)
(** ** Effects *)

(** A computation reads the events that happened before it started and
    returns its result with the events it added, oldest first. *)
Definition Eff (E A : Type) : Type := list E -> Res A * list E.

Section Eff.
Variable E : Type.

Definition ret A (a : A) : Eff E A := fun _ => (Ok a, []).

Definition raise A (e : exn) : Eff E A := fun _ => (Raise e, []).

Definition bind A B (m : Eff E A) (f : A -> Eff E B) : Eff E B :=
  fun h =>
    let (r, e1) := m h in
    match r with
    | Ok a => let (r', e2) := f a (h ++ e1) in (r', e1 ++ e2)
    | Raise e => (Raise e, e1)
    end.

(** [try: m except Exception as e: ...]: the outcome of [m] as a value. *)
Definition try_ A (m : Eff E A) : Eff E (Res A) :=
  fun h => let (r, e1) := m h in (Ok r, e1).

Definition emit (e : E) : Eff E unit := fun _ => (Ok tt, [e]).

(** A pure step that may raise. *)
Definition lift_res A (r : Res A) : Eff E A := fun _ => (r, []).
End Eff.

Arguments ret {E A} a.
Arguments raise {E A} e.
Arguments emit {E} e.
Arguments lift_res {E A} r.

Declare Scope eff_scope.
Delimit Scope eff_scope with eff.
Notation "x <- m ;; k" := (bind m (fun x => k))
  (at level 61, m at next level, right associativity) : eff_scope.
Notation "m ;;; k" := (bind m (fun _ => k))
  (at level 61, right associativity) : eff_scope.
Open Scope eff_scope.

(** Computations that only talk to the network. *)
Definition Net (A : Type) : Type := Eff exchange A.

(** An entry of [results]: [(status, label, detail)]. *)
Abbreviation outcome := (status * str * jval)%type.

Section Program.
Context {RT : Runtime}.

(** [session.request(method, url, timeout=timeout, **kwargs)] *)
Definition request (rq : Request) : Net Response :=
  fun h =>
    match session_request h rq with
    | Answer r => (Ok r, [(rq, Answer r)])
    | Fails e => (Raise e, [(rq, Fails e)])
    end.

(* ---------------------------------------------------------------- *)
(** *** Resilient HTTP transport *)

(** The body of [for attempt in range(retries)], [todo] iterations
    before the loop ends. *)
Fixpoint http_request_loop (rq : Request) (retries attempt todo : nat)
         (last_exc : option exn) : Net Response :=
  match todo with
  | O =>
      (* raise last_exc *)
      match last_exc with
      | Some e => raise e
      | None =>
          raise (Exn TypeError (U "exceptions must derive from BaseException"))
      end
  | S todo' =>
      r <- try_ (resp <- request rq ;;
                 if (status_code resp >=? 500)%Z
                 then raise (Exn RequestException
                                 (U "Server error: " ++ str_of_Z (status_code resp)))
                 else ret resp) ;;
      match r with
      | Ok resp => ret resp
      | Raise e =>
          if attempt <? retries - 1
          then http_request_loop rq retries (S attempt) todo' (Some e)
          else raise e
      end
  end.

Definition http_request (retries : nat) (rq : Request) : Net Response :=
  http_request_loop rq retries 0 retries None.

(** The default of the [retries] parameter; no caller overrides it. *)
Definition retries_default : nat := 3.

(* ---------------------------------------------------------------- *)
(** *** What the script uses of BeautifulSoup *)

Fixpoint descendants (n : node) : list node :=
  match n with
  | Text _ => []
  | Tag _ _ cs => flat_map (fun c => c :: descendants c) cs
  end.

(** [tag.get(key)] *)
Definition tag_get (n : node) (key : str) : option str :=
  match n with
  | Tag _ attrs _ => dict_get attrs key
  | Text _ => None
  end.

Definition tag_matches (name : str) (want : dict str) (n : node) : bool :=
  match n with
  | Tag nm attrs _ =>
      str_eqb nm name
      && forallb (fun kv =>
                    match dict_get attrs (fst kv) with
                    | Some v => str_eqb v (snd kv)
                    | None => false
                    end) want
  | Text _ => false
  end.

(** [tag.find_all(name)] and [tag.find(name, attrs=want)] *)
Definition find_all (name : str) (n : node) : list node :=
  filter (tag_matches name []) (descendants n).

Definition find (name : str) (want : dict str) (n : node) : option node :=
  List.find (tag_matches name want) (descendants n).

(* ---------------------------------------------------------------- *)
(** *** Token extractor *)

(** The fallback pattern, [name\s*=\s*QtokenQ\s+value\s*=\s*Q(N+)Q]
    with [Q] the class of the two quote characters and [N] its
    complement, compiled with [re.I]. *)
Definition token_pattern : regex :=
  seq [ L "name"; Star ws; L "="; Star ws; Chr quote; L "token"; Chr quote;
        Plus ws; L "value"; Star ws; L "="; Star ws; Chr quote;
        Group (Plus not_quote); Chr quote ].

(** The [if HAVE_BS4:] block of the extractor: [Some] when it returns. *)
Definition token_from_soup (html : str) : option str :=
  if HAVE_BS4 then
    match BeautifulSoup html with
    | Some soup =>
        match find (U "input") [(U "name", U "token")] soup with
        | Some token_input =>
            match tag_get token_input (U "value") with
            | Some v => if truthy v then Some v else None
            | None => None
            end
        | None => None
        end
    | None => None   (* except Exception: pass *)
    end
  else None.

Definition _extract_csrf_token_from_html (html : str) : option str :=
  if negb (truthy html) then None
  else
    match token_from_soup html with
    | Some v => Some v
    | None =>
        match search token_pattern html with
        | Some m => m        (* m.group(1) *)
        | None => None
        end
    end.

(* ---------------------------------------------------------------- *)
(** *** Authentication flow *)

Definition USER_AGENT : str :=
  U "Mozilla/5.0 (Windows NT 10.0; Win64; x64) " ++
  U "AppleWebKit/537.36 (KHTML, like Gecko) " ++
  U "Chrome/120.0.0.0 Safari/537.36".

Definition DEFAULT_BASE_URL : str := U "https://panel.freecloud.ltd".

Definition browser_headers (referer : str) : dict str :=
  [ (U "User-Agent", USER_AGENT);
    (U "Accept",
     U "text/html,application/xhtml+xml,application/xml;q=0.9,image/avif,image/webp,*/*;q=0.8");
    (U "Accept-Language", U "en-US,en;q=0.9,zh-CN;q=0.8,zh;q=0.7");
    (U "Referer", referer);
    (U "Connection", U "keep-alive") ].

Definition form_headers (headers : dict str) : dict str :=
  dict_set headers (U "Content-Type") (U "application/x-www-form-urlencoded").

(** [http_request(session, "GET", url, headers=headers)] *)
Definition http_get (session : nat) (url : str) (headers : dict str)
           (allow_redirects : option bool) : Net Response :=
  http_request retries_default
    (mkRequest session (U "GET") url 30 headers None allow_redirects).

(** [http_request(session, "POST", url, headers=..., data=data,
    allow_redirects=True)] *)
Definition http_post (session : nat) (url : str) (headers : dict str)
           (data : dict str) : Net Response :=
  http_request retries_default
    (mkRequest session (U "POST") url 30 headers (Some data) (Some true)).

(** [/login] *)
Definition login_action_pattern : regex := L "/login".

Definition failure_patterns : list regex :=
  [ L "Login Details Incorrect";
    seq [L "Invalid"; Plus ws; L "Login"];
    L "登录失败";
    L "邮箱或密码错误";
    L "Email Address or Password";
    L "sign in was incorrect" ].

Definition logged_in_indicators : list regex :=
  [ L "Logout"; L "退出"; L "Client Area"; L "客户中心"; L "我的资料"; L "服务" ].

Definition is_some A (o : option A) : bool :=
  match o with Some _ => true | None => false end.

(** The test of the [for f in soup.find_all("form")] loop that ends it. *)
Definition is_login_form (f : node) : bool :=
  match tag_get f (U "action") with
  | Some a => truthy a && found login_action_pattern a
  | None => false
  end
  || is_some (find (U "input") [(U "name", U "username")] f)
     && is_some (find (U "input") [(U "name", U "password")] f).

(** The loop: the first form, in document order, that passes the test. *)
Fixpoint pick_login_form (forms : list node) : option node :=
  match forms with
  | [] => None
  | f :: rest => if is_login_form f then Some f else pick_login_form rest
  end.

(** "Determine post target": [post_url] after the [if HAVE_BS4:] block. *)
Definition post_target (base_url login_url page : str) : str :=
  if HAVE_BS4 then
    match BeautifulSoup page with
    | Some soup =>
        match pick_login_form (find_all (U "form") soup) with
        | Some form =>
            match tag_get form (U "action") with
            | Some a =>
                if truthy a then
                  match urljoin_error base_url a with
                  | None => urljoin base_url a
                  | Some _ => login_url   (* except Exception: pass *)
                  end
                else login_url
            | None => login_url
            end
        | None => login_url
        end
    | None => login_url   (* except Exception: pass *)
    end
  else login_url.

Definition login_payload (email password : str) (token : option str) : dict str :=
  let payload :=
    [ (U "username", email); (U "password", password); (U "rememberme", U "on") ] in
  match token with
  | Some t => if truthy t then dict_set payload (U "token") t else payload
  | None => payload
  end.

Definition login_whmcs (session : nat) (base_url email password : str)
  : Net (status * str) :=
  let headers := browser_headers base_url in
  let login_url := urljoin base_url (U "/index.php?rp=/login") in
  resp <- http_get session login_url headers None ;;
  if is_2fa_or_human_challenge (text resp) (url resp) then
    ret (TWO_FA, U "2FA or human verification detected on login page")
  else
    let token := _extract_csrf_token_from_html (text resp) in
    let payload := login_payload email password token in
    let post_url := post_target base_url login_url (text resp) in
    resp <- http_post session post_url (form_headers headers) payload ;;
    if is_2fa_or_human_challenge (text resp) (url resp) then
      ret (TWO_FA, U "2FA or human verification challenge detected after login")
    else if existsb (fun p => found p (text resp)) failure_patterns then
      ret (FAILED, U "Invalid credentials or login failed")
    else
      let ca_url := urljoin base_url (U "/clientarea.php") in
      ca <- http_get session ca_url headers None ;;
      if is_2fa_or_human_challenge (text ca) (url ca) then
        ret (TWO_FA, U "2FA or human verification detected in client area")
      else if existsb (fun p => found p (text ca)) logged_in_indicators then
        ret (SUCCESS, U "Logged in")
      else
        ret (FAILED, U "Unable to confirm login").

(* ---------------------------------------------------------------- *)
(** *** Check-in executor *)

(** Truthiness of a decoded JSON value. *)
Definition jtruthy (v : jval) : bool :=
  match v with
  | JNull => false
  | JBool b => b
  | JNum z => negb (z =? 0)%Z
  | JStr s => truthy s
  | JArr l => match l with [] => false | _ => true end
  | JObj o => match o with [] => false | _ => true end
  end.

(** [a or b] *)
Definition py_or (a b : jval) : jval := if jtruthy a then a else b.

(** [j.get(k)] *)
Definition jget (j : dict jval) (k : str) : jval :=
  match dict_get j k with Some v => v | None => JNull end.

(** [签到|已签到|成功|积分|check-?in] *)
Definition probe_pattern : regex :=
  alt [ L "签到"; L "已签到"; L "成功"; L "积分";
        seq [L "check"; Opt (chr_i 0x2D); L "in"] ].

(** [已签到|already|重复] and [成功|success|ok], for a JSON message *)
Definition json_already_pattern : regex := alt [L "已签到"; L "already"; L "重复"].
Definition json_success_pattern : regex := alt [L "成功"; L "success"; L "ok"].

(** [今日已签到|已签到|already] and [签到成功|成功|success], for a page *)
Definition html_already_pattern : regex :=
  alt [L "今日已签到"; L "已签到"; L "already"].
Definition html_success_pattern : regex :=
  alt [L "签到成功"; L "成功"; L "success"].

Definition probe_paths : list str :=
  [ U "/clientarea.php?action=qiandao";
    U "/clientarea.php?action=checkin";
    U "/index.php?m=checkin";
    U "/index.php?m=signin";
    U "/index.php?rp=/checkin";
    U "/index.php?rp=/signin" ].

(** [for path in candidates:], entered when discovery found nothing. *)
Fixpoint probe (session : nat) (base_url : str) (headers : dict str)
         (paths : list str) : Net (option Action) :=
  match paths with
  | [] => ret None
  | path :: rest =>
      let test_url := urljoin base_url path in
      r <- try_ (http_get session test_url headers None) ;;
      match r with
      | Ok resp =>
          if (status_code resp =? 200)%Z && found probe_pattern (text resp)
          then ret (Some (mkAction (U "GET") test_url None))
          else probe session base_url headers rest
      | Raise _ => probe session base_url headers rest   (* continue *)
      end
  end.

(** The [try:] block of "Determine result": [Some] when it returns,
    [None] when it falls through or an exception is passed over. *)
Definition json_case (resp : Response) : option (status * jval) :=
  let ct := match content_type resp with Some c => c | None => [] end in
  if startswith (str_lower ct) (U "application/json") then
    match json resp with
    | Some (JObj j) =>
        let msg :=
          py_or (jget j (U "message"))
                (py_or (jget j (U "msg")) (py_or (jget j (U "status")) (JStr []))) in
        let by_message :=
          match msg with
          | JStr m =>
              if found json_already_pattern m then Some (ALREADY, msg)
              else if found json_success_pattern m then Some (SUCCESS, msg)
              else None
          | _ => None
          end in
        match by_message with
        | Some r => Some r
        | None =>
            if existsb (fun k => dict_mem j k && jtruthy (jget j k))
                       [U "success"; U "ok"; U "result"]
            then Some (SUCCESS, py_or msg (JStr (U "OK")))
            else None
        end
    | _ => None
    end
  else None.

(** The "HTML case": the last four statements of [perform_checkin]. *)
Definition html_case (body final_url : str) : status * jval :=
  if found html_already_pattern body then
    (ALREADY, JStr (U "Already checked in today"))
  else if found html_success_pattern body then
    (SUCCESS, JStr (U "Check-in success"))
  else if is_2fa_or_human_challenge body final_url then
    (TWO_FA, JStr (U "2FA or human verification encountered during check-in"))
  else
    (FAILED, JStr (U "Unable to determine check-in result")).

(** "Determine result" *)
Definition determine_result (resp : Response) : status * jval :=
  match json_case resp with
  | Some r => r
  | None => html_case (text resp) (url resp)
  end.

Definition perform_checkin (session : nat) (base_url : str)
  : Net (status * jval) :=
  let ca_url := urljoin base_url (U "/clientarea.php") in
  let headers := browser_headers ca_url in
  ca <- http_get session ca_url headers None ;;
  found_action <- lift_res (_find_checkin_action_in_html base_url (text ca)) ;;
  action <- match found_action with
            | Some a => ret (Some a)
            | None => probe session base_url headers probe_paths
            end ;;
  match action with
  | None => ret (FAILED, JStr (U "Check-in entry not found"))
  | Some action =>
      let method := str_upper (act_method action) in
      let url := act_url action in
      let data := match act_data action with Some d => d | None => [] end in
      if negb (truthy url) then
        ret (FAILED, JStr (U "Check-in action URL missing"))
      else
        resp <- (if str_eqb method (U "POST") then
                   let data :=
                     if negb (dict_mem data (U "token")) then
                       match _extract_csrf_token_from_html (text ca) with
                       | Some token =>
                           if truthy token then dict_set data (U "token") token
                           else data
                       | None => data
                       end
                     else data in
                   http_post session url (form_headers headers) data
                 else http_get session url headers (Some true)) ;;
        ret (determine_result resp)
  end.

(* ---------------------------------------------------------------- *)
(** *** Run orchestrator *)

(** [s or ""] for an optional text. *)
Definition or_empty (o : option str) : str :=
  match o with Some s => s | None => [] end.

Definition stars (n : nat) : str := repeat 0x2A%N n.

(** [local[0]] raises on an empty [local]. *)
Definition mask_email (email : str) : Res str :=
  match split_once 0x40 email with
  | None => Ok (U "***")
  | Some (local, domain) =>
      match local with
      | [] => Raise (Exn IndexError (U "string index out of range"))
      | c0 :: _ =>
          let masked_local :=
            if length local <=? 2 then c0 :: stars (length local - 1)
            else c0 :: stars (length local - 2) ++ [last local c0] in
          Ok (masked_local ++ U "@" ++ domain)
      end
  end.

(** [account.get(key)]: of the JSON values, only an object has the
    method.  The text of the exception is the end of the message Python
    gives, which starts with the name of the type of the value. *)
Definition account_get (account : Account) (key : str) : Res jval :=
  match account with
  | JObj o => Ok (jget o key)
  | _ => Raise (Exn AttributeError (U "object has no attribute 'get'"))
  end.

(** [(v or default).strip()]: of the JSON values, only a text has the
    method. *)
Definition or_strip (v : jval) (default : str) : Res str :=
  if jtruthy v then
    match v with
    | JStr s => Ok (strip s)
    | _ => Raise (Exn AttributeError (U "object has no attribute 'strip'"))
    end
  else Ok (strip default).

(** [(account.get(key) or default).strip()] *)
Definition account_text (account : Account) (key default : str) : Res str :=
  res_bind (account_get account key) (fun v => or_strip v default).

Definition safe_label (account : Account) : Res str :=
  res_bind (account_text account (U "label") []) (fun label =>
  if truthy label then Ok label
  else
    res_bind (account_text account (U "email") []) (fun email =>
    if truthy email then mask_email email else Ok (U "(no-label)"))).

Inductive proc : Type := Login | Checkin.

(** What a run leaves behind: the exchanges with the target site, the
    summary handed to the Telegram API, and the calls of [login_whmcs]
    and [perform_checkin] that [main] makes, with the status each
    returned ([None] when it raised). *)
Inductive event : Type :=
| Sent (x : exchange)
| Enter (p : proc) (idx : nat)
| Leave (p : proc) (idx : nat) (s : option status)
| Telegram (token chat_id message : str).

Definition M (A : Type) : Type := Eff event A.

Definition exchanges_of (h : list event) : list exchange :=
  flat_map (fun e => match e with Sent x => [x] | _ => [] end) h.

Definition lift A (m : Net A) : M A :=
  fun h => let (r, xs) := m (exchanges_of h) in (r, map Sent xs).

(** [try: st, detail = p(...) except Exception as e: ...], with the call
    and its outcome noted. *)
Definition call A (p : proc) (idx : nat) (m : Net (status * A))
  : M (Res (status * A)) :=
  emit (Enter p idx) ;;;
  r <- try_ (lift m) ;;
  emit (Leave p idx (match r with Ok (s, _) => Some s | Raise _ => None end)) ;;;
  ret r.

Definition outcome_status (o : outcome) : status := fst (fst o).

(** [log(msg)]: the message goes to [print] behind a time stamp, and
    [print] may raise. *)
Definition log (msg : str) : M unit :=
  fun _ =>
    match print_error msg with
    | Some e => (Raise e, [])
    | None => (Ok tt, [])
    end.

(** [os.getenv(a) or os.getenv(b) or ""] *)
Definition getenv_or (a b : str) : str :=
  match getenv a with
  | Some v => if truthy v then v else or_empty (getenv b)
  | None => or_empty (getenv b)
  end.

(** [tg_token] and [tg_default_chat], which [main] reads from the
    environment before the loop. *)
Definition tg_token : str :=
  getenv_or (U "TG_BOT_TOKEN") (U "TELEGRAM_BOT_TOKEN").

Definition tg_default_chat : str :=
  getenv_or (U "TG_CHAT_ID") (U "TELEGRAM_CHAT_ID").

(** The first five statements of the loop body: [label], [email],
    [password], [base_url] and [chat_id], in this order; [chat_id] is not
    used afterwards. *)
Definition read_account (account : Account) : Res (str * str * str * str) :=
  res_bind (safe_label account) (fun label =>
  res_bind (account_text account (U "email") []) (fun email =>
  res_bind (account_text account (U "password") []) (fun password =>
  res_bind (account_text account (U "base_url") DEFAULT_BASE_URL) (fun base_url =>
  res_bind (account_text account (U "tg_chat_id") tg_default_chat) (fun _ =>
  Ok (label, email, password, rstrip_slash base_url)))))).

(** The text of a message of the loop body, behind the label in square
    brackets. *)
Definition tagged (label text : str) : str := U "[" ++ label ++ U "] " ++ text.

(** A detail inside a formatted message. *)
Definition format_detail (detail : jval) : str :=
  match detail with
  | JStr s => s
  | _ => py_str detail
  end.

(** The message about what [perform_checkin] returned. *)
Definition checkin_message (label : str) (st : status) (detail : jval) : str :=
  match st with
  | SUCCESS => tagged label (U "Check-in success.")
  | ALREADY => tagged label (U "Already checked in today.")
  | TWO_FA =>
      tagged label (U "2FA/human verification encountered during check-in.")
  | _ => tagged label (U "Check-in failed: " ++ format_detail detail)
  end.

(** The body of [for idx, account in enumerate(accounts)]; its value is
    the entry it appends to [results].  The calls of [time.sleep] and
    [random.uniform], and the trace printed under [DEBUG], are left out
    here and in [main]: nothing the control flow reads comes from them. *)
Definition process_account (idx : nat) (account : Account) : M outcome :=
  fields <- lift_res (read_account account) ;;
  let '(label, email, password, base_url) := fields in
  if negb (truthy email) || negb (truthy password) then
    log (tagged label (U "Missing email/password, skipping.")) ;;;
    ret (FAILED, label, JStr (U "Missing credentials"))
  else
    log (tagged label (U "Logging in at " ++ base_url ++ U " ...")) ;;;
    r <- call Login idx (login_whmcs idx base_url email password) ;;
    match r with
    | Raise e =>
        log (tagged label (U "Login error: " ++ exn_str e)) ;;;
        ret (FAILED, label, JStr (U "Login error: " ++ exn_str e))
    | Ok (st, detail) =>
        if status_eqb st TWO_FA then
          log (tagged label
                 (U "2FA/human verification detected. Skipping check-in.")) ;;;
          ret (TWO_FA, label, JStr detail)
        else if negb (status_eqb st SUCCESS) then
          log (tagged label (U "Login failed: " ++ detail)) ;;;
          ret (FAILED, label, JStr detail)
        else
          r <- call Checkin idx (perform_checkin idx base_url) ;;
          match r with
          | Raise e =>
              log (tagged label (U "Check-in error: " ++ exn_str e)) ;;;
              ret (FAILED, label, JStr (U "Check-in error: " ++ exn_str e))
          | Ok (st, detail) =>
              log (checkin_message label st detail) ;;;
              ret (st, label, detail)
          end
    end.

(** The test [if not email or not password] of the loop body, on an
    account whose [email] and [password] can be read. *)
Definition lacks_credentials (account : Account) : bool :=
  match account_text account (U "email") [],
        account_text account (U "password") [] with
  | Ok email, Ok password => negb (truthy email) || negb (truthy password)
  | _, _ => false
  end.

(** The first five statements of the loop body return for this account. *)
Definition account_ok (account : Account) : bool :=
  match read_account account with Ok _ => true | Raise _ => false end.

(** The account a noted call belongs to. *)
Definition call_index (e : event) : option nat :=
  match e with
  | Enter _ idx | Leave _ idx _ => Some idx
  | Sent _ | Telegram _ _ _ => None
  end.

Fixpoint run_accounts (idx : nat) (accounts : list Account)
         (results : list outcome) : M (list outcome) :=
  match accounts with
  | [] => ret results
  | account :: rest =>
      o <- process_account idx account ;;
      run_accounts (S idx) rest (results ++ [o])
  end.

Definition summary_line (o : outcome) : str :=
  let '(st, label, _) := o in
  match st with
  | SUCCESS => U "- 成功: " ++ label
  | ALREADY => U "- 已签到: " ++ label
  | TWO_FA => U "- 需2FA: " ++ label
  | _ => U "- 失败: " ++ label
  end.

(** [sep.join(parts)] *)
Fixpoint join (sep : str) (parts : list str) : str :=
  match parts with
  | [] => []
  | [p] => p
  | p :: rest => p ++ sep ++ join sep rest
  end.

Definition count_status (s : status) (results : list outcome) : nat :=
  length (filter (fun o => status_eqb (outcome_status o) s) results).

Definition summary (results : list outcome) : str :=
  let msg := U "FreeCloud 每日签到结果" ++ [0x0A%N]
             ++ join [0x0A%N] (map summary_line results) in
  if 0 <? count_status TWO_FA results then
    msg ++ [0x0A%N; 0x0A%N]
        ++ U "提示: 有账号需要 2FA/人机验证，建议切换 Cookie 模式或提供 TOTP。"
  else msg.

(** The "exit code policy" at the end of [main]. *)
Definition exit_code (results : list outcome) : Z :=
  let total_accounts := length results in
  let hard_failures := count_status FAILED results in
  if (hard_failures =? total_accounts) && (0 <? total_accounts) then 1%Z
  else 0%Z.

(** [send_telegram_summary] is noted as one event; its request to the
    Telegram API and what its handler does when that request fails are
    outside this model. *)
Definition main : M Z :=
  let raw_accounts := or_empty (getenv (U "ACCOUNTS")) in
  if negb (truthy raw_accounts) then
    log (U "No ACCOUNTS provided, exiting.") ;;;
    ret 0%Z
  else
    match json_loads raw_accounts with
    | BadJson e =>
        log (U "Invalid ACCOUNTS JSON: " ++ exn_str e) ;;;
        ret 1%Z
    | NotAList =>
        log (U "Invalid ACCOUNTS JSON: ACCOUNTS must be a JSON array") ;;;
        ret 1%Z
    | AccountList accounts =>
        results <- run_accounts 0 accounts [] ;;
        let msg := summary results in
        log msg ;;;
        (if truthy tg_token && truthy tg_default_chat
         then emit (Telegram tg_token tg_default_chat msg)
         else ret tt) ;;;
        ret (exit_code results)
    end.
End Program.

(** The attribute pair the fallback pattern is written for, followed by
    [rest]: [name], [=], a quote, [token], a quote, white space, [value],
    [=], a quote, the value [x] and a quote, with optional white space
    [w1], [w2], [w4], [w5] around the two equals signs. *)
Definition token_attributes (w1 w2 w3 w4 w5 : str) (q1 q2 q3 q4 : N)
           (x rest : str) : str :=
  U "name" ++ w1 ++ U "=" ++ w2 ++ q1 :: U "token" ++ q2 :: w3 ++
  U "value" ++ w4 ++ U "=" ++ w5 ++ q3 :: x ++ q4 :: rest.

(** What one attempt of [http_request] makes of the reply: an exception
    of [session.request] and an answer with a status of 500 or more are
    failures, held by the [except] clause; any other answer is returned. *)
Definition attempt_outcome (rp : reply) : Res Response :=
  match rp with
  | Fails e => Raise e
  | Answer r =>
      if (status_code r >=? 500)%Z
      then Raise (Exn RequestException
                      (U "Server error: " ++ str_of_Z (status_code r)))
      else Ok r
  end.

(* ================================================================== *)
(** ** Stub libraries for concrete runs *)

(** ASCII case mapping, standing for [str.upper] and [str.lower]. *)
Definition ascii_upper (s : str) : str :=
  map (fun c => if is_lower_ascii c then (c - 32)%N else c) s.
Definition ascii_lower (s : str) : str :=
  map (fun c => if is_upper_ascii c then (c + 32)%N else c) s.

(** A runtime made of a scripted transport, a scripted parser and a
    scripted environment; [urljoin] appends an absolute path to a base
    that has none. *)
Definition stub_runtime (bs4 : bool) (soup : str -> option node)
           (net : list exchange -> Request -> reply)
           (env : str -> option str) (loads : str -> accounts_input) : Runtime :=
  {| HAVE_BS4 := bs4;
     BeautifulSoup := soup;
     urljoin := fun base ref => base ++ ref;
     urljoin_error := fun _ _ => None;
     str_upper := ascii_upper;
     str_lower := ascii_lower;
     session_request := net;
     _find_checkin_action_in_html := fun _ _ => Ok None;
     getenv := env;
     json_loads := loads;
     print_error := fun _ => None;
     py_str := fun _ => U "..." |}.

Definition page (code : Z) (body : string) (at_url : string) : Response :=
  mkResponse code (U body) (U at_url) (Some (U "text/html; charset=utf-8")) None.

Definition no_net : list exchange -> Request -> reply :=
  fun _ _ => Fails (Exn TransportError (U "connection refused")).

Definition no_env : str -> option str := fun _ => None.

Definition no_accounts : str -> accounts_input := fun _ => NotAList.

(** A runtime without BeautifulSoup and without network. *)
Definition rt_plain : Runtime :=
  stub_runtime false (fun _ => None) no_net no_env no_accounts.

(** A transport that answers the first [n] requests with status 500 and
    the following ones with status 200. *)
Definition net_failing_first (n : nat) : list exchange -> Request -> reply :=
  fun h _ =>
    if length h <? n then Answer (page 500 "Internal Server Error" "/index.php")
    else Answer (page 200 "<html>ok</html>" "/index.php").

Definition rt_failing_first (n : nat) : Runtime :=
  stub_runtime false (fun _ => None) (net_failing_first n) no_env no_accounts.

Definition get_index : Request :=
  mkRequest 0 (U "GET") (U "https://panel.freecloud.ltd/index.php") 30 [] None None.

(** A transport that plays a script: the n-th request of the run gets the
    n-th reply, and the connection fails once the script is over. *)
Definition net_script (script : list reply) : list exchange -> Request -> reply :=
  fun h _ => nth (length h) script (Fails (Exn TransportError (U "connection refused"))).

Definition sample_base : str := U "https://panel.freecloud.ltd".

(** A login page, an answer to the login form that reports wrong
    credentials next to a captcha, and a client area. *)
Definition login_page : Response :=
  page 200 "<form action='/index.php?rp=/login'><input name='token' value='t0k'></form>"
       "https://panel.freecloud.ltd/index.php?rp=/login".

Definition wrong_password_with_captcha : Response :=
  page 200 "<div>Login Details Incorrect. Please try again.</div><div class='g-recaptcha'></div>"
       "https://panel.freecloud.ltd/index.php?rp=/login".

Definition client_area : Response :=
  page 200 "<a href='/logout.php'>Logout</a>"
       "https://panel.freecloud.ltd/clientarea.php".

Definition rt_wrong_password_with_captcha : Runtime :=
  stub_runtime false (fun _ => None)
    (net_script [Answer login_page; Answer wrong_password_with_captcha])
    no_env no_accounts.

Definition rt_good_login : Runtime :=
  stub_runtime false (fun _ => None)
    (net_script [Answer login_page; Answer client_area; Answer client_area])
    no_env no_accounts.

(** A parsed login page with two forms: first a form with a user name and
    a password field that posts to [/auth.php], then a form whose action
    is the login route. *)
Definition input_named (n : string) : node :=
  Tag (U "input") [(U "name", U n)] [].

Definition credentials_form : node :=
  Tag (U "form") [(U "action", U "/auth.php")]
      [input_named "username"; input_named "password"].

Definition login_route_form : node :=
  Tag (U "form") [(U "action", U "/index.php?rp=/login")] [input_named "q"].

Definition two_forms_soup : node :=
  Tag (U "[document]") [] [Tag (U "body") [] [credentials_form; login_route_form]].

Definition rt_two_forms : Runtime :=
  stub_runtime true (fun _ => Some two_forms_soup)
    (net_script [Answer login_page; Answer client_area; Answer client_area])
    no_env no_accounts.

(** An environment that sets [ACCOUNTS] only. *)
Definition env_accounts (raw : str) : str -> option str :=
  fun k => if str_eqb k (U "ACCOUNTS") then Some raw else None.

(** [ACCOUNTS] holding a JSON object instead of an array. *)
Definition rt_object_config : Runtime :=
  stub_runtime false (fun _ => None) no_net (env_accounts (U "{}"))
    (fun raw => if str_eqb raw (U "{}") then NotAList
                else BadJson (Exn TypeError (U "Expecting value"))).

(** A runtime whose [ACCOUNTS] decodes to the given records. *)
Definition rt_accounts (net : list exchange -> Request -> reply)
           (accounts : list Account) : Runtime :=
  stub_runtime false (fun _ => None) net (env_accounts (U "[...]"))
    (fun _ => AccountList accounts).

(** An account object with the given fields; a field that is not given
    has no key. *)
Definition text_field (k : string) (v : option str) : list (str * jval) :=
  match v with Some s => [(U k, JStr s)] | None => [] end.

Definition mkAccount (label email password base_url tg_chat_id : option str)
  : Account :=
  JObj (text_field "label" label ++ text_field "email" email
        ++ text_field "password" password ++ text_field "base_url" base_url
        ++ text_field "tg_chat_id" tg_chat_id).

(** An account with no label and no password whose address has nothing
    before the at sign; an account with a label and no password; an
    account with credentials. *)
Definition account_at_sign_first : Account :=
  mkAccount None (Some (U "@example.com")) (Some (U "")) None None.

Definition account_without_password : Account :=
  mkAccount (Some (U "main")) (Some (U "user@example.com")) None None None.


(** The end-to-end scenario of the specification: a first account that
    logs in and checks in through a probed endpoint, and a second account
    with a wrong password. *)
Definition checkin_done : Response :=
  page 200 "<div class='alert alert-success'>签到成功，获得 1 积分</div>"
       "https://panel.freecloud.ltd/clientarea.php?action=qiandao".

Definition wrong_password : Response :=
  page 200 "<div class='alert alert-danger'>Login Details Incorrect. Please try again.</div>"
       "https://panel.freecloud.ltd/index.php?rp=/login".

Definition account_alice : Account :=
  mkAccount (Some (U "alice")) (Some (U "alice@example.com")) (Some (U "secret"))
            None None.

Definition account_bob : Account :=
  mkAccount None (Some (U "bob@example.com")) (Some (U "wrong")) None None.

Definition rt_two_accounts : Runtime :=
  rt_accounts
    (net_script [ Answer login_page; Answer client_area; Answer client_area;
                  Answer client_area; Answer checkin_done; Answer checkin_done;
                  Answer login_page; Answer wrong_password ])
    [account_alice; account_bob].

(** An exchange that [http_request] counts as a failed attempt. *)
Definition failed_attempt (x : exchange) : Prop :=
  exists e, attempt_outcome (snd x) = Raise e.

(** Every character class of [r] gives the same answer on [f x] as on
    [x]. *)
Fixpoint class_blind (f : N -> N) (r : regex) : Prop :=
  match r with
  | Eps => True
  | Chr c | Star c => forall x, c (f x) = c x
  | Cat r1 r2 | Alt r1 r2 => class_blind f r1 /\ class_blind f r2
  | Group r1 => class_blind f r1
  end.

(** The other case of an ASCII letter. *)
Definition to_lower_ascii (c : N) : N := if is_upper_ascii c then (c + 32)%N else c.
Definition to_upper_ascii (c : N) : N := if is_lower_ascii c then (c - 32)%N else c.

(** The run of [login_whmcs] against the scripted good login. *)
Definition good_login_run : Res (status * str) * list exchange :=
  login_whmcs (RT := rt_good_login) 0 sample_base
              (U "user@example.com") (U "secret") [].

Section Turn.
Context {RT : Runtime}.

(** A value that is handed on once a message has been logged. *)
Definition after_log A (msg : str) (a : A) : Res A :=
  match print_error msg with
  | Some e => Raise e
  | None => Ok a
  end.

(** The status a call left with, as [call] notes it. *)
Definition left_with A (r : Res (status * A)) : option status :=
  match r with
  | Ok (s, _) => Some s
  | Raise _ => None
  end.

(** The message and the entry of a turn of the loop whose call of
    [login_whmcs] did not return [SUCCESS]. *)
Definition login_failure_message (label : str) (r : Res (status * str)) : str :=
  match r with
  | Raise e => tagged label (U "Login error: " ++ exn_str e)
  | Ok (TWO_FA, _) =>
      tagged label (U "2FA/human verification detected. Skipping check-in.")
  | Ok (_, detail) => tagged label (U "Login failed: " ++ detail)
  end.

Definition login_failure_entry (label : str) (r : Res (status * str)) : outcome :=
  match r with
  | Raise e => (FAILED, label, JStr (U "Login error: " ++ exn_str e))
  | Ok (TWO_FA, detail) => (TWO_FA, label, JStr detail)
  | Ok (_, detail) => (FAILED, label, JStr detail)
  end.

(** The message and the entry of a turn that called [perform_checkin]. *)
Definition checkin_log (label : str) (r : Res (status * jval)) : str :=
  match r with
  | Raise e => tagged label (U "Check-in error: " ++ exn_str e)
  | Ok (st, detail) => checkin_message label st detail
  end.

Definition checkin_entry (label : str) (r : Res (status * jval)) : outcome :=
  match r with
  | Raise e => (FAILED, label, JStr (U "Check-in error: " ++ exn_str e))
  | Ok (st, detail) => (st, label, detail)
  end.

(** [print] returns on every message. *)
Definition print_returns : Prop := forall msg, print_error msg = None.
End Turn.

(** A value that is truthy and not a text: [or_strip] raises on it. *)
Definition truthy_non_text (v : jval) : bool :=
  jtruthy v && match v with JStr _ => false | _ => true end.

(** The text of a value, empty for a value that is not a text. *)
Definition text_of (v : jval) : str :=
  match v with JStr s => s | _ => [] end.






(** The sessions of the requests of a run, in the order of the requests. *)
Definition sessions_of (evs : list event) : list nat :=
  map (fun x => rq_session (fst x)) (exchanges_of evs).

(** Whether an event is the sending of the summary. *)
Definition is_telegram (e : event) : bool :=
  match e with Telegram _ _ _ => true | _ => false end.

(** The test of the probing loop, on an exchange: an answer with status
    200 whose body matches [probe_pattern]. *)
Definition probe_hit (x : exchange) : bool :=
  match snd x with
  | Answer resp => (status_code resp =? 200)%Z && found probe_pattern (text resp)
  | Fails _ => false
  end.

Section CheckinRequest.
Context {RT : Runtime}.

(** The headers [perform_checkin] builds. *)
Definition checkin_headers (base_url : str) : dict str :=
  browser_headers (urljoin base_url (U "/clientarea.php")).

(** The form data of a POST check-in: the data of the action, with the
    token of the dashboard page added when the data has none. *)
Definition checkin_post_data (action : Action) (page : str) : dict str :=
  let data := match act_data action with Some d => d | None => [] end in
  if dict_mem data (U "token") then data
  else
    match _extract_csrf_token_from_html page with
    | Some token => if truthy token then dict_set data (U "token") token else data
    | None => data
    end.

(** The request [perform_checkin] makes for an action. *)
Definition checkin_request (session : nat) (base_url : str) (action : Action)
           (page : str) : Request :=
  if str_eqb (str_upper (act_method action)) (U "POST") then
    mkRequest session (U "POST") (act_url action) 30
              (form_headers (checkin_headers base_url))
              (Some (checkin_post_data action page)) (Some true)
  else
    mkRequest session (U "GET") (act_url action) 30
              (checkin_headers base_url) None (Some true).

(** The request for the dashboard and the request that probes a path. *)
Definition checkin_get (session : nat) (base_url target : str) : Request :=
  mkRequest session (U "GET") target 30 (checkin_headers base_url) None None.
End CheckinRequest.

(** A dashboard without check-in entry, a page that is not there, and a
    run of the probing loop in which the first path is not there, the
    second cannot be reached and the third answers. *)
Definition not_found : Response :=
  page 404 "<h1>Not Found</h1>" "https://panel.freecloud.ltd/clientarea.php".

Definition unreachable : reply := Fails (Exn TransportError (U "timed out")).

Definition rt_probe : Runtime :=
  stub_runtime false (fun _ => None)
    (net_script [ Answer client_area; Answer not_found;
                  unreachable; unreachable; unreachable;
                  Answer checkin_done; Answer checkin_done ])
    no_env no_accounts.

Definition probe_run : Res (status * jval) * list exchange :=
  perform_checkin (RT := rt_probe) 0 sample_base [].

(** A text between double quotes. *)
Definition quoted (s : str) : str := 0x22%N :: s ++ [0x22%N].

(** A dashboard with a check-in form and the JSON answer to the form;
    without BeautifulSoup the discovery of the script finds the form by
    its second pattern and returns a POST to its action with the token of
    the page. *)
Definition dashboard_with_form : Response :=
  mkResponse 200
    (U "<form method='post' action=" ++ quoted (U "/checkin.php")
     ++ U "><input name='token' value='t0k'><button>签到</button></form>")
    (U "https://panel.freecloud.ltd/clientarea.php")
    (Some (U "text/html; charset=utf-8")) None.

Definition json_already : Response :=
  mkResponse 200 (U "{'success': true, 'message': 'Already checked in, ok'}")
             (U "https://panel.freecloud.ltd/checkin.php")
             (Some (U "application/json; charset=utf-8"))
             (Some (JObj [ (U "success", JBool true);
                           (U "message", JStr (U "Already checked in, ok")) ])).

Definition rt_post_action : Runtime :=
  {| HAVE_BS4 := false;
     BeautifulSoup := fun _ => None;
     urljoin := fun base ref => base ++ ref;
     str_upper := ascii_upper;
     str_lower := ascii_lower;
     urljoin_error := fun _ _ => None;
     session_request :=
       net_script [Answer dashboard_with_form; Answer json_already];
     _find_checkin_action_in_html :=
       fun base _ =>
         Ok (Some (mkAction (U "POST") (base ++ U "/checkin.php")
                            (Some [(U "token", U "t0k")])));
     getenv := no_env;
     json_loads := no_accounts;
     print_error := fun _ => None;
     py_str := fun _ => U "..." |}.

Definition post_run : Res (status * jval) * list exchange :=
  perform_checkin (RT := rt_post_action) 0 sample_base [].

(** A dashboard whose check-in link has an address that [urljoin] cannot
    parse: the discovery of the script raises [ValueError] at the join it
    makes for its first pattern. *)
Definition dashboard_bad_link : Response :=
  mkResponse 200
    (U "<a class='btn' href=" ++ quoted (U "http://[bad") ++ U ">签到</a>")
    (U "https://panel.freecloud.ltd/clientarea.php")
    (Some (U "text/html; charset=utf-8")) None.

Definition rt_bad_link : Runtime :=
  {| HAVE_BS4 := false;
     BeautifulSoup := fun _ => None;
     urljoin := fun base ref => base ++ ref;
     urljoin_error :=
       fun _ ref =>
         if str_eqb ref (U "http://[bad")
         then Some (Exn ValueError (U "Invalid IPv6 URL"))
         else None;
     str_upper := ascii_upper;
     str_lower := ascii_lower;
     session_request := net_script [Answer dashboard_bad_link];
     _find_checkin_action_in_html :=
       fun _ _ => Raise (Exn ValueError (U "Invalid IPv6 URL"));
     getenv := no_env;
     json_loads := no_accounts;
     print_error := fun _ => None;
     py_str := fun _ => U "..." |}.

Definition bad_link_run : Res (status * jval) * list exchange :=
  perform_checkin (RT := rt_bad_link) 0 sample_base [].

(** The loop of [main] over the two accounts of the end-to-end
    scenario. *)
Definition two_accounts_loop : Res (list outcome) * list event :=
  run_accounts (RT := rt_two_accounts) 0 [account_alice; account_bob] [] [].




(* ================================================================== *)
(** * Properties *)

(** ** Concrete runs *)

Example utf8_decode_checkin : U "签到" = [0x7B7E; 0x5230]%N.
Proof. reflexivity. Qed.

Example strip_spaces : strip (U "  a b  ") = U "a b".
Proof. reflexivity. Qed.

Example challenge_two_factor_spaced :
  is_2fa_or_human_challenge (U "<h1>TWO   factor</h1>") (U "") = true.
Proof. vm_compute. reflexivity. Qed.

Example challenge_plain_page :
  is_2fa_or_human_challenge (U "<h1>Welcome</h1>") (U "/clientarea.php") = false.
Proof. vm_compute. reflexivity. Qed.

Example mask_email_short : mask_email (U "ab@example.com") = Ok (U "a*@example.com").
Proof. reflexivity. Qed.

Example mask_email_long :
  mask_email (U "alice@example.com") = Ok (U "a***e@example.com").
Proof. reflexivity. Qed.

Example mask_email_no_at : mask_email (U "alice") = Ok (U "***").
Proof. reflexivity. Qed.

Example two_accounts_run :
  let '(r, evs) := main (RT := rt_two_accounts) [] in
  r = Ok 0%Z
  /\ filter (fun e => match e with Sent _ => false | _ => true end) evs
     = [ Enter Login 0; Leave Login 0 (Some SUCCESS);
         Enter Checkin 0; Leave Checkin 0 (Some SUCCESS);
         Enter Login 1; Leave Login 1 (Some FAILED) ].
Proof. vm_compute. split; reflexivity. Qed.

(** ** The matcher against what a pattern denotes *)

Lemma firstn_app_length_sub (m s : str) :
  firstn (length (m ++ s) - length s) (m ++ s) = m.
Proof.
  rewrite length_app, Nat.add_sub.
  rewrite firstn_app, Nat.sub_diag, firstn_all. simpl. apply app_nil_r.
Qed.

Lemma star_run_sound R (c : cset) (s : str) (k : str -> option R) v :
  star_run c s k = Some v ->
  exists m s', s = m ++ s' /\ forallb c m = true /\ k s' = Some v.
Proof.
  induction s as [|x s IH]; simpl; intros H.
  - exists [], []. auto.
  - destruct (c x) eqn:Hc.
    + destruct (star_run c s k) eqn:Hs.
      * injection H as <-. destruct (IH eq_refl) as (m & s' & -> & Hm & Hk).
        exists (x :: m), s'. simpl. rewrite Hc, Hm. auto.
      * exists [], (x :: s). auto.
    + exists [], (x :: s). auto.
Qed.

Lemma star_run_complete R (c : cset) (m s' : str) (k : str -> option R) :
  forallb c m = true -> k s' <> None -> star_run c (m ++ s') k <> None.
Proof.
  induction m as [|x m IH]; simpl; intros Hm Hk.
  - destruct s' as [|y s']; simpl; auto.
    destruct (c y); auto. destruct (star_run c s' k); congruence.
  - apply andb_prop in Hm as [Hx Hm]. rewrite Hx.
    specialize (IH Hm Hk). destruct (star_run c (m ++ s') k); congruence.
Qed.

(** Whatever the matcher returns comes from a text the pattern denotes. *)
Lemma run_sound R (r : regex) :
  forall (s : str) g (k : str -> capture -> option R) v,
    run r s g k = Some v ->
    exists m s' g', s = m ++ s' /\ Matches r m g g' /\ k s' g' = Some v.
Proof.
  induction r as [|c|r1 IH1 r2 IH2|r1 IH1 r2 IH2|c|r IH]; simpl; intros s g k v H.
  - exists [], s, g. repeat split; auto. constructor.
  - destruct s as [|x s]; [discriminate|]. destruct (c x) eqn:Hc; [|discriminate].
    exists [x], s, g. repeat split; auto. constructor; auto.
  - apply IH1 in H as (m1 & s1 & g1 & -> & M1 & H).
    apply IH2 in H as (m2 & s2 & g2 & -> & M2 & H).
    exists (m1 ++ m2), s2, g2. rewrite <- app_assoc. repeat split; auto.
    econstructor; eauto.
  - destruct (run r1 s g k) eqn:H1.
    + injection H as <-. apply IH1 in H1 as (m & s' & g' & -> & M1 & H).
      exists m, s', g'. repeat split; auto. apply MAltL; auto.
    + apply IH2 in H as (m & s' & g' & -> & M1 & H).
      exists m, s', g'. repeat split; auto. apply MAltR; auto.
  - apply star_run_sound in H as (m & s' & -> & Hm & H).
    exists m, s', g. repeat split; auto. constructor; auto.
  - apply IH in H as (m & s' & g' & -> & M1 & H).
    rewrite firstn_app_length_sub in H.
    exists m, s', (Some m). repeat split; auto. econstructor; eauto.
Qed.

(** A text the pattern denotes, followed by something the continuation
    accepts, makes the matcher succeed. *)
Lemma run_complete R (r : regex) (m : str) g g' :
  Matches r m g g' ->
  forall (s' : str) (k : str -> capture -> option R),
    k s' g' <> None -> run r (m ++ s') g k <> None.
Proof.
  induction 1 as [g|c x g Hc|r1 r2 m1 m2 g g1 g2 _ IH1 _ IH2
                 |r1 r2 m g g' _ IH|r1 r2 m g g' _ IH|c m g Hm|r m g g' _ IH];
    simpl; intros s' k Hk; auto.
  - rewrite Hc. auto.
  - rewrite <- app_assoc. apply IH1. apply IH2. auto.
  - specialize (IH s' k Hk). destruct (run r1 (m ++ s') g k); congruence.
  - specialize (IH s' k Hk). destruct (run r1 (m ++ s') g k); congruence.
  - apply star_run_complete; auto.
  - apply IH. rewrite firstn_app_length_sub. auto.
Qed.

Lemma match_at_sound (r : regex) (s : str) g :
  match_at r s = Some g ->
  exists m post, s = m ++ post /\ Matches r m None g.
Proof.
  unfold match_at. intros H.
  apply run_sound in H as (m & s' & g' & -> & M & H).
  injection H as ->. eauto.
Qed.

Lemma match_at_none (r : regex) (s : str) :
  match_at r s = None <-> ~ MatchesPrefix r s.
Proof.
  split.
  - intros H (m & post & g & -> & M).
    revert H. apply (run_complete M). discriminate.
  - intros H. destruct (match_at r s) as [g|] eqn:E; auto.
    exfalso. apply H. apply match_at_sound in E as (m & post & -> & M).
    exists m, post, g. auto.
Qed.

Lemma search_sound (r : regex) (s : str) g :
  search r s = Some g ->
  exists pre m post, s = pre ++ m ++ post /\ Matches r m None g.
Proof.
  induction s as [|x s IH]; simpl; intros H.
  - destruct (match_at r []) eqn:E; [|discriminate]. injection H as ->.
    apply match_at_sound in E as (m & post & -> & M). exists [], m, post. auto.
  - destruct (match_at r (x :: s)) eqn:E.
    + injection H as ->. apply match_at_sound in E as (m & post & -> & M).
      exists [], m, post. auto.
    + destruct (IH H) as (pre & m & post & -> & M).
      exists (x :: pre), m, post. auto.
Qed.

Lemma search_complete (r : regex) (pre m post : str) g :
  Matches r m None g -> search r (pre ++ m ++ post) <> None.
Proof.
  intros M. induction pre as [|x pre IH]; simpl.
  - assert (E : match_at r (m ++ post) <> None)
      by (apply (run_complete M); discriminate).
    destruct (m ++ post); simpl; destruct (match_at r _); congruence.
  - destruct (match_at r (x :: pre ++ m ++ post)); [discriminate|auto].
Qed.

(** [re.search] finds something exactly when some part of the text is
    denoted by the pattern. *)
Lemma found_iff (r : regex) (s : str) : found r s = true <-> Contains r s.
Proof.
  unfold found, Contains. split.
  - destruct (search r s) as [g|] eqn:E; [|discriminate]. intros _.
    apply search_sound in E as (pre & m & post & -> & M). eauto 6.
  - intros (pre & m & post & g & -> & M).
    pose proof (@search_complete r pre m post g M).
    destruct (search r (pre ++ m ++ post)); congruence.
Qed.

(** [re.search] returns the match at the first position that has one. *)
Lemma search_leftmost (r : regex) (pre s : str) :
  (forall p1 p2, pre = p1 ++ p2 -> p2 <> [] -> ~ MatchesPrefix r (p2 ++ s)) ->
  match_at r s <> None ->
  search r (pre ++ s) = match_at r s.
Proof.
  induction pre as [|x pre IH]; simpl; intros Hpre Hs.
  - destruct s; simpl; destruct (match_at r _); congruence.
  - assert (E : match_at r (x :: pre ++ s) = None).
    { apply match_at_none. apply (Hpre [] (x :: pre)); [reflexivity|discriminate]. }
    rewrite E. apply IH; auto.
    intros p1 p2 -> Hp2. apply (Hpre (x :: p1) p2); auto.
Qed.

(** ** Literal texts *)

Lemma chr_i_refl (c : N) : chr_i c c = true.
Proof.
  unfold chr_i, is_upper_ascii, is_lower_ascii.
  destruct ((0x41 <=? c) && (c <=? 0x5A))%N eqn:Hu.
  - apply andb_prop in Hu as [H1 H2].
    apply N.leb_le in H1, H2.
    replace ((0x61 <=? c + 32) && (c + 32 <=? 0x7A))%N with true.
    + rewrite N.add_sub, (N.eqb_refl c), orb_true_r. reflexivity.
    + symmetry. apply andb_true_intro. split; apply N.leb_le; lia.
  - destruct ((0x61 <=? c) && (c <=? 0x7A))%N; rewrite N.eqb_refl; reflexivity.
Qed.

Lemma matches_lit (l : str) g : Matches (lit_i l) l g g.
Proof.
  induction l as [|c l IH]; simpl.
  - constructor.
  - apply (MCat (m1 := [c]) (m2 := l) (g1 := g)); auto.
    constructor. apply chr_i_refl.
Qed.

Lemma contains_lit (l a b : str) : Contains (lit_i l) (a ++ l ++ b).
Proof. exists a, l, b, None. split; auto. apply matches_lit. Qed.

Lemma run_lit R (l s : str) g (k : str -> capture -> option R) :
  run (lit_i l) (l ++ s) g k = k s g.
Proof.
  induction l as [|c l IH]; simpl; auto.
  rewrite chr_i_refl. apply IH.
Qed.

Lemma any_found_iff (ps : list regex) (s : str) :
  existsb (fun p => found p s) ps = true <->
  exists p, In p ps /\ Contains p s.
Proof.
  rewrite existsb_exists. split; intros (p & Hin & H); exists p; split; auto;
    apply found_iff; auto.
Qed.

(** ** Challenge detector *)

(** C2, as the code has it: on a non-empty body the detector answers true
    exactly when the body contains a match of one of the fixed phrase
    patterns or the final URL contains a match of the two-factor pattern;
    on an empty body it answers false whatever the URL is. *)
Theorem is_challenge_iff (body final_url : str) :
  is_2fa_or_human_challenge body final_url = true <->
  body <> [] /\
  ((exists p, In p challenge_patterns /\ Contains p body) \/
   Contains challenge_url_pattern final_url).
Proof.
  unfold is_2fa_or_human_challenge.
  rewrite <- any_found_iff, <- found_iff.
  destruct body as [|c body]; simpl truthy; simpl negb; cbv iota.
  - split; [discriminate|]. intros [H _]. congruence.
  - destruct (existsb _ challenge_patterns).
    + split; auto. intros _. split; [discriminate|auto].
    + destruct (found challenge_url_pattern final_url).
      * split; auto. intros _. split; [discriminate|auto].
      * split; [discriminate|]. intros [_ [H|H]]; discriminate.
Qed.

Lemma is_challenge_iff_witness :
  is_2fa_or_human_challenge (U "<p>sign in</p>") (U "/login/2FA") = true.
Proof.
  apply (is_challenge_iff (U "<p>sign in</p>") (U "/login/2FA")). split.
  - discriminate.
  - right. apply found_iff. vm_compute. reflexivity.
Defined.

(** C2 fails as stated: a final URL that matches the two-factor pattern
    does not make the detector answer true when the body is empty. *)
Lemma challenge_url_with_empty_body :
  Contains challenge_url_pattern (U "/login/2fa") /\
  is_2fa_or_human_challenge (U "") (U "/login/2fa") = false.
Proof.
  split.
  - apply found_iff. vm_compute. reflexivity.
  - vm_compute. reflexivity.
Qed.

(** ** Token extractor *)

(** A greedy repetition that runs into a character outside its class hands
    over exactly there, provided the rest then succeeds. *)
Lemma star_run_exact R (c : cset) (w s : str) (k : str -> option R) v :
  forallb c w = true ->
  match s with [] => True | y :: _ => c y = false end ->
  k s = Some v ->
  star_run c (w ++ s) k = Some v.
Proof.
  intros Hw Hs Hk. induction w as [|x w IH]; simpl.
  - destruct s as [|y s]; simpl; auto. rewrite Hs. auto.
  - simpl in Hw. apply andb_prop in Hw as [Hx Hw]. rewrite Hx, (IH Hw). reflexivity.
Qed.

Lemma run_star_exact R (c : cset) (w s : str) g (k : str -> capture -> option R) v :
  forallb c w = true ->
  match s with [] => True | y :: _ => c y = false end ->
  k s g = Some v ->
  run (Star c) (w ++ s) g k = Some v.
Proof. intros. simpl. apply star_run_exact; auto. Qed.

Lemma run_plus_exact R (c : cset) (w s : str) g (k : str -> capture -> option R) v :
  w <> [] ->
  forallb c w = true ->
  match s with [] => True | y :: _ => c y = false end ->
  k s g = Some v ->
  run (Plus c) (w ++ s) g k = Some v.
Proof.
  intros Hne Hw Hs Hk. destruct w as [|x w]; [congruence|].
  simpl in Hw. apply andb_prop in Hw as [Hx Hw].
  simpl. rewrite Hx. apply star_run_exact; auto.
Qed.

Lemma run_group_plus_exact R (c : cset) (w s : str) g
      (k : str -> capture -> option R) v :
  w <> [] ->
  forallb c w = true ->
  match s with [] => True | y :: _ => c y = false end ->
  k s (Some w) = Some v ->
  run (Group (Plus c)) (w ++ s) g k = Some v.
Proof.
  intros Hne Hw Hs Hk.
  change (run (Group (Plus c)) (w ++ s) g k)
    with (run (Plus c) (w ++ s) g
              (fun s1 _ => k s1 (Some (firstn (length (w ++ s) - length s1) (w ++ s))))).
  apply run_plus_exact; auto.
  rewrite firstn_app_length_sub. auto.
Qed.

Lemma quote_not_space (q : N) : quote q = true -> ws q = false.
Proof.
  unfold quote. intros H. apply orb_prop in H as [H|H];
    apply N.eqb_eq in H; subst; reflexivity.
Qed.

Lemma quote_not_not_quote (q : N) : quote q = true -> not_quote q = false.
Proof. unfold not_quote. intros ->. reflexivity. Qed.

Lemma run_cat R (r1 r2 : regex) (s : str) g (k : str -> capture -> option R) :
  run (Cat r1 r2) s g k = run r1 s g (fun s1 g1 => run r2 s1 g1 k).
Proof. reflexivity. Qed.

Lemma run_chr R (c : cset) (x : N) (s : str) g (k : str -> capture -> option R) :
  c x = true -> run (Chr c) (x :: s) g k = k s g.
Proof. intros H. simpl. rewrite H. reflexivity. Qed.

Ltac run_step :=
  lazymatch goal with
  | |- run (Cat _ _) _ _ _ = _ => rewrite run_cat
  | |- run (lit_i ?l) (?l ++ _) _ _ = _ => rewrite run_lit; cbv beta
  | |- run (Star _) (_ ++ _) _ _ = _ => apply run_star_exact; cbv beta
  | |- run (Plus _) (_ ++ _) _ _ = _ => apply run_plus_exact; cbv beta
  | |- run (Group (Plus _)) (_ ++ _) _ _ = _ =>
      apply run_group_plus_exact; cbv beta
  | |- run (Chr _) (_ :: _) _ _ = _ => rewrite run_chr; cbv beta
  | |- run Eps _ _ _ = _ => reflexivity
  | |- ws ?q = false => apply quote_not_space; assumption
  | |- not_quote ?q = false => apply quote_not_not_quote; assumption
  | |- match U _ ++ _ with [] => True | _ :: _ => _ end => reflexivity
  | |- _ => assumption
  end.

Lemma match_at_token_attributes (w1 w2 w3 w4 w5 : str) (q1 q2 q3 q4 : N)
      (x rest : str) :
  forallb ws w1 = true -> forallb ws w2 = true -> forallb ws w3 = true ->
  forallb ws w4 = true -> forallb ws w5 = true -> w3 <> [] ->
  quote q1 = true -> quote q2 = true -> quote q3 = true -> quote q4 = true ->
  x <> [] -> forallb not_quote x = true ->
  match_at token_pattern (token_attributes w1 w2 w3 w4 w5 q1 q2 q3 q4 x rest)
  = Some (Some x).
Proof.
  intros H1 H2 H3 H4 H5 Hw3 Q1 Q2 Q3 Q4 Hx Hnq.
  unfold match_at, token_pattern, token_attributes, seq, L.
  repeat run_step.
Qed.

Lemma match_before_none (r : regex) (pre s : str) :
  match_before r pre s = false ->
  forall p1 p2, pre = p1 ++ p2 -> p2 <> [] -> ~ MatchesPrefix r (p2 ++ s).
Proof.
  induction pre as [|x pre IH]; simpl; intros H p1 p2 E Hne.
  - destruct p1, p2; simpl in E; congruence.
  - destruct (match_at r (x :: pre ++ s)) eqn:Em; [discriminate|].
    destruct p1 as [|y p1]; simpl in E.
    + subst p2. apply match_at_none. exact Em.
    + injection E as _ E. eapply IH; eauto.
Qed.

Lemma matches_group_free (r : regex) (m : str) g g' :
  Matches r m g g' -> group_free r = true -> g' = g.
Proof.
  induction 1; simpl; intros Hg; auto; try discriminate.
  - apply andb_prop in Hg as [Ha Hb]. rewrite IHMatches2, IHMatches1; auto.
  - apply andb_prop in Hg as [Ha Hb]. auto.
  - apply andb_prop in Hg as [Ha Hb]. auto.
Qed.

Lemma group_free_lit (l : str) : group_free (lit_i l) = true.
Proof. induction l; simpl; auto. Qed.

(** Whatever the fallback pattern captures has at least one character. *)
Lemma token_pattern_capture (m : str) g :
  Matches token_pattern m None g -> exists x, g = Some x /\ x <> [].
Proof.
  unfold token_pattern, seq. intros H.
  repeat match type of H with
  | Matches (Cat (Group _) _) _ _ _ => fail 1
  | Matches (Cat ?r _) _ _ _ =>
      let H1 := fresh "H" in
      let H2 := fresh "H" in
      inversion H as [| |? ? ? ? ? ? ? H1 H2 | | | |]; subst; clear H;
      apply matches_group_free in H1;
      [subst; rename H2 into H
      |first [apply group_free_lit | reflexivity]]
  end.
  inversion H as [| |? ? mx ? ? ? ? Hgroup Hrest | | | |]; subst; clear H.
  apply matches_group_free in Hrest; [|reflexivity]. subst.
  inversion Hgroup as [| | | | | |? ? ? ? Hplus]; subst.
  exists mx. split; auto.
  inversion Hplus as [| |? ? ? ? ? ? ? Hc _ | | | |]; subst.
  inversion Hc; subst. discriminate.
Qed.

Lemma fallback_token_nonempty (html t : str) :
  match search token_pattern html with Some m => m | None => None end = Some t ->
  t <> [].
Proof.
  destruct (search token_pattern html) as [g|] eqn:E; [|discriminate].
  intros ->. apply search_sound in E as (pre & m & post & _ & M).
  apply token_pattern_capture in M as (y & Hy & Hne). congruence.
Qed.

Section TokenExtractor.
Context {RT : Runtime}.

(** C3, as the code has it: without the structured parser, a page whose
    first match of the fallback pattern is a [name] attribute equal to
    [token] followed, after white space, by a [value] attribute holding
    [x], each of the four quotes single or double, [x] non-empty and free
    of quote characters, yields [x]. *)
Theorem token_fallback_name_then_value
        (pre w1 w2 w3 w4 w5 : str) (q1 q2 q3 q4 : N) (x rest : str) :
  HAVE_BS4 = false ->
  forallb ws w1 = true -> forallb ws w2 = true -> forallb ws w3 = true ->
  forallb ws w4 = true -> forallb ws w5 = true -> w3 <> [] ->
  quote q1 = true -> quote q2 = true -> quote q3 = true -> quote q4 = true ->
  x <> [] -> forallb not_quote x = true ->
  (forall p1 p2, pre = p1 ++ p2 -> p2 <> [] ->
     ~ MatchesPrefix token_pattern
         (p2 ++ token_attributes w1 w2 w3 w4 w5 q1 q2 q3 q4 x rest)) ->
  _extract_csrf_token_from_html
    (pre ++ token_attributes w1 w2 w3 w4 w5 q1 q2 q3 q4 x rest) = Some x.
Proof.
  intros Hbs H1 H2 H3 H4 H5 Hw3 Q1 Q2 Q3 Q4 Hx Hnq Hpre.
  pose proof (@match_at_token_attributes w1 w2 w3 w4 w5 q1 q2 q3 q4 x rest
                H1 H2 H3 H4 H5 Hw3 Q1 Q2 Q3 Q4 Hx Hnq) as Hm.
  unfold _extract_csrf_token_from_html, token_from_soup. rewrite Hbs.
  rewrite (search_leftmost Hpre), Hm by (rewrite Hm; discriminate).
  destruct pre; reflexivity.
Qed.

(** C9: a token the extractor returns is never the empty string, be it
    the [value] attribute the structured parse found or the group the
    fallback pattern captured. *)
Theorem extracted_token_nonempty (html t : str) :
  _extract_csrf_token_from_html html = Some t -> t <> [].
Proof.
  unfold _extract_csrf_token_from_html.
  destruct (negb (truthy html)); [discriminate|].
  destruct (token_from_soup html) as [v|] eqn:Esoup.
  - intros H. injection H as <-. revert Esoup. unfold token_from_soup.
    destruct HAVE_BS4; [|discriminate].
    destruct (BeautifulSoup html) as [soup|]; [|discriminate].
    destruct (find _ _ soup) as [token_input|]; [|discriminate].
    destruct (tag_get token_input _) as [w|]; [|discriminate].
    destruct w as [|c w]; simpl; [discriminate|].
    intros H. injection H as <-. discriminate.
  - apply fallback_token_nonempty.
Qed.
End TokenExtractor.

Lemma token_fallback_name_then_value_witness :
  _extract_csrf_token_from_html (RT := rt_plain)
    (U "<form><input type='hidden' " ++
     token_attributes [] [] (U " ") (U " ") [] 0x22 0x22 0x27 0x27
                      (U "abc123") (U "></form>"))
  = Some (U "abc123").
Proof.
  apply (@token_fallback_name_then_value rt_plain
           (U "<form><input type='hidden' ") [] [] (U " ") (U " ") []
           0x22%N 0x22%N 0x27%N 0x27%N (U "abc123") (U "></form>"));
    try reflexivity; try discriminate.
  apply match_before_none. vm_compute. reflexivity.
Defined.

(** C3 fails as stated: with the [value] attribute written before the
    [name] attribute the fallback finds nothing. *)
Lemma token_fallback_value_then_name :
  _extract_csrf_token_from_html (RT := rt_plain)
    (U "<form><input type='hidden' value='abc123' name='token'></form>")
  = None.
Proof. vm_compute. reflexivity. Qed.

Lemma extracted_token_nonempty_witness :
  _extract_csrf_token_from_html (RT := rt_plain)
    (U "<input name='token' value='abc123'>") = Some (U "abc123")
  /\ U "abc123" <> [].
Proof.
  split.
  - vm_compute. reflexivity.
  - apply (@extracted_token_nonempty rt_plain
             (U "<input name='token' value='abc123'>") (U "abc123")).
    vm_compute. reflexivity.
Defined.

(** ** Check-in executor *)

Section CheckinExecutor.
Context {RT : Runtime}.

(** C5: a response body that contains an already-checked-in phrase and a
    success phrase is classified [ALREADY], not [SUCCESS]: by the HTML
    case itself, and so by the whole classification of a response that
    is not typed as JSON. *)
Theorem already_tested_before_success (resp : Response) :
  Contains html_already_pattern (text resp) ->
  Contains html_success_pattern (text resp) ->
  html_case (text resp) (url resp)
    = (ALREADY, JStr (U "Already checked in today"))
  /\ (startswith (str_lower (match content_type resp with
                             | Some c => c
                             | None => []
                             end)) (U "application/json") = false ->
      determine_result resp = (ALREADY, JStr (U "Already checked in today"))).
Proof.
  intros Ha _. apply found_iff in Ha.
  assert (E : html_case (text resp) (url resp)
              = (ALREADY, JStr (U "Already checked in today")))
    by (unfold html_case; rewrite Ha; reflexivity).
  split; auto.
  intros Hct. unfold determine_result, json_case. rewrite Hct. exact E.
Qed.
End CheckinExecutor.

Lemma already_tested_before_success_witness :
  fst (determine_result (RT := rt_plain)
         (page 200 "<div class='alert'>今日已签到，签到成功！</div>" "/clientarea.php"))
  = ALREADY.
Proof.
  pose (resp := page 200 "<div class='alert'>今日已签到，签到成功！</div>"
                     "/clientarea.php").
  destruct (@already_tested_before_success rt_plain resp) as [_ H].
  - exists (U "<div class='alert'>今日"), (U "已签到"), (U "，签到成功！</div>"), None.
    split; [vm_compute; reflexivity|].
    apply MAltR, MAltL. apply matches_lit.
  - apply found_iff. vm_compute. reflexivity.
  - fold resp. rewrite H; [reflexivity|]. vm_compute. reflexivity.
Defined.


(** ** Resilient HTTP transport *)

Section Transport.
Context {RT : Runtime}.

(** One turn of the retry loop. *)
Lemma http_request_loop_step (rq : Request) (retries attempt todo : nat)
      (last_exc : option exn) (h : list exchange) :
  http_request_loop rq retries attempt (S todo) last_exc h =
  let rp := session_request h rq in
  match attempt_outcome rp with
  | Ok r => (Ok r, [(rq, rp)])
  | Raise e =>
      if attempt <? retries - 1 then
        let (res, more) :=
          http_request_loop rq retries (S attempt) todo (Some e) (h ++ [(rq, rp)]) in
        (res, (rq, rp) :: more)
      else (Raise e, [(rq, rp)])
  end.
Proof.
  cbn [http_request_loop]. unfold bind, try_, request, raise, ret.
  destruct (session_request h rq) as [r|e]; cbn [attempt_outcome].
  - destruct (status_code r >=? 500)%Z; cbv beta iota; cbn [app].
    + destruct (attempt <? retries - 1); reflexivity.
    + reflexivity.
  - cbv beta iota. destruct (attempt <? retries - 1); reflexivity.
Qed.

Lemma attempt_outcome_answer (r : Response) :
  (status_code r < 500)%Z -> attempt_outcome (Answer r) = Ok r.
Proof.
  intros H. cbn [attempt_outcome].
  destruct (Z.geb_spec (status_code r) 500); [lia|reflexivity].
Qed.

(** C6: with the default of three attempts, an answer with a status below
    500 (a 4xx included) is returned as it is on the attempt that receives
    it, with no further request; an attempt fails on an exception of the
    transport or on a status of 500 or more; after two failed attempts the
    third answer is returned; after three failed attempts the exception of
    the third is raised, and no fourth request is made. *)
Theorem http_request_three_attempts (rq : Request) (h : list exchange) :
  let rp1 := session_request h rq in
  let rp2 := session_request (h ++ [(rq, rp1)]) rq in
  let rp3 := session_request (h ++ [(rq, rp1); (rq, rp2)]) rq in
  (forall r, rp1 = Answer r -> (status_code r < 500)%Z ->
     http_request retries_default rq h = (Ok r, [(rq, rp1)]))
  /\ (forall e1 r, attempt_outcome rp1 = Raise e1 ->
        rp2 = Answer r -> (status_code r < 500)%Z ->
        http_request retries_default rq h = (Ok r, [(rq, rp1); (rq, rp2)]))
  /\ (forall e1 e2 r, attempt_outcome rp1 = Raise e1 ->
        attempt_outcome rp2 = Raise e2 ->
        rp3 = Answer r -> (status_code r < 500)%Z ->
        http_request retries_default rq h
        = (Ok r, [(rq, rp1); (rq, rp2); (rq, rp3)]))
  /\ (forall e1 e2 e3, attempt_outcome rp1 = Raise e1 ->
        attempt_outcome rp2 = Raise e2 -> attempt_outcome rp3 = Raise e3 ->
        http_request retries_default rq h
        = (Raise e3, [(rq, rp1); (rq, rp2); (rq, rp3)])).
Proof.
  intros rp1 rp2 rp3. subst rp1 rp2 rp3. unfold http_request, retries_default.
  rewrite http_request_loop_step. cbv zeta.
  repeat split.
  - intros r E Hr. rewrite E, (attempt_outcome_answer Hr). reflexivity.
  - intros e1 r F1 E Hr. rewrite F1. cbn [Nat.ltb Nat.leb Nat.sub].
    rewrite http_request_loop_step. cbv zeta.
    rewrite E, (attempt_outcome_answer Hr). reflexivity.
  - intros e1 e2 r F1 F2 E Hr. rewrite F1. cbn [Nat.ltb Nat.leb Nat.sub].
    rewrite http_request_loop_step. cbv zeta.
    rewrite F2. cbn [Nat.ltb Nat.leb Nat.sub].
    rewrite http_request_loop_step, <- app_assoc. cbn [app]. cbv zeta.
    rewrite E, (attempt_outcome_answer Hr). reflexivity.
  - intros e1 e2 e3 F1 F2 F3. rewrite F1. cbn [Nat.ltb Nat.leb Nat.sub].
    rewrite http_request_loop_step. cbv zeta.
    rewrite F2. cbn [Nat.ltb Nat.leb Nat.sub].
    rewrite http_request_loop_step, <- app_assoc. cbn [app]. cbv zeta.
    rewrite F3. reflexivity.
Qed.
End Transport.

Lemma http_request_three_attempts_witness :
  fst (http_request (RT := rt_failing_first 2) retries_default get_index [])
  = Ok (page 200 "<html>ok</html>" "/index.php")
  /\ length (snd (http_request (RT := rt_failing_first 2)
                    retries_default get_index [])) = 3
  /\ fst (http_request (RT := rt_failing_first 3) retries_default get_index [])
     = Raise (Exn RequestException (U "Server error: 500"))
  /\ length (snd (http_request (RT := rt_failing_first 3)
                    retries_default get_index [])) = 3.
Proof.
  destruct (@http_request_three_attempts (rt_failing_first 2) get_index [])
    as (_ & _ & Hretry & _).
  destruct (@http_request_three_attempts (rt_failing_first 3) get_index [])
    as (_ & _ & _ & Hfail).
  rewrite (Hretry (Exn RequestException (U "Server error: 500"))
                  (Exn RequestException (U "Server error: 500"))
                  (page 200 "<html>ok</html>" "/index.php"))
    by (vm_compute; reflexivity).
  rewrite (Hfail (Exn RequestException (U "Server error: 500"))
                 (Exn RequestException (U "Server error: 500"))
                 (Exn RequestException (U "Server error: 500")))
    by (vm_compute; reflexivity).
  repeat split.
Defined.

(** ** Authentication flow *)

Section Sequencing.
Variables E A B : Type.

Lemma bind_ok (m : Eff E A) (f : A -> Eff E B) (h : list E) a e1 :
  m h = (Ok a, e1) ->
  bind m f h = (let (r, e2) := f a (h ++ e1) in (r, e1 ++ e2)).
Proof. unfold bind. intros ->. reflexivity. Qed.

Lemma bind_raise (m : Eff E A) (f : A -> Eff E B) (h : list E) e e1 :
  m h = (Raise e, e1) -> bind m f h = (Raise e, e1).
Proof. unfold bind. intros ->. reflexivity. Qed.

Lemma bind_ret (a : A) (f : A -> Eff E B) (h : list E) :
  bind (ret a) f h = f a h.
Proof.
  unfold bind, ret. rewrite app_nil_r. destruct (f a h). reflexivity.
Qed.
End Sequencing.

Lemma ret_run E A (a : A) (h : list E) : ret a h = (Ok a, []).
Proof. reflexivity. Qed.

Lemma bind_lift_res E A B (r : Res A) (f : A -> Eff E B) (h : list E) :
  bind (lift_res r) f h =
  match r with
  | Ok a => f a h
  | Raise e => (Raise e, [])
  end.
Proof.
  unfold bind, lift_res. destruct r as [a|e]; [|reflexivity].
  rewrite app_nil_r. destruct (f a h). reflexivity.
Qed.

Section Login.
Context {RT : Runtime}.
Variables (session : nat) (base_url email password : str).
Variable h : list exchange.

Let headers := browser_headers base_url.
Let login_url := urljoin base_url (U "/index.php?rp=/login").
Let ca_url := urljoin base_url (U "/clientarea.php").
Let trips (r : Response) := is_2fa_or_human_challenge (text r) (url r).
Let post (r1 : Response) :=
  http_post session (post_target base_url login_url (text r1))
            (form_headers headers)
            (login_payload email password (_extract_csrf_token_from_html (text r1))).

(** C4, as the code has it.  The challenge detector is run on each of the
    three responses, before any other test of that response: login page,
    answer to the POST, client area.  A failure phrase in the answer to the
    POST gives [FAILED] only when that answer does not trip the detector,
    and a logged-in indicator in the client area gives [SUCCESS] only when
    the client area does not trip it; with neither, the outcome is
    [FAILED] with the detail [Unable to confirm login]. *)
Theorem login_classification (r1 : Response) (x1 : list exchange) :
  http_get session login_url headers None h = (Ok r1, x1) ->
  (trips r1 = true ->
   login_whmcs session base_url email password h
   = (Ok (TWO_FA, U "2FA or human verification detected on login page"), x1))
  /\ forall (r2 : Response) (x2 : list exchange),
      trips r1 = false ->
      post r1 (h ++ x1) = (Ok r2, x2) ->
      (trips r2 = true ->
       login_whmcs session base_url email password h
       = (Ok (TWO_FA, U "2FA or human verification challenge detected after login"),
          x1 ++ x2))
      /\ (trips r2 = false ->
          (exists p, In p failure_patterns /\ Contains p (text r2)) ->
          login_whmcs session base_url email password h
          = (Ok (FAILED, U "Invalid credentials or login failed"), x1 ++ x2))
      /\ forall (r3 : Response) (x3 : list exchange),
          trips r2 = false ->
          ~ (exists p, In p failure_patterns /\ Contains p (text r2)) ->
          http_get session ca_url headers None (h ++ x1 ++ x2) = (Ok r3, x3) ->
          (trips r3 = true ->
           login_whmcs session base_url email password h
           = (Ok (TWO_FA, U "2FA or human verification detected in client area"),
              x1 ++ x2 ++ x3))
          /\ (trips r3 = false ->
              (exists p, In p logged_in_indicators /\ Contains p (text r3)) ->
              login_whmcs session base_url email password h
              = (Ok (SUCCESS, U "Logged in"), x1 ++ x2 ++ x3))
          /\ (trips r3 = false ->
              ~ (exists p, In p logged_in_indicators /\ Contains p (text r3)) ->
              login_whmcs session base_url email password h
              = (Ok (FAILED, U "Unable to confirm login"), x1 ++ x2 ++ x3)).
Proof.
  intros G1. unfold login_whmcs. fold headers login_url ca_url.
  rewrite (bind_ok _ G1). fold (trips r1). split.
  - intros ->. rewrite ret_run, app_nil_r. reflexivity.
  - intros r2 x2 T1 P2. rewrite T1. fold (post r1).
    rewrite (bind_ok _ P2). fold (trips r2). split; [|split].
    + intros ->. rewrite ret_run, app_nil_r. reflexivity.
    + intros -> F. apply any_found_iff in F. rewrite F.
      rewrite ret_run, app_nil_r. reflexivity.
    + intros r3 x3 T2 NF G3. rewrite T2.
      destruct (existsb _ failure_patterns) eqn:F;
        [exfalso; apply NF, any_found_iff, F|].
      rewrite <- app_assoc, (bind_ok _ G3). fold (trips r3).
      split; [|split].
      * intros ->. rewrite ret_run, app_nil_r. reflexivity.
      * intros -> I. apply any_found_iff in I. rewrite I.
        rewrite ret_run, app_nil_r. reflexivity.
      * intros -> NI.
        destruct (existsb _ logged_in_indicators) eqn:I;
          [exfalso; apply NI, any_found_iff, I|].
        rewrite ret_run, app_nil_r. reflexivity.
Qed.
End Login.

Lemma login_classification_witness :
  fst (login_whmcs (RT := rt_good_login) 0 sample_base
                   (U "user@example.com") (U "secret") [])
  = Ok (SUCCESS, U "Logged in").
Proof.
  pose (RT := rt_good_login).
  pose (x1 := snd (http_get 0 (urljoin sample_base (U "/index.php?rp=/login"))
                            (browser_headers sample_base) None [])).
  pose (x2 := snd (http_post 0
                     (post_target sample_base
                        (urljoin sample_base (U "/index.php?rp=/login"))
                        (text login_page))
                     (form_headers (browser_headers sample_base))
                     (login_payload (U "user@example.com") (U "secret")
                        (_extract_csrf_token_from_html (text login_page)))
                     ([] ++ x1))).
  pose (x3 := snd (http_get 0 (urljoin sample_base (U "/clientarea.php"))
                            (browser_headers sample_base) None ([] ++ x1 ++ x2))).
  destruct (@login_classification rt_good_login 0 sample_base
              (U "user@example.com") (U "secret") [] login_page x1) as [_ H].
  { vm_compute. reflexivity. }
  destruct (H client_area x2) as (_ & _ & H3).
  { vm_compute. reflexivity. }
  { vm_compute. reflexivity. }
  destruct (H3 client_area x3) as (_ & Hsuccess & _).
  { vm_compute. reflexivity. }
  { intros F. apply any_found_iff in F. vm_compute in F. discriminate. }
  { vm_compute. reflexivity. }
  rewrite Hsuccess.
  - reflexivity.
  - vm_compute. reflexivity.
  - apply any_found_iff. vm_compute. reflexivity.
Defined.

(** C4 fails as stated: the login page does not trip the detector and the
    answer to the POST carries a login-failure phrase, yet the outcome is
    [TWO_FA], because that answer also trips the detector. *)
Lemma login_failure_phrase_behind_challenge :
  is_2fa_or_human_challenge (text login_page) (url login_page) = false
  /\ existsb (fun p => found p (text wrong_password_with_captcha))
             failure_patterns = true
  /\ map snd (snd (login_whmcs (RT := rt_wrong_password_with_captcha) 0
                     sample_base (U "user@example.com") (U "secret") []))
     = [Answer login_page; Answer wrong_password_with_captcha]
  /\ fst (login_whmcs (RT := rt_wrong_password_with_captcha) 0 sample_base
                      (U "user@example.com") (U "secret") [])
     = Ok (TWO_FA, U "2FA or human verification challenge detected after login").
Proof. repeat split; vm_compute; reflexivity. Qed.

Section LoginForm.
Context {RT : Runtime}.

Lemma pick_login_form_first (before : list node) (f : node) (after : list node) :
  forallb (fun g => negb (is_login_form g)) before = true ->
  is_login_form f = true ->
  pick_login_form (before ++ f :: after) = Some f.
Proof.
  intros Hb Hf. induction before as [|g before IH]; simpl.
  - rewrite Hf. reflexivity.
  - simpl in Hb. apply andb_prop in Hb as [Hg Hb].
    apply negb_true_iff in Hg. rewrite Hg. auto.
Qed.

Lemma pick_login_form_none (forms : list node) :
  forallb (fun g => negb (is_login_form g)) forms = true ->
  pick_login_form forms = None.
Proof.
  induction forms as [|g forms IH]; simpl; auto.
  intros Hb. apply andb_prop in Hb as [Hg Hb].
  apply negb_true_iff in Hg. rewrite Hg. auto.
Qed.

Lemma http_request_first_exchange (rq : Request) (h : list exchange) :
  exists res more,
    http_request retries_default rq h = (res, (rq, session_request h rq) :: more).
Proof.
  unfold http_request, retries_default. rewrite http_request_loop_step. cbv zeta.
  destruct (attempt_outcome (session_request h rq)).
  - eauto.
  - cbn [Nat.ltb Nat.leb Nat.sub].
    destruct (http_request_loop rq 3 1 2 (Some e) _) as [res more]. eauto.
Qed.

(** C8, as the code has it.  The form that decides is the first one, in
    document order, that passes the test of the loop: a non-empty action
    containing [/login], letter case aside, or a [username] input together
    with a [password] input.  The POST goes to the resolved action of that
    form when it has a non-empty action that [urljoin] resolves, and to
    the login URL otherwise: when the form has no action or an empty one,
    and when [urljoin] raises on the action.  The login URL is also the
    target when no form passes the test, when the parser is unavailable
    and when it raises. *)
Theorem post_goes_to_first_qualifying_form (base_url page : str) :
  let login_url := urljoin base_url (U "/index.php?rp=/login") in
  let target := post_target base_url login_url page in
  (forall f, is_login_form f = true <->
      (exists a, tag_get f (U "action") = Some a /\ a <> [] /\
                 Contains login_action_pattern a)
      \/ (find (U "input") [(U "name", U "username")] f <> None /\
          find (U "input") [(U "name", U "password")] f <> None))
  /\ (HAVE_BS4 = false \/ BeautifulSoup page = None -> target = login_url)
  /\ (forall soup, HAVE_BS4 = true -> BeautifulSoup page = Some soup ->
        (forall before f after,
            find_all (U "form") soup = before ++ f :: after ->
            forallb (fun g => negb (is_login_form g)) before = true ->
            is_login_form f = true ->
            target = match tag_get f (U "action") with
                     | Some a =>
                         if truthy a then
                           match urljoin_error base_url a with
                           | None => urljoin base_url a
                           | Some _ => login_url
                           end
                         else login_url
                     | None => login_url
                     end)
        /\ (forallb (fun g => negb (is_login_form g)) (find_all (U "form") soup) = true ->
            target = login_url))
  /\ (forall session email password h r1 x1,
        page = text r1 ->
        http_get session login_url (browser_headers base_url) None h = (Ok r1, x1) ->
        is_2fa_or_human_challenge (text r1) (url r1) = false ->
        exists res rp more,
          login_whmcs session base_url email password h
          = (res, x1 ++ (mkRequest session (U "POST") target 30
                                   (form_headers (browser_headers base_url))
                                   (Some (login_payload email password
                                            (_extract_csrf_token_from_html page)))
                                   (Some true), rp) :: more)).
Proof.
  intros login_url target. split; [|split; [|split]].
  - intros f. unfold is_login_form. rewrite orb_true_iff, andb_true_iff. split.
    + intros [H|[H1 H2]].
      * left. destruct (tag_get f (U "action")) as [a|]; [|discriminate].
        apply andb_prop in H as [Ha Hl]. exists a. repeat split.
        -- destruct a; [discriminate|discriminate].
        -- apply found_iff. exact Hl.
      * right. split.
        -- destruct (find _ _ f); [discriminate|discriminate].
        -- destruct (find (U "input") [(U "name", U "password")] f);
             [discriminate|discriminate].
    + intros [(a & Ha & Hne & Hc)|[H1 H2]].
      * left. rewrite Ha. apply found_iff in Hc. rewrite Hc.
        destruct a; [congruence|reflexivity].
      * right. split.
        -- destruct (find _ _ f); [reflexivity|congruence].
        -- destruct (find (U "input") [(U "name", U "password")] f);
             [reflexivity|congruence].
  - unfold target, post_target. intros [->| ->]; [reflexivity|].
    destruct HAVE_BS4; reflexivity.
  - intros soup Hbs Hsoup. unfold target, post_target. rewrite Hbs, Hsoup. split.
    + intros before f after -> Hb Hf.
      rewrite (pick_login_form_first after Hb Hf). reflexivity.
    + intros Hnone. rewrite (pick_login_form_none Hnone). reflexivity.
  - intros session email password h r1 x1 -> G1 T1.
    unfold login_whmcs. fold login_url.
    rewrite (bind_ok _ G1), T1. fold target.
    set (rq := mkRequest session (U "POST") target 30
                 (form_headers (browser_headers base_url))
                 (Some (login_payload email password
                          (_extract_csrf_token_from_html (text r1)))) (Some true)).
    destruct (http_request_first_exchange rq (h ++ x1)) as (res & more & Hp).
    unfold http_post. fold rq.
    destruct res as [r2|e].
    + rewrite (bind_ok _ Hp).
      match goal with
      | |- context [let (r', e2) := ?c ?hh in _] =>
          destruct (c hh) as [res' more']
      end.
      exists res', (session_request (h ++ x1) rq), (more ++ more').
      reflexivity.
    + rewrite (bind_raise _ Hp).
      exists (Raise e), (session_request (h ++ x1) rq), more. reflexivity.
Qed.
End LoginForm.

Lemma post_goes_to_first_qualifying_form_witness :
  post_target (RT := rt_two_forms) sample_base
              (@urljoin rt_two_forms sample_base (U "/index.php?rp=/login"))
              (text login_page)
  = U "https://panel.freecloud.ltd/auth.php".
Proof.
  assert (H1 : find_all (U "form") two_forms_soup
               = [] ++ credentials_form :: [login_route_form])
    by (vm_compute; reflexivity).
  assert (H2 : forallb (fun g => negb (is_login_form g)) [] = true)
    by reflexivity.
  assert (H3 : is_login_form credentials_form = true)
    by (vm_compute; reflexivity).
  pose proof (@post_goes_to_first_qualifying_form rt_two_forms sample_base
                (text login_page)) as T.
  cbv zeta in T. destruct T as (_ & _ & T & _).
  destruct (T two_forms_soup eq_refl eq_refl) as [Hfirst _].
  rewrite (Hfirst _ _ _ H1 H2 H3).
  vm_compute. reflexivity.
Defined.

(** C8 fails as stated: a form with a user name and a password field that
    comes first in the document is taken, although a later form has the
    login route as its action; the POST goes to the first form's action. *)
Lemma credentials_form_before_login_form :
  find_all (U "form") two_forms_soup = [credentials_form; login_route_form]
  /\ found login_action_pattern (U "/auth.php") = false
  /\ found login_action_pattern (U "/index.php?rp=/login") = true
  /\ map (fun x => (rq_method (fst x), rq_url (fst x)))
         (snd (login_whmcs (RT := rt_two_forms) 0 sample_base
                           (U "user@example.com") (U "secret") []))
     = [ (U "GET", sample_base ++ U "/index.php?rp=/login");
         (U "POST", sample_base ++ U "/auth.php");
         (U "GET", sample_base ++ U "/clientarea.php") ].
Proof. repeat split; vm_compute; reflexivity. Qed.

(** ** Run orchestrator *)

Lemma exchanges_of_app (a b : list event) :
  exchanges_of (a ++ b) = exchanges_of a ++ exchanges_of b.
Proof. unfold exchanges_of. apply flat_map_app. Qed.

Lemma exchanges_of_sent (xs : list exchange) : exchanges_of (map Sent xs) = xs.
Proof.
  induction xs as [|x xs IH]; [reflexivity|].
  cbn [map]. change (exchanges_of (Sent x :: map Sent xs))
    with (x :: exchanges_of (map Sent xs)).
  rewrite IH. reflexivity.
Qed.

Lemma exchanges_of_enter (p : proc) (i : nat) (l : list event) :
  exchanges_of (Enter p i :: l) = exchanges_of l.
Proof. reflexivity. Qed.

Lemma exchanges_of_leave (p : proc) (i : nat) s (l : list event) :
  exchanges_of (Leave p i s :: l) = exchanges_of l.
Proof. reflexivity. Qed.

Ltac exchanges_norm :=
  repeat first [ rewrite exchanges_of_enter | rewrite exchanges_of_leave
               | rewrite exchanges_of_app | rewrite exchanges_of_sent ];
  cbn [exchanges_of flat_map app]; rewrite ?app_nil_r.

Section Orchestrator.
Context {RT : Runtime}.

Lemma call_run A (p : proc) (idx : nat) (m : Net (status * A)) (h : list event) :
  call p idx m h =
  let (r, xs) := m (exchanges_of h) in
  (Ok r, Enter p idx :: map Sent xs ++ [Leave p idx (left_with r)]).
Proof.
  unfold call, bind, emit, try_, lift, ret, left_with.
  rewrite exchanges_of_app. cbn [exchanges_of flat_map app]. rewrite app_nil_r.
  destruct (m (exchanges_of h)) as [r xs].
  cbn [app]. reflexivity.
Qed.

Lemma log_then A (msg : str) (a : A) (h : list event) :
  (log msg ;;; ret a) h = (after_log msg a, []).
Proof. unfold bind, log, ret, after_log. destruct (print_error msg); reflexivity. Qed.

Lemma log_bind A (msg : str) (k : M A) (h : list event) :
  (log msg ;;; k) h =
  match print_error msg with
  | Some e => (Raise e, [])
  | None => k h
  end.
Proof.
  unfold bind, log. destruct (print_error msg); [reflexivity|].
  rewrite app_nil_r. destruct (k h). reflexivity.
Qed.

(** Every way a turn of the loop can go: what it reads, what it logs,
    the calls it makes with the exchanges made before them, the events it
    adds and what it returns. *)
Lemma process_account_cases (idx : nat) (a : Account) (h : list event) r evs :
  process_account idx a h = (r, evs) ->
  match read_account a with
  | Raise e => r = Raise e /\ evs = []
  | Ok (label, email, password, base_url) =>
      if negb (truthy email) || negb (truthy password) then
        evs = []
        /\ r = after_log (tagged label (U "Missing email/password, skipping."))
                         (FAILED, label, JStr (U "Missing credentials"))
      else
        match print_error
                (tagged label (U "Logging in at " ++ base_url ++ U " ...")) with
        | Some e => r = Raise e /\ evs = []
        | None =>
            exists r1 xs,
              login_whmcs idx base_url email password (exchanges_of h) = (r1, xs)
              /\ match r1 with
                 | Ok (SUCCESS, _) =>
                     exists r2 ys,
                       perform_checkin idx base_url (exchanges_of h ++ xs)
                       = (r2, ys)
                       /\ evs = Enter Login idx :: map Sent xs
                                  ++ Leave Login idx (Some SUCCESS)
                                  :: Enter Checkin idx :: map Sent ys
                                  ++ [Leave Checkin idx (left_with r2)]
                       /\ r = after_log (checkin_log label r2)
                                        (checkin_entry label r2)
                 | _ =>
                     evs = Enter Login idx :: map Sent xs
                             ++ [Leave Login idx (left_with r1)]
                     /\ r = after_log (login_failure_message label r1)
                                      (login_failure_entry label r1)
                 end
        end
  end.
Proof.
  unfold process_account. unfold bind at 1. unfold lift_res.
  destruct (read_account a) as [[[[label email] password] base_url]|e];
    [|intros H; injection H as <- <-; auto].
  rewrite app_nil_r. cbn [app].
  destruct (negb (truthy email) || negb (truthy password)).
  { rewrite log_then. intros H. injection H as <- <-. auto. }
  rewrite log_bind.
  destruct (print_error (tagged label (U "Logging in at " ++ base_url ++ U " ...")))
    as [e|]; [intros H; injection H as <- <-; auto|].
  unfold bind at 1. rewrite call_run.
  destruct (login_whmcs idx base_url email password (exchanges_of h))
    as [r1 xs] eqn:L.
  intros H. exists r1, xs. split; [reflexivity|].
  destruct r1 as [[st detail]|e].
  - destruct st; cbn [status_eqb negb] in H; cbv iota in H;
      try (rewrite log_then in H; rewrite app_nil_r in H;
           injection H as <- <-; split; reflexivity).
    unfold bind at 1 in H. rewrite call_run in H.
    replace (exchanges_of
               (h ++ Enter Login idx :: map Sent xs
                  ++ [Leave Login idx (left_with (Ok (SUCCESS, detail)))]))
      with (exchanges_of h ++ xs) in H by (exchanges_norm; reflexivity).
    destruct (perform_checkin idx base_url (exchanges_of h ++ xs))
      as [r2 ys] eqn:C.
    exists r2, ys. split; [reflexivity|].
    destruct r2 as [[st2 d2]|e2]; rewrite log_then in H; rewrite app_nil_r in H;
      injection H as <- <-; (split; [|reflexivity]);
      cbn [app left_with]; rewrite <- app_assoc; reflexivity.
  - rewrite log_then in H. rewrite app_nil_r in H.
    injection H as <- <-. split; reflexivity.
Qed.








(** The loop goes on after a turn that returned an entry. *)
Lemma run_accounts_step (idx : nat) (a : Account) (rest : list Account)
      (res : list outcome) (h : list event) o evs1 :
  process_account idx a h = (Ok o, evs1) ->
  run_accounts idx (a :: rest) res h
  = (let (r, evs) := run_accounts (S idx) rest (res ++ [o]) (h ++ evs1) in
     (r, evs1 ++ evs)).
Proof. intros H. cbn [run_accounts]. rewrite (bind_ok _ H). reflexivity. Qed.


Lemma process_account_ok (idx : nat) (a : Account) (h : list event) :
  print_returns -> account_ok a = true ->
  exists o evs, process_account idx a h = (Ok o, evs).
Proof.
  unfold account_ok. intros Hq Hl.
  destruct (process_account idx a h) as [r evs] eqn:H.
  apply process_account_cases in H.
  destruct (read_account a) as [[[[label email] password] base_url]|e];
    [|discriminate].
  unfold after_log in H.
  destruct (negb (truthy email) || negb (truthy password)).
  { destruct H as [-> ->]. rewrite Hq. eauto. }
  rewrite Hq in H. destruct H as (r1 & xs & _ & H).
  destruct r1 as [[st detail]|e].
  - destruct st; try (destruct H as [-> ->]; rewrite Hq; eauto).
    destruct H as (r2 & ys & _ & -> & ->). rewrite Hq. eauto.
  - destruct H as [-> ->]. rewrite Hq. eauto.
Qed.

(** The loop comes to its end when the fields of every account can be
    read and every message can be printed. *)
Lemma run_accounts_total (accounts : list Account) :
  forall (i : nat) (res : list outcome) (h : list event),
    print_returns -> forallb account_ok accounts = true ->
    exists results evs, run_accounts i accounts res h = (Ok results, evs).
Proof.
  induction accounts as [|a rest IH]; intros i res h Hq Hl.
  - cbn. unfold ret. eauto.
  - cbn [forallb] in Hl. apply andb_prop in Hl as [Ha Hrest].
    destruct (process_account_ok i h Hq Ha) as (o & e1 & Hbody).
    destruct (IH (S i) (res ++ [o]) (h ++ e1) Hq Hrest) as (results & e2 & Hr).
    rewrite (run_accounts_step _ _ Hbody), Hr. eauto.
Qed.

(** A loop that comes to its end has added one entry per account. *)
Lemma run_accounts_length (accounts : list Account) :
  forall (i : nat) (res : list outcome) (h : list event) results evs,
    run_accounts i accounts res h = (Ok results, evs) ->
    length results = length res + length accounts.
Proof.
  induction accounts as [|a rest IH]; intros i res h results evs H.
  - cbn in H. injection H as <- <-. cbn. lia.
  - cbn [run_accounts] in H. unfold bind in H.
    destruct (process_account i a h) as [[o|e] e1]; [|discriminate].
    destruct (run_accounts (S i) rest (res ++ [o]) (h ++ e1)) as [r2 e2] eqn:Hrest.
    injection H as -> <-. apply IH in Hrest. rewrite Hrest, length_app.
    cbn [length]. lia.
Qed.

Lemma status_eqb_eq (a b : status) : status_eqb a b = true <-> a = b.
Proof. destruct a, b; cbn; split; congruence. Qed.

Lemma count_status_le (s : status) (results : list outcome) :
  count_status s results <= length results.
Proof. unfold count_status. apply filter_length_le. Qed.

Lemma count_status_all (s : status) (results : list outcome) :
  count_status s results = length results <->
  Forall (fun o => outcome_status o = s) results.
Proof.
  induction results as [|o results IH].
  - cbn. split; auto.
  - unfold count_status in *. cbn [filter length].
    destruct (status_eqb (outcome_status o) s) eqn:E.
    + apply status_eqb_eq in E. cbn [length]. split.
      * intros H. constructor; auto. apply IH. lia.
      * intros H. inversion H; subst. f_equal. apply IH. auto.
    + split.
      * intros H. pose proof (count_status_le s results) as Hle.
        unfold count_status in Hle. lia.
      * intros H. apply Forall_inv in H.
        apply status_eqb_eq in H. congruence.
Qed.

(** The exit code policy, read off the recorded outcomes. *)
Lemma exit_code_cases (results : list outcome) :
  (exit_code results = 1%Z /\ results <> []
   /\ Forall (fun o => outcome_status o = FAILED) results)
  \/ (exit_code results = 0%Z
      /\ (results = [] \/ Exists (fun o => outcome_status o <> FAILED) results)).
Proof.
  unfold exit_code.
  destruct (Nat.eqb_spec (count_status FAILED results) (length results)) as [E|E].
  - destruct results as [|o results].
    + right. cbn. auto.
    + left. cbn [length Nat.ltb Nat.leb andb]. repeat split.
      * discriminate.
      * apply count_status_all. exact E.
  - right. cbn [andb]. split; auto. right.
    apply neg_Forall_Exists_neg.
    + intros o. destruct (outcome_status o); (left; reflexivity) || (right; discriminate).
    + intros H. apply E, count_status_all, H.
Qed.

Lemma main_runs_loop (h : list event) (accounts : list Account) results evs :
  or_empty (getenv (U "ACCOUNTS")) <> [] ->
  json_loads (or_empty (getenv (U "ACCOUNTS"))) = AccountList accounts ->
  run_accounts 0 accounts [] h = (Ok results, evs) ->
  print_error (summary results) = None ->
  exists tg, main h = (Ok (exit_code results), evs ++ tg)
             /\ forall e, In e tg -> call_index e = None.
Proof.
  intros Hraw Hloads Hrun Hp. unfold main.
  destruct (or_empty (getenv (U "ACCOUNTS"))) as [|c raw]; [congruence|].
  cbn [truthy negb]. rewrite Hloads, (bind_ok _ Hrun), log_bind, Hp.
  destruct (truthy _ && truthy _).
  - eexists. split; [reflexivity|]. intros e [<-|[]]. reflexivity.
  - exists []. split; [reflexivity|]. intros e [].
Qed.

(** C7, as the code has it, for a standard output on which every message
    can be printed.  With [ACCOUNTS] unset or empty the exit code is 0,
    and with [ACCOUNTS] not decoding to a JSON array it is 1; in both cases
    no account is processed.  With an array of accounts whose fields can
    all be read, the loop records one outcome per account and the exit
    code is 1 when there is at least one account and every recorded
    outcome is [FAILED], and 0 in every other case. *)
Theorem exit_code_policy (h : list event) :
  let raw := or_empty (getenv (U "ACCOUNTS")) in
  print_returns ->
  (raw = [] -> main h = (Ok 0%Z, []))
  /\ (raw <> [] -> (forall accounts, json_loads raw <> AccountList accounts) ->
      main h = (Ok 1%Z, []))
  /\ (forall accounts,
        raw <> [] -> json_loads raw = AccountList accounts ->
        forallb account_ok accounts = true ->
        exists results evs,
          run_accounts 0 accounts [] h = (Ok results, evs)
          /\ length results = length accounts
          /\ fst (main h) = Ok (exit_code results)
          /\ ((exit_code results = 1%Z /\ results <> []
               /\ Forall (fun o => outcome_status o = FAILED) results)
              \/ (exit_code results = 0%Z
                  /\ (results = []
                      \/ Exists (fun o => outcome_status o <> FAILED) results)))).
Proof.
  intros raw Hq. split; [|split].
  - intros E. unfold main. fold raw. rewrite E. cbn [truthy negb].
    rewrite log_then. unfold after_log. rewrite Hq. reflexivity.
  - intros Hne Hbad. unfold main. fold raw.
    destruct raw as [|c raw']; [congruence|]. cbn [truthy negb].
    destruct (json_loads (c :: raw')) as [e| |accounts] eqn:E;
      try (rewrite log_then; unfold after_log; rewrite Hq; reflexivity).
    exfalso. apply (Hbad accounts). reflexivity.
  - intros accounts Hne Hloads Hok.
    destruct (run_accounts_total 0 [] h Hq Hok) as (results & evs & Hrun).
    exists results, evs. split; [exact Hrun|]. split; [|split].
    + apply run_accounts_length in Hrun. exact Hrun.
    + destruct (main_runs_loop Hne Hloads Hrun (Hq _)) as (tg & -> & _).
      reflexivity.
    + apply exit_code_cases.
Qed.

(** Where the fields of the account can be read and the message about it
    can be printed, an account without an e-mail address or without a
    password is recorded as [FAILED] with the detail [Missing credentials],
    and no event is added: no request, no call. *)
Lemma missing_credentials_recorded (idx : nat) (a : Account) (h : list event)
      label email password base_url :
  read_account a = Ok (label, email, password, base_url) ->
  negb (truthy email) || negb (truthy password) = true ->
  print_error (tagged label (U "Missing email/password, skipping.")) = None ->
  process_account idx a h
  = (Ok (FAILED, label, JStr (U "Missing credentials")), []).
Proof.
  intros Hr Hc Hp.
  destruct (process_account idx a h) as [r evs] eqn:H.
  apply process_account_cases in H. rewrite Hr, Hc in H.
  destruct H as [-> ->]. unfold after_log. rewrite Hp. reflexivity.
Qed.

(** What [read_account] returns for [email] and [password] is what the
    test of the credentials reads. *)
Lemma read_account_credentials (a : Account) label email password base_url :
  read_account a = Ok (label, email, password, base_url) ->
  safe_label a = Ok label
  /\ account_text a (U "email") [] = Ok email
  /\ account_text a (U "password") [] = Ok password
  /\ lacks_credentials a = negb (truthy email) || negb (truthy password).
Proof.
  unfold read_account, lacks_credentials, res_bind.
  destruct (safe_label a) as [l|]; [|discriminate].
  destruct (account_text a (U "email") []) as [e|]; [|discriminate].
  destruct (account_text a (U "password") []) as [p|]; [|discriminate].
  destruct (account_text a (U "base_url") DEFAULT_BASE_URL) as [b|];
    [|discriminate].
  destruct (account_text a (U "tg_chat_id") tg_default_chat) as [c|];
    [|discriminate].
  intros H. injection H as <- <- <- _. auto.
Qed.

(** A non-empty run in which every account is such an account records
    only [FAILED] outcomes, so that its exit code is 1. *)
Lemma all_missing_credentials (accounts : list Account) :
  forall (i : nat) (res : list outcome) (h : list event),
    print_returns ->
    forallb account_ok accounts = true ->
    forallb lacks_credentials accounts = true ->
    exists outs,
      run_accounts i accounts res h = (Ok (res ++ outs), [])
      /\ length outs = length accounts
      /\ Forall (fun o => outcome_status o = FAILED) outs.
Proof.
  induction accounts as [|a rest IH]; intros i res h Hq Hl Hc.
  - exists []. rewrite app_nil_r. repeat split; auto.
  - cbn [forallb] in Hl, Hc.
    apply andb_prop in Hl as [Hla Hl]. apply andb_prop in Hc as [Hca Hc].
    unfold account_ok in Hla.
    destruct (read_account a) as [[[[label email] password] base_url]|] eqn:E;
      [|discriminate].
    pose proof (read_account_credentials E) as (_ & _ & _ & Elack).
    rewrite Hca in Elack. symmetry in Elack.
    rewrite (run_accounts_step _ _
               (missing_credentials_recorded i h E Elack (Hq _))).
    destruct (IH (S i) (res ++ [(FAILED, label, JStr (U "Missing credentials"))])
                 (h ++ []) Hq Hl Hc) as (outs & -> & Hlen & Hall).
    exists ((FAILED, label, JStr (U "Missing credentials")) :: outs).
    rewrite <- app_assoc. cbn [app length]. repeat split; auto.
Qed.

End Orchestrator.

(** C10 at an account with a blank password, no label and an address that
    starts with the at sign: [safe_label] calls [mask_email], which raises
    [IndexError] at [local[0]]; the loop body is left before the test of
    the credentials, nothing is recorded, and [main] ends by the
    exception. *)
Theorem missing_credentials_label_raises :
  lacks_credentials account_at_sign_first = true
  /\ safe_label account_at_sign_first
     = Raise (Exn IndexError (U "string index out of range"))
  /\ (forall (RT' : Runtime) idx h,
        process_account (RT := RT') idx account_at_sign_first h
        = (Raise (Exn IndexError (U "string index out of range")), []))
  /\ main (RT := rt_accounts no_net [account_at_sign_first]) []
     = (Raise (Exn IndexError (U "string index out of range")), []).
Proof.
  repeat split; try (vm_compute; reflexivity).
Qed.




Lemma exit_code_policy_witness :
  fst (main (RT := rt_accounts no_net [account_without_password]) [])
  = Ok 1%Z.
Proof.
  pose (RT := rt_accounts no_net [account_without_password]).
  pose proof (@exit_code_policy RT []) as T. cbv zeta in T.
  destruct T as (_ & _ & T); [intros msg; reflexivity|].
  destruct (T [account_without_password])
    as (results & evs & Hrun & _ & Hmain & _).
  { vm_compute. discriminate. }
  { reflexivity. }
  { vm_compute. reflexivity. }
  fold RT. rewrite Hmain.
  vm_compute in Hrun. injection Hrun as <- <-. reflexivity.
Defined.

(** C7 fails as stated: with [ACCOUNTS] holding a JSON object no account
    is processed, no outcome is recorded, and the exit code is 1. *)
Lemma invalid_accounts_exit_code :
  getenv (Runtime := rt_object_config) (U "ACCOUNTS") = Some (U "{}")
  /\ json_loads (Runtime := rt_object_config) (U "{}") = NotAList
  /\ main (RT := rt_object_config) [] = (Ok 1%Z, []).
Proof. repeat split; vm_compute; reflexivity. Qed.

(* ================================================================== *)
(** * Further properties of the code *)

(** ** Labels *)

Lemma split_once_some (sep : N) (s a b : str) :
  split_once sep s = Some (a, b) <-> s = a ++ sep :: b /\ ~ In sep a.
Proof.
  revert a b. induction s as [|c s IH]; intros a b; cbn [split_once].
  - split; [discriminate|]. intros [E _]. destruct a; discriminate.
  - unfold cp_eqb. destruct (N.eqb_spec c sep) as [->|Hne].
    + split.
      * intros H. injection H as <- <-. split; auto.
      * intros [E Hn]. destruct a as [|x a]; cbn in E.
        -- injection E as <-. reflexivity.
        -- injection E as <- _. exfalso. apply Hn. left. reflexivity.
    + destruct (split_once sep s) as [[a' b']|] eqn:Es.
      * split.
        -- intros H. injection H as <- <-.
           destruct (proj1 (IH a' b') eq_refl) as [-> Hn]. split; auto.
           intros [H|H]; auto.
        -- intros [E Hn]. destruct a as [|x a]; cbn in E.
           ++ injection E as E _. congruence.
           ++ injection E as <- E.
              assert (H : Some (a', b') = Some (a, b)).
              { apply IH. split; auto. intros H. apply Hn. right. exact H. }
              injection H as <- <-. reflexivity.
      * split; [discriminate|]. intros [E Hn]. destruct a as [|x a]; cbn in E.
        -- injection E as E _. congruence.
        -- injection E as <- E.
           assert (H : None = Some (a, b)).
           { apply IH. split; auto. intros H. apply Hn. right. exact H. }
           discriminate.
Qed.

Lemma split_once_none (sep : N) (s : str) :
  split_once sep s = None <-> ~ In sep s.
Proof.
  induction s as [|c s IH]; cbn [split_once].
  - split; auto.
  - unfold cp_eqb. destruct (N.eqb_spec c sep) as [->|Hne].
    + split; [discriminate|]. intros H. exfalso. apply H. left. reflexivity.
    + destruct (split_once sep s) as [[a b]|].
      * split; [discriminate|]. intros H. exfalso.
        assert (Hs : ~ In sep s) by (intros Hin; apply H; right; exact Hin).
        apply IH in Hs. discriminate.
      * split; auto. intros _ [H|H]; [congruence|]. apply (proj1 IH); auto.
Qed.

Lemma nth_error_last A (l : list A) (d : A) :
  l <> [] -> nth_error l (length l - 1) = Some (last l d).
Proof.
  induction l as [|x l IH]; [congruence|]. intros _.
  destruct l as [|y l]; [reflexivity|].
  change (last (x :: y :: l) d) with (last (y :: l) d).
  rewrite <- IH by discriminate.
  replace (length (x :: y :: l) - 1) with (S (length (y :: l) - 1))
    by (cbn [length]; lia).
  reflexivity.
Qed.

Lemma nth_error_stars (n i : nat) (c : N) :
  nth_error (stars n) i = Some c -> c = 0x2A%N.
Proof.
  intros H. apply nth_error_In in H. unfold stars in H.
  apply repeat_spec in H. exact H.
Qed.

(** X1: for an address with a non-empty part before its first at sign,
    [mask_email] returns a text made of a masked local part, the at sign
    and the domain as it was; the masked part is as long as the local part,
    starts with its first character, and every other character of it is an
    asterisk, except the last one when the local part has more than two
    characters. *)
Theorem mask_email_shape (local domain : str) :
  local <> [] -> ~ In 0x40%N local ->
  exists masked,
    mask_email (local ++ 0x40%N :: domain) = Ok (masked ++ 0x40%N :: domain)
    /\ length masked = length local
    /\ nth_error masked 0 = nth_error local 0
    /\ forall i c, nth_error masked i = Some c ->
         c = 0x2A%N
         \/ (nth_error local i = Some c
             /\ (i = 0 \/ (i = length local - 1 /\ 2 < length local))).
Proof.
  intros Hne Hat. unfold mask_email.
  rewrite (proj2 (split_once_some 0x40 (local ++ 0x40%N :: domain) local domain))
    by auto.
  destruct local as [|c0 tl] eqn:El; [congruence|]. rewrite <- El.
  change (U "@" ++ domain) with (0x40%N :: domain).
  assert (Hlen : length local = S (length tl)) by (rewrite El; reflexivity).
  destruct (Nat.leb_spec (length local) 2) as [Hle|Hgt].
  - exists (c0 :: stars (length local - 1)). repeat split.
    + cbn [length]. unfold stars. rewrite repeat_length. lia.
    + rewrite El. reflexivity.
    + intros i c Hi. destruct i as [|i]; cbn [nth_error] in Hi.
      * right. injection Hi as <-. rewrite El. cbn. auto.
      * left. eapply nth_error_stars; eauto.
  - exists (c0 :: stars (length local - 2) ++ [last local c0]). repeat split.
    + cbn [length]. rewrite length_app. unfold stars. rewrite repeat_length.
      cbn [length]. lia.
    + rewrite El. reflexivity.
    + intros i c Hi. destruct i as [|i]; cbn [nth_error] in Hi.
      * right. injection Hi as <-. rewrite El. cbn. auto.
      * destruct (Nat.lt_ge_cases i (length local - 2)) as [Hlt|Hge].
        -- left. rewrite nth_error_app1 in Hi
             by (unfold stars; rewrite repeat_length; exact Hlt).
           eapply nth_error_stars; eauto.
        -- rewrite nth_error_app2 in Hi
             by (unfold stars; rewrite repeat_length; exact Hge).
           unfold stars in Hi. rewrite repeat_length in Hi.
           destruct (i - (length local - 2)) as [|k] eqn:Ek; cbn in Hi.
           ++ injection Hi as <-. right.
              assert (Ei : S i = length local - 1) by lia.
              rewrite Ei. split; [|right; split; [reflexivity|lia]].
              apply nth_error_last. rewrite El. discriminate.
           ++ destruct k; discriminate.
Qed.

Lemma mask_email_shape_witness :
  exists masked,
    mask_email (U "carol" ++ 0x40%N :: U "example.com")
    = Ok (masked ++ 0x40%N :: U "example.com")
    /\ length masked = 5.
Proof.
  destruct (@mask_email_shape (U "carol") (U "example.com"))
    as (masked & E & Hlen & _).
  - discriminate.
  - vm_compute. intuition discriminate.
  - exists masked. split; [exact E|exact Hlen].
Defined.

Lemma mask_email_cases (email : str) :
  (forall e, mask_email email = Raise e ->
     exn_cls e = IndexError /\ exists rest, email = 0x40%N :: rest)
  /\ (forall rest, email = 0x40%N :: rest -> exists e, mask_email email = Raise e)
  /\ (~ In 0x40%N email -> mask_email email = Ok (U "***")).
Proof.
  unfold mask_email. split; [|split].
  - intros e. destruct (split_once 0x40 email) as [[local domain]|] eqn:Es;
      [|discriminate].
    destruct local as [|c0 tl]; [|discriminate].
    intros H. injection H as <-. split; [reflexivity|].
    apply split_once_some in Es as [-> _]. exists domain. reflexivity.
  - intros rest ->. cbn. eauto.
  - intros H. apply split_once_none in H. rewrite H. reflexivity.
Qed.

(** X2: [mask_email] raises exactly on an address that starts with the at
    sign, and the exception is an [IndexError]; an address without an at
    sign is masked as three asterisks. *)
Theorem mask_email_raises_iff (email : str) :
  (forall e, mask_email email = Raise e ->
     exn_cls e = IndexError /\ exists rest, email = 0x40%N :: rest)
  /\ (forall rest, email = 0x40%N :: rest -> exists e, mask_email email = Raise e)
  /\ (~ In 0x40%N email -> mask_email email = Ok (U "***")).
Proof. exact (mask_email_cases email). Qed.

Lemma mask_email_raises_iff_witness :
  exists e, mask_email (U "@example.com") = Raise e.
Proof.
  destruct (mask_email_raises_iff (U "@example.com")) as (_ & H & _).
  apply (H (U "example.com")). reflexivity.
Defined.

Lemma or_strip_cases (v : jval) (default : str) :
  or_strip v default =
  if truthy_non_text v
  then Raise (Exn AttributeError (U "object has no attribute 'strip'"))
  else Ok (strip (if jtruthy v then text_of v else default)).
Proof.
  unfold or_strip, truthy_non_text.
  destruct v; cbn [jtruthy text_of andb];
    try reflexivity;
    match goal with
    | |- context [if ?b then _ else _] => destruct b; reflexivity
    end.
Qed.

Lemma text_of_falsy (v : jval) :
  (if jtruthy v then text_of v else []) = text_of v.
Proof.
  destruct v as [|b|z|s|l|o]; cbn [jtruthy text_of].
  - reflexivity.
  - destruct b; reflexivity.
  - destruct (negb (z =? 0)%Z); reflexivity.
  - destruct s; reflexivity.
  - destruct l; reflexivity.
  - destruct o; reflexivity.
Qed.

(** X3: a label that [safe_label] returns is never the empty text. *)
Theorem safe_label_nonempty (account : Account) (label : str) :
  safe_label account = Ok label -> label <> [].
Proof.
  unfold safe_label, res_bind.
  destruct (account_text account (U "label") []) as [[|c l]|];
    [|intros H; injection H as <-; discriminate|discriminate].
  cbn [truthy].
  destruct (account_text account (U "email") []) as [[|c email]|];
    [intros H; injection H as <-; discriminate| |discriminate].
  cbn [truthy]. unfold mask_email.
  destruct (split_once 0x40 (c :: email)) as [[local domain]|].
  - destruct local as [|c0 tl]; [discriminate|].
    intros H. injection H as <-.
    match goal with |- context [if ?b then _ else _] => destruct b end;
      cbn [app]; discriminate.
  - intros H. injection H as <-. discriminate.
Qed.

Lemma safe_label_nonempty_witness : U "a***e@example.com" <> [].
Proof.
  apply (@safe_label_nonempty
           (mkAccount None (Some (U " alice@example.com ")) None None None)).
  vm_compute. reflexivity.
Defined.

(** X4: [safe_label] on any element of the array.  On an element that is
    not an object it raises [AttributeError].  On an object, with [label]
    and [email] the stripped texts of the two fields: a label that is a
    text and is not blank is returned stripped, whatever the e-mail
    address is; and [safe_label] raises exactly when the label is truthy
    without being a text, or the label is blank (falsy, or a text of white
    space) and the e-mail address is truthy without being a text or
    starts, once stripped, with the at sign.  It raises nothing but
    [AttributeError] and [IndexError]. *)
Theorem safe_label_raises_iff (account : Account) :
  (forall o, account = JObj o ->
     let lv := jget o (U "label") in
     let ev := jget o (U "email") in
     let label := strip (text_of lv) in
     let email := strip (text_of ev) in
     (truthy_non_text lv = false -> label <> [] -> safe_label account = Ok label)
     /\ ((exists e, safe_label account = Raise e)
         <-> truthy_non_text lv = true
             \/ (truthy_non_text lv = false /\ label = []
                 /\ (truthy_non_text ev = true
                     \/ exists rest, email = 0x40%N :: rest))))
  /\ ((forall o, account <> JObj o) ->
      exists e, safe_label account = Raise e /\ exn_cls e = AttributeError)
  /\ (forall e, safe_label account = Raise e ->
        exn_cls e = AttributeError \/ exn_cls e = IndexError).
Proof.
  split; [|split].
  - intros o -> lv ev label email.
    unfold safe_label, account_text, account_get, res_bind.
    fold lv ev. rewrite !or_strip_cases.
    destruct (truthy_non_text lv) eqn:Tl.
    { split; [discriminate|]. split; [auto|]. intros _. eauto. }
    rewrite text_of_falsy. fold label.
    destruct label as [|c l] eqn:El; cbn [truthy].
    2:{ split; [reflexivity|]. split.
        - intros [e H]. discriminate.
        - intros [H|(_ & H & _)]; discriminate. }
    split; [congruence|].
    destruct (truthy_non_text ev) eqn:Te.
    { split; [auto|]. intros _. eauto. }
    rewrite text_of_falsy. fold email.
    destruct (mask_email_cases email) as (R1 & R2 & _).
    destruct email as [|c email'] eqn:Ee; cbn [truthy].
    + split.
      * intros [e H]. discriminate.
      * intros [H|(_ & _ & [H|[rest H]])]; discriminate.
    + split.
      * intros [e H]. right. repeat split; auto. right. apply (R1 e H).
      * intros [H|(_ & _ & [H|[rest H]])]; try discriminate.
        apply (R2 rest H).
  - intros Hno. unfold safe_label, account_text, account_get, res_bind.
    destruct account as [|b|z|s|l|o]; try (eexists; split; reflexivity).
    exfalso. apply (Hno o). reflexivity.
  - intros e. unfold safe_label, account_text, account_get, res_bind.
    destruct account as [|b|z|s|l|o];
      try (intros H; injection H as <-; left; reflexivity).
    rewrite !or_strip_cases.
    destruct (truthy_non_text (jget o (U "label")));
      [intros H; injection H as <-; left; reflexivity|].
    destruct (truthy (strip _)); [discriminate|].
    destruct (truthy_non_text (jget o (U "email")));
      [intros H; injection H as <-; left; reflexivity|].
    destruct (truthy (strip _)) eqn:T; [|discriminate].
    intros H. apply (proj1 (mask_email_cases _)) in H as [H _]. auto.
Qed.

Lemma safe_label_raises_iff_witness :
  safe_label (mkAccount (Some (U " main ")) (Some (U "@example.com")) None None None)
  = Ok (U "main").
Proof.
  destruct (safe_label_raises_iff
              (mkAccount (Some (U " main ")) (Some (U "@example.com"))
                         None None None)) as [H _].
  destruct (H _ eq_refl) as [Hok _]. rewrite Hok.
  - vm_compute. reflexivity.
  - vm_compute. reflexivity.
  - vm_compute. discriminate.
Defined.

(** ** The retry loop for any number of attempts *)

Section TransportBounds.
Context {RT : Runtime}.

Lemma http_request_loop_spec (rq : Request) (retries : nat) :
  forall (todo attempt : nat) (last_exc : option exn) (h : list exchange) res xs,
    attempt + todo = retries ->
    http_request_loop rq retries attempt todo last_exc h = (res, xs) ->
    length xs <= todo
    /\ (forall i x, nth_error xs i = Some x ->
          x = (rq, session_request (h ++ firstn i xs) rq))
    /\ match res with
       | Ok r =>
           exists before,
             xs = before ++ [(rq, Answer r)]
             /\ (status_code r < 500)%Z /\ Forall failed_attempt before
       | Raise e =>
           length xs = todo /\ Forall failed_attempt xs
           /\ match todo with
              | O => last_exc = Some e
                     \/ (last_exc = None /\ exn_cls e = TypeError)
              | S _ => exists before x,
                         xs = before ++ [x] /\ attempt_outcome (snd x) = Raise e
              end
       end.
Proof.
  induction todo as [|todo IH]; intros attempt last_exc h res xs Hsum H.
  - cbn in H. destruct last_exc as [e|]; cbn in H; injection H as <- <-.
    + repeat split; auto. intros [|i] x Hx; discriminate.
    + repeat split; auto. intros [|i] x Hx; discriminate.
  - rewrite http_request_loop_step in H. cbv zeta in H.
    destruct (attempt_outcome (session_request h rq)) as [r|e] eqn:Ea.
    + injection H as <- <-. split; [cbn; lia|]. split.
      * intros [|[|i]] x Hx; cbn in Hx; try discriminate.
        injection Hx as <-. rewrite app_nil_r. reflexivity.
      * exists []. repeat split; auto.
        -- destruct (session_request h rq) as [r'|e']; cbn in Ea.
           ++ destruct (status_code r' >=? 500)%Z; [discriminate|].
              injection Ea as <-. reflexivity.
           ++ discriminate.
        -- destruct (session_request h rq) as [r'|e']; cbn in Ea.
           ++ destruct (Z.geb_spec (status_code r') 500); [discriminate|].
              injection Ea as <-. lia.
           ++ discriminate.
    + assert (Hf : failed_attempt (rq, session_request h rq))
        by (exists e; exact Ea).
      destruct (Nat.ltb_spec attempt (retries - 1)) as [Hlt|Hge].
      * destruct (http_request_loop rq retries (S attempt) todo (Some e)
                    (h ++ [(rq, session_request h rq)])) as [res' more] eqn:Hrec.
        injection H as <- <-.
        apply IH in Hrec as (Hlen & Hchain & Hres); [|lia].
        split; [cbn; lia|]. split.
        -- intros [|i] x Hx; cbn in Hx.
           ++ injection Hx as <-. rewrite app_nil_r. reflexivity.
           ++ rewrite (Hchain i x Hx). cbn [firstn].
              rewrite <- app_assoc. reflexivity.
        -- destruct res' as [r|e'].
           ++ destruct Hres as (before & -> & Hr & Hb).
              exists ((rq, session_request h rq) :: before).
              repeat split; auto.
           ++ destruct Hres as (Hl & Hall & Hlast).
              split; [cbn; lia|]. split; [constructor; auto|].
              destruct todo as [|todo']; [lia|].
              destruct Hlast as (before & x & -> & Hx).
              exists ((rq, session_request h rq) :: before), x. auto.
      * injection H as <- <-. assert (todo = 0) by lia. subst todo.
        split; [cbn; lia|]. split.
        -- intros [|[|i]] x Hx; cbn in Hx; try discriminate.
           injection Hx as <-. rewrite app_nil_r. reflexivity.
        -- repeat split; auto. exists [], (rq, session_request h rq). auto.
Qed.

(** X5: for any number of attempts, [http_request] makes at most that
    many requests, all of them the request it was given, each answered
    from the exchanges made before it; a response it returns has a status
    below 500, is the reply to the last request made, and every request
    before that one failed. *)
Theorem http_request_bounds (retries : nat) (rq : Request) (h : list exchange)
        res xs :
  http_request retries rq h = (res, xs) ->
  length xs <= retries
  /\ (forall i x, nth_error xs i = Some x ->
        x = (rq, session_request (h ++ firstn i xs) rq))
  /\ (forall r, res = Ok r ->
        (status_code r < 500)%Z
        /\ exists before,
             xs = before ++ [(rq, Answer r)] /\ Forall failed_attempt before).
Proof.
  unfold http_request. intros H.
  apply http_request_loop_spec in H as (Hlen & Hchain & Hres); [|reflexivity].
  repeat split; auto.
  - subst res. destruct Hres as (before & _ & Hr & _). exact Hr.
  - subst res. destruct Hres as (before & -> & _ & Hb). eauto.
Qed.

(** X6: [http_request] raises only after it has used every attempt, each
    of them failed; the exception is that of the last attempt, or a
    [TypeError] without any request when the number of attempts is 0. *)
Theorem http_request_raises (retries : nat) (rq : Request) (h : list exchange)
        e xs :
  http_request retries rq h = (Raise e, xs) ->
  length xs = retries
  /\ Forall failed_attempt xs
  /\ (retries = 0 -> exn_cls e = TypeError)
  /\ (0 < retries ->
      exists before x, xs = before ++ [x] /\ attempt_outcome (snd x) = Raise e).
Proof.
  unfold http_request. intros H.
  apply http_request_loop_spec in H as (_ & _ & Hl & Hall & Hlast);
    [|reflexivity].
  repeat split; auto.
  - intros ->. destruct Hlast as [Hl0|[_ Hl0]]; [discriminate|exact Hl0].
  - intros Hpos. destruct retries as [|n]; [lia|]. exact Hlast.
Qed.
End TransportBounds.

Lemma http_request_bounds_witness :
  length (snd (http_request (RT := rt_failing_first 1) 5 get_index [])) <= 5.
Proof.
  apply (@http_request_bounds (rt_failing_first 1) 5 get_index []
           (fst (http_request (RT := rt_failing_first 1) 5 get_index []))).
  apply surjective_pairing.
Defined.

Lemma http_request_raises_witness :
  length (snd (http_request (RT := rt_failing_first 4) 2 get_index [])) = 2.
Proof.
  apply (@http_request_raises (rt_failing_first 4) 2 get_index []
           (Exn RequestException (U "Server error: 500"))).
  vm_compute. reflexivity.
Defined.

(** ** Challenge detector *)

Lemma contains_embedded (r : regex) (a s b : str) :
  Contains r s -> Contains r (a ++ s ++ b).
Proof.
  intros (pre & m & post & g & -> & M).
  exists (a ++ pre), m, (post ++ b), g. split; auto.
  rewrite <- !app_assoc. reflexivity.
Qed.

(** X7: text added before and after a body that trips the detector does
    not make it pass. *)
Theorem challenge_survives_embedding (body final_url a b : str) :
  is_2fa_or_human_challenge body final_url = true ->
  is_2fa_or_human_challenge (a ++ body ++ b) final_url = true.
Proof.
  unfold is_2fa_or_human_challenge.
  destruct body as [|c body]; [discriminate|].
  assert (Ht : truthy (a ++ (c :: body) ++ b) = true) by (destruct a; reflexivity).
  rewrite Ht. cbn [truthy negb].
  destruct (existsb (fun p => found p (c :: body)) challenge_patterns) eqn:E.
  - intros _. apply any_found_iff in E as (p & Hp & Hc).
    assert (E' : existsb (fun p => found p (a ++ (c :: body) ++ b))
                         challenge_patterns = true).
    { apply any_found_iff. exists p. split; auto. apply contains_embedded, Hc. }
    rewrite E'. reflexivity.
  - destruct (found challenge_url_pattern final_url); [|discriminate].
    intros _.
    match goal with |- (if ?t then _ else _) = _ => destruct t end; reflexivity.
Qed.

Lemma challenge_survives_embedding_witness :
  is_2fa_or_human_challenge
    (U "<html><body>" ++ U "Please complete the security check" ++ U "</body></html>")
    (U "/index.php") = true.
Proof.
  apply (@challenge_survives_embedding
           (U "Please complete the security check") (U "/index.php")).
  vm_compute. reflexivity.
Defined.

Ltac bool_to_prop :=
  repeat match goal with
  | H : (_ && _) = true |- _ => apply andb_prop in H; destruct H
  | H : (_ && _) = false |- _ => apply andb_false_iff in H; destruct H
  | H : (_ <=? _)%N = true |- _ => apply N.leb_le in H
  | H : (_ <=? _)%N = false |- _ => apply N.leb_gt in H
  | H : (_ =? _)%N = true |- _ => apply N.eqb_eq in H
  | H : (_ =? _)%N = false |- _ => apply N.eqb_neq in H
  end.

Ltac bool_eq_by_lia :=
  apply eq_true_iff_eq;
  repeat (rewrite orb_true_iff || rewrite andb_true_iff
          || rewrite N.eqb_eq || rewrite N.leb_le);
  lia.

Lemma chr_i_lower (p x : N) : chr_i p (to_lower_ascii x) = chr_i p x.
Proof.
  unfold chr_i, to_lower_ascii.
  destruct (is_upper_ascii x) eqn:Hx; [|reflexivity].
  unfold is_upper_ascii in Hx.
  destruct (is_upper_ascii p) eqn:Hp; unfold is_upper_ascii in Hp.
  - assert (Hl : is_lower_ascii (p + 32) = true).
    { unfold is_lower_ascii. bool_to_prop.
      apply andb_true_intro. split; apply N.leb_le; lia. }
    rewrite Hl. bool_to_prop. bool_eq_by_lia.
  - destruct (is_lower_ascii p) eqn:Hl; unfold is_lower_ascii in Hl;
      bool_to_prop; bool_eq_by_lia.
Qed.

Lemma chr_i_upper (p x : N) : chr_i p (to_upper_ascii x) = chr_i p x.
Proof.
  unfold chr_i, to_upper_ascii.
  destruct (is_lower_ascii x) eqn:Hx; [|reflexivity].
  unfold is_lower_ascii in Hx.
  destruct (is_upper_ascii p) eqn:Hp; unfold is_upper_ascii in Hp.
  - assert (Hl : is_lower_ascii (p + 32) = true).
    { unfold is_lower_ascii. bool_to_prop.
      apply andb_true_intro. split; apply N.leb_le; lia. }
    rewrite Hl. bool_to_prop. bool_eq_by_lia.
  - destruct (is_lower_ascii p) eqn:Hl; unfold is_lower_ascii in Hl;
      bool_to_prop; bool_eq_by_lia.
Qed.

Lemma is_space_lower (x : N) : is_space (to_lower_ascii x) = is_space x.
Proof.
  unfold to_lower_ascii. destruct (is_upper_ascii x) eqn:Hx; [|reflexivity].
  unfold is_upper_ascii in Hx. unfold is_space. bool_to_prop. bool_eq_by_lia.
Qed.

Lemma is_space_upper (x : N) : is_space (to_upper_ascii x) = is_space x.
Proof.
  unfold to_upper_ascii. destruct (is_lower_ascii x) eqn:Hx; [|reflexivity].
  unfold is_lower_ascii in Hx. unfold is_space. bool_to_prop. bool_eq_by_lia.
Qed.

Lemma dash_lower (x : N) :
  dash_or_underscore (to_lower_ascii x) = dash_or_underscore x.
Proof.
  unfold to_lower_ascii. destruct (is_upper_ascii x) eqn:Hx; [|reflexivity].
  unfold is_upper_ascii in Hx. unfold dash_or_underscore.
  bool_to_prop. bool_eq_by_lia.
Qed.

Lemma dash_upper (x : N) :
  dash_or_underscore (to_upper_ascii x) = dash_or_underscore x.
Proof.
  unfold to_upper_ascii. destruct (is_lower_ascii x) eqn:Hx; [|reflexivity].
  unfold is_lower_ascii in Hx. unfold dash_or_underscore.
  bool_to_prop. bool_eq_by_lia.
Qed.

Section ClassBlind.
Variable f : N -> N.

Lemma forallb_map_blind (c : cset) (m : str) :
  (forall x, c (f x) = c x) -> forallb c (map f m) = forallb c m.
Proof.
  intros Hc. induction m as [|x m IH]; cbn; auto. rewrite Hc, IH. reflexivity.
Qed.

Lemma matches_map (r : regex) (m : str) g g' :
  Matches r m g g' -> class_blind f r ->
  forall g2, exists g2', Matches r (map f m) g2 g2'.
Proof.
  induction 1 as [g|c x g Hc|r1 r2 m1 m2 g g1 g2 _ IH1 _ IH2
                 |r1 r2 m g g' _ IH|r1 r2 m g g' _ IH|c m g Hm|r m g g' _ IH];
    cbn [class_blind]; intros Hb k.
  - exists k. constructor.
  - exists k. cbn. constructor. rewrite Hb. exact Hc.
  - destruct Hb as [Hb1 Hb2]. destruct (IH1 Hb1 k) as (k1 & M1).
    destruct (IH2 Hb2 k1) as (k2 & M2). exists k2. rewrite map_app.
    econstructor; eauto.
  - destruct Hb as [Hb1 _]. destruct (IH Hb1 k) as (k1 & M1).
    exists k1. apply MAltL. exact M1.
  - destruct Hb as [_ Hb2]. destruct (IH Hb2 k) as (k1 & M1).
    exists k1. apply MAltR. exact M1.
  - exists k. constructor. rewrite forallb_map_blind; auto.
  - destruct (IH Hb k) as (k1 & M1). eexists. econstructor. exact M1.
Qed.

Lemma matches_unmap (r : regex) (n : str) g g' :
  Matches r n g g' -> class_blind f r ->
  forall m, n = map f m -> forall g2, exists g2', Matches r m g2 g2'.
Proof.
  induction 1 as [g|c x g Hc|r1 r2 m1 m2 g g1 g2 _ IH1 _ IH2
                 |r1 r2 m g g' _ IH|r1 r2 m g g' _ IH|c m g Hm|r m g g' _ IH];
    cbn [class_blind]; intros Hb m0 E k.
  - destruct m0; [|discriminate]. exists k. constructor.
  - destruct m0 as [|y [|z m0]]; try discriminate. injection E as ->.
    exists k. constructor. rewrite <- Hb. exact Hc.
  - destruct Hb as [Hb1 Hb2]. symmetry in E. apply map_eq_app in E
      as (a & b & -> & Ea & Eb).
    destruct (IH1 Hb1 a (eq_sym Ea) k) as (k1 & M1).
    destruct (IH2 Hb2 b (eq_sym Eb) k1) as (k2 & M2).
    exists k2. econstructor; eauto.
  - destruct Hb as [Hb1 _]. destruct (IH Hb1 m0 E k) as (k1 & M1).
    exists k1. apply MAltL. exact M1.
  - destruct Hb as [_ Hb2]. destruct (IH Hb2 m0 E k) as (k1 & M1).
    exists k1. apply MAltR. exact M1.
  - subst m. exists k. constructor. rewrite <- (forallb_map_blind m0 Hb). exact Hm.
  - destruct (IH Hb m0 E k) as (k1 & M1). eexists. econstructor. exact M1.
Qed.

Lemma found_map_blind (r : regex) (s : str) :
  class_blind f r -> found r (map f s) = found r s.
Proof.
  intros Hb. apply eq_true_iff_eq. rewrite !found_iff. split.
  - intros (pre & m & post & g & E & M).
    apply map_eq_app in E as (a & rest & -> & Ea & E).
    apply map_eq_app in E as (b & c & -> & Eb & Ec).
    destruct (matches_unmap M Hb (eq_sym Eb) None) as (g' & M').
    exists a, b, c, g'. auto.
  - intros (pre & m & post & g & -> & M).
    destruct (matches_map M Hb None) as (g' & M').
    exists (map f pre), (map f m), (map f post), g'.
    rewrite !map_app. auto.
Qed.

Lemma class_blind_lit (s : str) :
  (forall p x, chr_i p (f x) = chr_i p x) -> class_blind f (lit_i s).
Proof. intros H. induction s; cbn; auto. Qed.

Lemma class_blind_seq (rs : list regex) :
  Forall (class_blind f) rs -> class_blind f (seq rs).
Proof. induction 1; cbn; auto. Qed.

Lemma class_blind_alt (rs : list regex) :
  Forall (class_blind f) rs -> class_blind f (alt rs).
Proof. induction 1; cbn; auto. Qed.

Lemma class_blind_opt (c : cset) :
  (forall x, c (f x) = c x) -> class_blind f (Opt c).
Proof. intros H. cbn. auto. Qed.

Lemma challenge_patterns_blind :
  (forall p x, chr_i p (f x) = chr_i p x) ->
  (forall x, ws (f x) = ws x) ->
  (forall x, dash_or_underscore (f x) = dash_or_underscore x) ->
  Forall (class_blind f) challenge_patterns
  /\ class_blind f challenge_url_pattern.
Proof.
  intros Hchr Hws Hdash. unfold challenge_patterns, challenge_url_pattern, L.
  split;
    repeat first
      [ apply Forall_nil
      | apply Forall_cons
      | apply class_blind_seq
      | apply class_blind_alt
      | apply class_blind_lit; exact Hchr
      | apply class_blind_opt; first [exact Hdash | intros x; apply Hchr]
      | exact Hws ].
Qed.

Lemma is_challenge_map_blind (body final_url : str) :
  (forall p x, chr_i p (f x) = chr_i p x) ->
  (forall x, ws (f x) = ws x) ->
  (forall x, dash_or_underscore (f x) = dash_or_underscore x) ->
  is_2fa_or_human_challenge (map f body) (map f final_url)
  = is_2fa_or_human_challenge body final_url.
Proof.
  intros Hchr Hws Hdash.
  destruct (challenge_patterns_blind Hchr Hws Hdash) as [Hps Hu].
  unfold is_2fa_or_human_challenge.
  replace (truthy (map f body)) with (truthy body) by (destruct body; reflexivity).
  rewrite (found_map_blind final_url Hu).
  replace (existsb (fun p => found p (map f body)) challenge_patterns)
    with (existsb (fun p => found p body) challenge_patterns); [reflexivity|].
  induction Hps as [|p ps Hp _ IH]; cbn [existsb]; auto.
  rewrite (found_map_blind body Hp), IH. reflexivity.
Qed.
End ClassBlind.

(** X8: the detector does not see the case of ASCII letters: a body and a
    final URL get the same answer as their lower-case and their upper-case
    versions. *)
Theorem challenge_ignores_ascii_case (body final_url : str) :
  is_2fa_or_human_challenge (map to_lower_ascii body) (map to_lower_ascii final_url)
  = is_2fa_or_human_challenge body final_url
  /\ is_2fa_or_human_challenge (map to_upper_ascii body)
                               (map to_upper_ascii final_url)
     = is_2fa_or_human_challenge body final_url.
Proof.
  split.
  - apply is_challenge_map_blind.
    + intros p x. apply chr_i_lower.
    + apply is_space_lower.
    + apply dash_lower.
  - apply is_challenge_map_blind.
    + intros p x. apply chr_i_upper.
    + apply is_space_upper.
    + apply dash_upper.
Qed.

(** ** Token extractor: what the fallback returns *)

Lemma matches_cat_inv (r1 r2 : regex) (m : str) g g' :
  Matches (Cat r1 r2) m g g' ->
  exists m1 m2 g1, m = m1 ++ m2 /\ Matches r1 m1 g g1 /\ Matches r2 m2 g1 g'.
Proof. intros H. inversion H; subst. eauto 8. Qed.

Lemma matches_seq_skip (r : regex) (rs : list regex) (m : str) g g' :
  group_free r = true ->
  Matches (seq (r :: rs)) m g g' ->
  exists m1 m2, m = m1 ++ m2 /\ Matches r m1 g g /\ Matches (seq rs) m2 g g'.
Proof.
  intros Hg H. cbn [seq] in H.
  apply matches_cat_inv in H as (m1 & m2 & g1 & -> & M1 & M2).
  pose proof (matches_group_free M1 Hg) as ->. eauto.
Qed.

Lemma matches_chr_inv (c : cset) (m : str) g g' :
  Matches (Chr c) m g g' -> exists x, m = [x] /\ c x = true /\ g' = g.
Proof. intros H. inversion H; subst. eauto. Qed.

Lemma matches_plus_inv (c : cset) (m : str) g g' :
  Matches (Plus c) m g g' -> m <> [] /\ forallb c m = true /\ g' = g.
Proof.
  unfold Plus. intros H.
  apply matches_cat_inv in H as (m1 & m2 & g1 & -> & M1 & M2).
  apply matches_chr_inv in M1 as (x & -> & Hx & ->).
  inversion M2; subst. cbn. rewrite Hx. repeat split; auto. discriminate.
Qed.

(** The text the fallback pattern matches ends with a quote, the captured
    value and a quote. *)
Lemma token_pattern_shape (m : str) g :
  Matches token_pattern m None g ->
  exists a q1 x q2,
    m = a ++ q1 :: x ++ [q2] /\ g = Some x
    /\ quote q1 = true /\ quote q2 = true
    /\ forallb not_quote x = true /\ x <> [].
Proof.
  unfold token_pattern. intros H.
  apply matches_seq_skip in H as (m1 & t1 & -> & _ & H); [|reflexivity].
  apply matches_seq_skip in H as (m2 & t2 & -> & _ & H); [|reflexivity].
  apply matches_seq_skip in H as (m3 & t3 & -> & _ & H); [|reflexivity].
  apply matches_seq_skip in H as (m4 & t4 & -> & _ & H); [|reflexivity].
  apply matches_seq_skip in H as (m5 & t5 & -> & _ & H); [|reflexivity].
  apply matches_seq_skip in H as (m6 & t6 & -> & _ & H); [|reflexivity].
  apply matches_seq_skip in H as (m7 & t7 & -> & _ & H); [|reflexivity].
  apply matches_seq_skip in H as (m8 & t8 & -> & _ & H); [|reflexivity].
  apply matches_seq_skip in H as (m9 & t9 & -> & _ & H); [|reflexivity].
  apply matches_seq_skip in H as (m10 & t10 & -> & _ & H); [|reflexivity].
  apply matches_seq_skip in H as (m11 & t11 & -> & _ & H); [|reflexivity].
  apply matches_seq_skip in H as (m12 & t12 & -> & _ & H); [|reflexivity].
  apply matches_seq_skip in H as (m13 & t13 & -> & Hq1 & H); [|reflexivity].
  apply matches_chr_inv in Hq1 as (q1 & -> & Hq1 & _).
  cbn [seq] in H.
  apply matches_cat_inv in H as (x & t14 & g1 & -> & Hx & H).
  inversion Hx as [| | | | | |? ? ? ? Hplus]; subst.
  apply matches_plus_inv in Hplus as (Hne & Hnq & _).
  apply matches_cat_inv in H as (m14 & t15 & g2 & -> & Hq2 & H).
  apply matches_chr_inv in Hq2 as (q2 & -> & Hq2 & ->).
  inversion H; subst.
  exists (m1 ++ m2 ++ m3 ++ m4 ++ m5 ++ m6 ++ m7 ++ m8 ++ m9 ++ m10 ++ m11 ++ m12),
    q1, x, q2.
  repeat split; auto.
  rewrite <- !app_assoc. cbn [app]. reflexivity.
Qed.

Section TokenFallback.
Context {RT : Runtime}.

(** X9: without the structured parser, a token the extractor returns is
    a part of the page that stands between two quote characters and
    contains none. *)
Theorem fallback_token_is_quoted_text (html t : str) :
  HAVE_BS4 = false ->
  _extract_csrf_token_from_html html = Some t ->
  forallb not_quote t = true
  /\ exists a q1 q2 b,
       html = a ++ q1 :: t ++ q2 :: b /\ quote q1 = true /\ quote q2 = true.
Proof.
  intros Hbs. unfold _extract_csrf_token_from_html, token_from_soup.
  rewrite Hbs. destruct (negb (truthy html)); [discriminate|].
  destruct (search token_pattern html) as [g|] eqn:E; [|discriminate].
  intros ->. apply search_sound in E as (pre & m & post & -> & M).
  apply token_pattern_shape in M as (a & q1 & x & q2 & -> & Hg & Q1 & Q2 & Hnq & _).
  injection Hg as <-. split; auto.
  exists (pre ++ a), q1, q2, post. repeat split; auto.
  rewrite <- !app_assoc. cbn [app]. rewrite <- app_assoc. reflexivity.
Qed.
End TokenFallback.

Lemma fallback_token_is_quoted_text_witness :
  forallb not_quote (U "abc123") = true.
Proof.
  apply (@fallback_token_is_quoted_text rt_plain
           (U "<input name='token' value='abc123'>") (U "abc123")).
  - reflexivity.
  - vm_compute. reflexivity.
Defined.

(** ** Authentication flow: what a run can be *)

Section LoginRuns.
Context {RT : Runtime}.

Lemma http_request_exchanges (retries : nat) (rq : Request) (h : list exchange)
      res xs :
  http_request retries rq h = (res, xs) ->
  length xs <= retries /\ Forall (fun x => fst x = rq) xs.
Proof.
  unfold http_request. intros H.
  apply http_request_loop_spec in H as (Hlen & Hchain & _); [|reflexivity].
  split; auto. apply Forall_forall. intros x Hin.
  apply In_nth_error in Hin as (i & Hi). rewrite (Hchain i x Hi). reflexivity.
Qed.

Lemma http_request_ok_status (retries : nat) (rq : Request) (h : list exchange)
      r xs :
  http_request retries rq h = (Ok r, xs) -> (status_code r < 500)%Z.
Proof.
  unfold http_request. intros H.
  apply http_request_loop_spec in H as (_ & _ & before & _ & Hr & _);
    [exact Hr|reflexivity].
Qed.

Variables (session : nat) (base_url email password : str).
Variable h : list exchange.

Let headers := browser_headers base_url.
Let login_url := urljoin base_url (U "/index.php?rp=/login").
Let ca_url := urljoin base_url (U "/clientarea.php").
Let trips (r : Response) := is_2fa_or_human_challenge (text r) (url r).
Let post (r1 : Response) :=
  http_post session (post_target base_url login_url (text r1))
            (form_headers headers)
            (login_payload email password (_extract_csrf_token_from_html (text r1))).

(** Every way [login_whmcs] can run: which of its three requests were
    made, what came back, and what it returns. *)
Lemma login_whmcs_cases res xs :
  login_whmcs session base_url email password h = (res, xs) ->
  exists g1 x1,
    http_get session login_url headers None h = (g1, x1)
    /\ match g1 with
       | Raise e => res = Raise e /\ xs = x1
       | Ok r1 =>
           if trips r1 then
             res = Ok (TWO_FA, U "2FA or human verification detected on login page")
             /\ xs = x1
           else
             exists g2 x2,
               post r1 (h ++ x1) = (g2, x2)
               /\ match g2 with
                  | Raise e => res = Raise e /\ xs = x1 ++ x2
                  | Ok r2 =>
                      if trips r2 then
                        res = Ok (TWO_FA,
                                  U "2FA or human verification challenge detected after login")
                        /\ xs = x1 ++ x2
                      else if existsb (fun p => found p (text r2)) failure_patterns then
                        res = Ok (FAILED, U "Invalid credentials or login failed")
                        /\ xs = x1 ++ x2
                      else
                        exists g3 x3,
                          http_get session ca_url headers None (h ++ x1 ++ x2) = (g3, x3)
                          /\ xs = x1 ++ x2 ++ x3
                          /\ match g3 with
                             | Raise e => res = Raise e
                             | Ok r3 =>
                                 res = Ok
                                   (if trips r3 then
                                      (TWO_FA,
                                       U "2FA or human verification detected in client area")
                                    else if existsb (fun p => found p (text r3))
                                                    logged_in_indicators
                                    then (SUCCESS, U "Logged in")
                                    else (FAILED, U "Unable to confirm login"))
                             end
                  end
       end.
Proof.
  unfold login_whmcs. fold headers login_url ca_url. intros H.
  destruct (http_get session login_url headers None h) as [g1 x1] eqn:G1.
  exists g1, x1. split; [reflexivity|].
  destruct g1 as [r1|e1].
  - rewrite (bind_ok _ G1) in H. fold (trips r1) in H.
    destruct (trips r1).
    + rewrite ret_run, app_nil_r in H. injection H as <- <-. auto.
    + fold (post r1) in H.
      destruct (post r1 (h ++ x1)) as [g2 x2] eqn:P2.
      exists g2, x2. split; [reflexivity|].
      destruct g2 as [r2|e2].
      * rewrite (bind_ok _ P2) in H. fold (trips r2) in H.
        destruct (trips r2).
        -- rewrite ret_run, app_nil_r in H. injection H as <- <-. auto.
        -- destruct (existsb _ failure_patterns).
           ++ rewrite ret_run, app_nil_r in H. injection H as <- <-. auto.
           ++ rewrite <- app_assoc in H.
              destruct (http_get session ca_url headers None (h ++ x1 ++ x2))
                as [g3 x3] eqn:G3.
              exists g3, x3. split; [reflexivity|].
              destruct g3 as [r3|e3].
              ** rewrite (bind_ok _ G3) in H. fold (trips r3) in H.
                 destruct (trips r3).
                 --- rewrite ret_run, app_nil_r in H. injection H as <- <-. auto.
                 --- destruct (existsb _ logged_in_indicators);
                       rewrite ret_run, app_nil_r in H; injection H as <- <-; auto.
              ** rewrite (bind_raise _ G3) in H. injection H as <- <-. auto.
      * rewrite (bind_raise _ P2) in H. injection H as <- <-. auto.
  - rewrite (bind_raise _ G1) in H. injection H as <- <-. auto.
Qed.

(** X10: [login_whmcs] returns [TWO_FA], [FAILED] or [SUCCESS], and
    never another status. *)
Theorem login_status_range (s : status) (d : str) xs :
  login_whmcs session base_url email password h = (Ok (s, d), xs) ->
  s = TWO_FA \/ s = FAILED \/ s = SUCCESS.
Proof.
  intros H. apply login_whmcs_cases in H as (g1 & x1 & _ & H).
  destruct g1 as [r1|e1]; [|destruct H; discriminate].
  destruct (trips r1); [destruct H as [H _]; injection H as <- _; auto|].
  destruct H as (g2 & x2 & _ & H).
  destruct g2 as [r2|e2]; [|destruct H; discriminate].
  destruct (trips r2); [destruct H as [H _]; injection H as <- _; auto|].
  destruct (existsb _ failure_patterns);
    [destruct H as [H _]; injection H as <- _; auto|].
  destruct H as (g3 & x3 & _ & _ & H).
  destruct g3 as [r3|e3]; [|discriminate].
  destruct (trips r3); [injection H as <- _; auto|].
  destruct (existsb _ logged_in_indicators); injection H as <- _; auto.
Qed.

(** X11: [login_whmcs] returns [SUCCESS] only when its three requests
    were all answered with a status below 500, none of the three responses
    tripped the challenge detector, the answer to the POST carried no
    login-failure phrase and the client area carried a logged-in
    indicator; the detail is then [Logged in]. *)
Theorem login_success_sound (d : str) xs :
  login_whmcs session base_url email password h = (Ok (SUCCESS, d), xs) ->
  d = U "Logged in"
  /\ exists r1 x1 r2 x2 r3 x3,
       http_get session login_url headers None h = (Ok r1, x1)
       /\ post r1 (h ++ x1) = (Ok r2, x2)
       /\ http_get session ca_url headers None (h ++ x1 ++ x2) = (Ok r3, x3)
       /\ xs = x1 ++ x2 ++ x3
       /\ (status_code r1 < 500 /\ status_code r2 < 500 /\ status_code r3 < 500)%Z
       /\ trips r1 = false /\ trips r2 = false /\ trips r3 = false
       /\ ~ (exists p, In p failure_patterns /\ Contains p (text r2))
       /\ exists p, In p logged_in_indicators /\ Contains p (text r3).
Proof.
  intros H. apply login_whmcs_cases in H as (g1 & x1 & G1 & H).
  destruct g1 as [r1|e1]; [|destruct H; discriminate].
  destruct (trips r1) eqn:T1; [destruct H; discriminate|].
  destruct H as (g2 & x2 & P2 & H).
  destruct g2 as [r2|e2]; [|destruct H; discriminate].
  destruct (trips r2) eqn:T2; [destruct H; discriminate|].
  destruct (existsb _ failure_patterns) eqn:F; [destruct H; discriminate|].
  destruct H as (g3 & x3 & G3 & -> & H).
  destruct g3 as [r3|e3]; [|discriminate].
  destruct (trips r3) eqn:T3; [discriminate|].
  destruct (existsb _ logged_in_indicators) eqn:I; [|discriminate].
  injection H as <-. split; [reflexivity|].
  exists r1, x1, r2, x2, r3, x3. repeat split; auto.
  - apply (http_request_ok_status G1).
  - apply (http_request_ok_status P2).
  - apply (http_request_ok_status G3).
  - intros C. apply any_found_iff in C. congruence.
  - apply any_found_iff. exact I.
Qed.

Lemma get_is_not_post : U "GET" <> U "POST".
Proof. intros H. vm_compute in H. discriminate. Qed.

Let get_request (target : str) : Request :=
  mkRequest session (U "GET") target 30 headers None None.
Let post_request (page : str) : Request :=
  mkRequest session (U "POST") (post_target base_url login_url page) 30
            (form_headers headers)
            (Some (login_payload email password
                     (_extract_csrf_token_from_html page)))
            (Some true).

(** The requests of a run, in three blocks. *)
Lemma login_whmcs_requests res xs :
  login_whmcs session base_url email password h = (res, xs) ->
  exists x1 x2 x3,
    xs = x1 ++ x2 ++ x3
    /\ length x1 <= 3 /\ length x2 <= 3 /\ length x3 <= 3
    /\ Forall (fun x => fst x = get_request login_url) x1
    /\ Forall (fun x => fst x = get_request ca_url) x3
    /\ (x2 = []
        \/ exists r1,
             http_get session login_url headers None h = (Ok r1, x1)
             /\ trips r1 = false
             /\ Forall (fun x => fst x = post_request (text r1)) x2).
Proof.
  intros H. apply login_whmcs_cases in H as (g1 & x1 & G1 & H).
  pose proof (http_request_exchanges G1) as [L1 F1].
  assert (Hend : forall r, g1 = r ->
            xs = x1 -> exists x1 x2 x3,
              xs = x1 ++ x2 ++ x3
              /\ length x1 <= 3 /\ length x2 <= 3 /\ length x3 <= 3
              /\ Forall (fun x => fst x = get_request login_url) x1
              /\ Forall (fun x => fst x = get_request ca_url) x3
              /\ (x2 = []
                  \/ exists r1,
                       http_get session login_url headers None h = (Ok r1, x1)
                       /\ trips r1 = false
                       /\ Forall (fun x => fst x = post_request (text r1)) x2)).
  { intros r _ ->. exists x1, [], []. rewrite !app_nil_r.
    repeat split; auto; cbn; lia. }
  destruct g1 as [r1|e1]; [|destruct H as [_ H]; eauto].
  destruct (trips r1) eqn:T1; [destruct H as [_ H]; eauto|].
  destruct H as (g2 & x2 & P2 & H).
  pose proof (http_request_exchanges P2) as [L2 F2].
  assert (Hpost : x2 = []
                  \/ exists r, http_get session login_url headers None h = (Ok r, x1)
                               /\ trips r = false
                               /\ Forall (fun x => fst x = post_request (text r)) x2).
  { right. exists r1. auto. }
  assert (Hend2 : xs = x1 ++ x2 -> exists y1 y2 y3,
              xs = y1 ++ y2 ++ y3
              /\ length y1 <= 3 /\ length y2 <= 3 /\ length y3 <= 3
              /\ Forall (fun x => fst x = get_request login_url) y1
              /\ Forall (fun x => fst x = get_request ca_url) y3
              /\ (y2 = []
                  \/ exists r,
                       http_get session login_url headers None h = (Ok r, y1)
                       /\ trips r = false
                       /\ Forall (fun x => fst x = post_request (text r)) y2)).
  { intros ->. exists x1, x2, []. rewrite app_nil_r.
    repeat split; auto; cbn; lia. }
  destruct g2 as [r2|e2]; [|destruct H as [_ H]; auto].
  destruct (trips r2); [destruct H as [_ H]; auto|].
  destruct (existsb _ failure_patterns); [destruct H as [_ H]; auto|].
  destruct H as (g3 & x3 & G3 & -> & _).
  pose proof (http_request_exchanges G3) as [L3 F3].
  exists x1, x2, x3. repeat split; auto.
Qed.

(** X12: a run of [login_whmcs] makes at most nine requests, all on the
    session it was given: GET requests without form data for the login
    page and for the client area, and POST requests that carry the login
    form to the target chosen on the login page. *)
Theorem login_requests_bounded res xs :
  login_whmcs session base_url email password h = (res, xs) ->
  length xs <= 9
  /\ Forall (fun x =>
               rq_session (fst x) = session
               /\ (fst x = get_request login_url \/ fst x = get_request ca_url
                   \/ exists page, fst x = post_request page)) xs.
Proof.
  intros H. apply login_whmcs_requests in H
    as (x1 & x2 & x3 & -> & L1 & L2 & L3 & F1 & F3 & F2).
  split; [rewrite !length_app; lia|].
  apply Forall_app. split; [|apply Forall_app; split].
  - eapply Forall_impl; [|exact F1]. intros x ->. cbn. auto.
  - destruct F2 as [->|(r1 & _ & _ & F2)]; [constructor|].
    eapply Forall_impl; [|exact F2]. intros x ->. cbn. eauto.
  - eapply Forall_impl; [|exact F3]. intros x ->. cbn. auto.
Qed.

(** X13: the credentials leave only after a login page that was fetched
    and did not trip the challenge detector: a POST among the requests of
    a run means that the login page came back, with a status below 500 and
    without challenge, and the POST is the login form for that page. *)
Theorem login_posts_after_clean_page res xs (x : exchange) :
  login_whmcs session base_url email password h = (res, xs) ->
  In x xs -> rq_method (fst x) = U "POST" ->
  exists r1 x1,
    http_get session login_url headers None h = (Ok r1, x1)
    /\ (status_code r1 < 500)%Z /\ trips r1 = false
    /\ fst x = post_request (text r1).
Proof.
  intros H Hin Hm. apply login_whmcs_requests in H
    as (x1 & x2 & x3 & -> & _ & _ & _ & F1 & F3 & F2).
  apply in_app_or in Hin as [Hin|Hin]; [|apply in_app_or in Hin as [Hin|Hin]].
  - rewrite Forall_forall in F1. rewrite (F1 x Hin) in Hm. cbn in Hm.
    exfalso. apply get_is_not_post. exact Hm.
  - destruct F2 as [->|(r1 & G1 & T1 & F2)]; [destruct Hin|].
    rewrite Forall_forall in F2. exists r1, x1. repeat split; auto.
    apply (http_request_ok_status G1).
  - rewrite Forall_forall in F3. rewrite (F3 x Hin) in Hm. cbn in Hm.
    exfalso. apply get_is_not_post. exact Hm.
Qed.
End LoginRuns.

Lemma good_login_run_eq :
  login_whmcs (RT := rt_good_login) 0 sample_base
              (U "user@example.com") (U "secret") []
  = (Ok (SUCCESS, U "Logged in"), snd good_login_run).
Proof. vm_compute. reflexivity. Qed.

Lemma login_status_range_witness :
  SUCCESS = TWO_FA \/ SUCCESS = FAILED \/ SUCCESS = SUCCESS.
Proof.
  exact (@login_status_range rt_good_login 0 sample_base
           (U "user@example.com") (U "secret") [] SUCCESS (U "Logged in")
           (snd good_login_run) good_login_run_eq).
Defined.

Lemma login_success_sound_witness : U "Logged in" = U "Logged in".
Proof.
  exact (proj1 (@login_success_sound rt_good_login 0 sample_base
                  (U "user@example.com") (U "secret") [] (U "Logged in")
                  (snd good_login_run) good_login_run_eq)).
Defined.

Lemma login_requests_bounded_witness : length (snd good_login_run) <= 9.
Proof.
  exact (proj1 (@login_requests_bounded rt_good_login 0 sample_base
                  (U "user@example.com") (U "secret") []
                  (Ok (SUCCESS, U "Logged in"))
                  (snd good_login_run) good_login_run_eq)).
Defined.

Lemma login_posts_after_clean_page_witness :
  exists r1 x1,
    http_get (RT := rt_good_login) 0
             (@urljoin rt_good_login sample_base (U "/index.php?rp=/login"))
             (browser_headers sample_base) None [] = (Ok r1, x1).
Proof.
  pose (x := nth 1 (snd good_login_run) (get_index, Fails (Exn TypeError []))).
  destruct (@login_posts_after_clean_page rt_good_login 0 sample_base
              (U "user@example.com") (U "secret") []
              (Ok (SUCCESS, U "Logged in")) (snd good_login_run) x
              good_login_run_eq) as (r1 & x1 & G1 & _).
  - apply nth_In. vm_compute. lia.
  - vm_compute. reflexivity.
  - exists r1, x1. exact G1.
Defined.

(** ** Check-in executor: probing and requests *)

Section CheckinRuns.
Context {RT : Runtime}.
Variables (session : nat) (base_url : str).

Lemma probe_step (headers : dict str) (path : str) (rest : list str)
      (h : list exchange) :
  probe session base_url headers (path :: rest) h =
  let (g, x1) := http_get session (urljoin base_url path) headers None h in
  let again :=
    let (r, x2) := probe session base_url headers rest (h ++ x1) in
    (r, x1 ++ x2) in
  match g with
  | Ok resp =>
      if (status_code resp =? 200)%Z && found probe_pattern (text resp)
      then (Ok (Some (mkAction (U "GET") (urljoin base_url path) None)), x1)
      else again
  | Raise _ => again
  end.
Proof.
  cbn [probe]. unfold bind, try_.
  destruct (http_get session (urljoin base_url path) headers None h) as [g x1].
  destruct g as [resp|e].
  - destruct ((status_code resp =? 200)%Z && found probe_pattern (text resp)).
    + unfold ret. rewrite app_nil_r. reflexivity.
    + reflexivity.
  - reflexivity.
Qed.

(** What the probing loop does, for any list of paths. *)
Lemma probe_spec (headers : dict str) (paths : list str) :
  forall (h : list exchange) res xs,
    probe session base_url headers paths h = (res, xs) ->
    length xs <= 3 * length paths
    /\ Forall (fun x => exists path,
                 In path paths
                 /\ fst x = mkRequest session (U "GET") (urljoin base_url path)
                                      30 headers None None) xs
    /\ exists found_action,
         res = Ok found_action
         /\ match found_action with
            | None => True
            | Some action =>
                exists path resp,
                  In path paths
                  /\ action = mkAction (U "GET") (urljoin base_url path) None
                  /\ status_code resp = 200%Z
                  /\ found probe_pattern (text resp) = true
                  /\ In (mkRequest session (U "GET") (urljoin base_url path)
                                   30 headers None None, Answer resp) xs
            end.
Proof.
  induction paths as [|path rest IH]; intros h res xs H.
  - cbn in H. injection H as <- <-. repeat split; auto. exists None. auto.
  - rewrite probe_step in H.
    destruct (http_get session (urljoin base_url path) headers None h)
      as [g x1] eqn:G.
    pose proof (http_request_exchanges G) as [L1 F1].
    assert (F1' : Forall (fun x => exists p,
                    In p (path :: rest)
                    /\ fst x = mkRequest session (U "GET") (urljoin base_url p)
                                         30 headers None None) x1).
    { eapply Forall_impl; [|exact F1]. intros x Hx. exists path.
      split; [left; reflexivity|exact Hx]. }
    assert (Hagain : forall r x2,
              probe session base_url headers rest (h ++ x1) = (r, x2) ->
              (r, x1 ++ x2) = (res, xs) ->
              length xs <= 3 * length (path :: rest)
              /\ Forall (fun x => exists p,
                           In p (path :: rest)
                           /\ fst x = mkRequest session (U "GET")
                                        (urljoin base_url p) 30 headers None None) xs
              /\ exists found_action,
                   res = Ok found_action
                   /\ match found_action with
                      | None => True
                      | Some action =>
                          exists p resp,
                            In p (path :: rest)
                            /\ action = mkAction (U "GET") (urljoin base_url p) None
                            /\ status_code resp = 200%Z
                            /\ found probe_pattern (text resp) = true
                            /\ In (mkRequest session (U "GET") (urljoin base_url p)
                                             30 headers None None, Answer resp) xs
                      end).
    { intros r x2 Hrec E. injection E as <- <-.
      apply IH in Hrec as (L2 & F2 & fa & -> & Hfa).
      split; [rewrite length_app; cbn [length]; unfold retries_default in L1; lia|].
      split.
      - apply Forall_app. split; auto.
        eapply Forall_impl; [|exact F2]. intros x (p & Hp & Hx).
        exists p. split; [right; exact Hp|exact Hx].
      - exists fa. split; auto. destruct fa as [action|]; auto.
        destruct Hfa as (p & resp & Hp & -> & Hs & Hf & Hin).
        exists p, resp. repeat split; auto.
        + right. exact Hp.
        + apply in_or_app. right. exact Hin. }
    destruct g as [resp|e].
    + destruct ((status_code resp =? 200)%Z && found probe_pattern (text resp))
        eqn:Hc.
      * injection H as <- <-. apply andb_prop in Hc as [Hs Hf].
        apply Z.eqb_eq in Hs.
        split; [cbn [length]; unfold retries_default in L1; lia|].
        split; auto.
        eexists. split; [reflexivity|]. exists path, resp.
        repeat split; auto; [left; reflexivity|].
        unfold http_get, http_request in G.
        apply http_request_loop_spec in G as (_ & _ & before & -> & _);
          [|reflexivity].
        apply in_or_app. right. left. reflexivity.
      * cbv zeta in H.
        destruct (probe session base_url headers rest (h ++ x1)) as [r x2] eqn:Hrec.
        eapply Hagain; eauto.
    + cbv zeta in H.
      destruct (probe session base_url headers rest (h ++ x1)) as [r x2] eqn:Hrec.
      eapply Hagain; eauto.
Qed.

Lemma failed_attempt_no_hit (x : exchange) : failed_attempt x -> probe_hit x = false.
Proof.
  intros [e He]. unfold probe_hit. destruct (snd x) as [r|e']; [|reflexivity].
  cbn in He. destruct (Z.geb_spec (status_code r) 500); [|discriminate].
  destruct (Z.eqb_spec (status_code r) 200); [lia|reflexivity].
Qed.

(** A call of [http_request] with the default number of attempts. *)
Lemma http_request_run (rq : Request) (h : list exchange) res xs :
  http_request retries_default rq h = (res, xs) ->
  xs <> [] /\ length xs <= 3 /\ Forall (fun x => fst x = rq) xs
  /\ match res with
     | Ok r => exists before,
                 xs = before ++ [(rq, Answer r)]
                 /\ (status_code r < 500)%Z /\ Forall failed_attempt before
     | Raise e => length xs = 3 /\ Forall failed_attempt xs
                  /\ exists before x,
                       xs = before ++ [x] /\ attempt_outcome (snd x) = Raise e
     end.
Proof.
  intros H. pose proof (http_request_exchanges H) as [L F].
  unfold http_request in H.
  apply http_request_loop_spec in H as (_ & _ & Hres); [|reflexivity].
  unfold retries_default in *.
  split; [|split; [exact L|split; [exact F|]]].
  - destruct res as [r|e].
    + destruct Hres as (before & -> & _). destruct before; discriminate.
    + destruct Hres as (Hl & _). destruct xs; [discriminate|discriminate].
  - destruct res as [r|e]; [exact Hres|].
    destruct Hres as (Hl & Hall & Hlast). auto.
Qed.

(** X14: the probing loop never raises and stops at the first answer
    with status 200 and a matching body: with an action found, that answer
    is the last exchange, no exchange before it is such an answer, and the
    action is a GET without data to the address just requested, one of the
    paths joined to the base; with no action found, every path was
    requested and none of the exchanges is such an answer.  At most three
    requests are made per path. *)
Theorem probe_stops_at_first_hit (headers : dict str) (paths : list str) :
  forall (h : list exchange) res xs,
    probe session base_url headers paths h = (res, xs) ->
    exists found_action,
      res = Ok found_action
      /\ length xs <= 3 * length paths
      /\ match found_action with
         | Some action =>
             exists before x path,
               xs = before ++ [x]
               /\ Forall (fun y => probe_hit y = false) before
               /\ probe_hit x = true
               /\ In path paths
               /\ rq_url (fst x) = urljoin base_url path
               /\ action = mkAction (U "GET") (urljoin base_url path) None
         | None =>
             Forall (fun y => probe_hit y = false) xs
             /\ forall path, In path paths ->
                  exists y, In y xs /\ rq_url (fst y) = urljoin base_url path
         end.
Proof.
  induction paths as [|path rest IH]; intros h res xs H.
  - cbn in H. injection H as <- <-. exists None. repeat split; auto.
    intros path [].
  - rewrite probe_step in H.
    destruct (http_get session (urljoin base_url path) headers None h)
      as [g x1] eqn:G.
    apply http_request_run in G as (Hne & L1 & F1 & Hg).
    assert (Hagain :
              Forall (fun y => probe_hit y = false) x1 ->
              (let (r, x2) := probe session base_url headers rest (h ++ x1) in
               (r, x1 ++ x2)) = (res, xs) ->
              exists found_action,
                res = Ok found_action
                /\ length xs <= 3 * length (path :: rest)
                /\ match found_action with
                   | Some action =>
                       exists before x p,
                         xs = before ++ [x]
                         /\ Forall (fun y => probe_hit y = false) before
                         /\ probe_hit x = true
                         /\ In p (path :: rest)
                         /\ rq_url (fst x) = urljoin base_url p
                         /\ action = mkAction (U "GET") (urljoin base_url p) None
                   | None =>
                       Forall (fun y => probe_hit y = false) xs
                       /\ forall p, In p (path :: rest) ->
                            exists y, In y xs /\ rq_url (fst y) = urljoin base_url p
                   end).
    { intros Hno E.
      destruct (probe session base_url headers rest (h ++ x1)) as [r x2] eqn:Hrec.
      injection E as <- <-.
      apply IH in Hrec as (fa & -> & L2 & Hfa).
      exists fa. split; [reflexivity|].
      split; [rewrite length_app; cbn [length]; lia|].
      destruct fa as [action|].
      - destruct Hfa as (before & x & p & -> & Hb & Hx & Hp & Hu & ->).
        exists (x1 ++ before), x, p. rewrite app_assoc.
        repeat split; auto.
        + apply Forall_app. auto.
        + right. exact Hp.
      - destruct Hfa as [Hall Hevery]. split; [apply Forall_app; auto|].
        intros p [<-|Hp].
        + destruct x1 as [|y x1']; [congruence|]. exists y. split; [left; reflexivity|].
          apply Forall_inv in F1. rewrite F1. reflexivity.
        + destruct (Hevery p Hp) as (y & Hy & Hu). exists y.
          split; [apply in_or_app; right; exact Hy|exact Hu]. }
    destruct g as [resp|e].
    + destruct Hg as (before & -> & Hs & Hb).
      assert (Hb' : Forall (fun y => probe_hit y = false) before).
      { eapply Forall_impl; [|exact Hb]. apply failed_attempt_no_hit. }
      destruct ((status_code resp =? 200)%Z && found probe_pattern (text resp))
        eqn:Hc.
      * injection H as <- <-. eexists. split; [reflexivity|].
        split; [cbn [length]; lia|].
        eexists before, _, path. repeat split; auto.
        left. reflexivity.
      * apply Hagain; [|exact H].
        apply Forall_app. split; auto.
    + destruct Hg as (_ & Hall & _).
      apply Hagain; [|exact H].
      eapply Forall_impl; [|exact Hall]. apply failed_attempt_no_hit.
Qed.

Let ca_url := urljoin base_url (U "/clientarea.php").

Lemma action_request_eq (action : Action) (page : str) :
  (if str_eqb (str_upper (act_method action)) (U "POST") then
     http_post session (act_url action)
       (form_headers (browser_headers (urljoin base_url (U "/clientarea.php"))))
       (if negb (dict_mem match act_data action with Some d => d | None => [] end
                          (U "token"))
        then
          match _extract_csrf_token_from_html page with
          | Some token =>
              if truthy token
              then dict_set match act_data action with Some d => d | None => [] end
                            (U "token") token
              else match act_data action with Some d => d | None => [] end
          | None => match act_data action with Some d => d | None => [] end
          end
        else match act_data action with Some d => d | None => [] end)
   else
     http_get session (act_url action)
       (browser_headers (urljoin base_url (U "/clientarea.php"))) (Some true))
  = http_request retries_default (checkin_request session base_url action page).
Proof.
  unfold checkin_request, checkin_post_data, http_post, http_get, checkin_headers.
  destruct (str_eqb _ _); [|reflexivity].
  destruct (dict_mem _ _); reflexivity.
Qed.

(** Every way [perform_checkin] can run: the dashboard request, how the
    action was found, the request made for it, and what is returned. *)
Lemma perform_checkin_cases (h : list exchange) res xs :
  perform_checkin session base_url h = (res, xs) ->
  exists g0 x0,
    http_request retries_default (checkin_get session base_url ca_url) h = (g0, x0)
    /\ match g0 with
       | Raise e => res = Raise e /\ xs = x0
       | Ok ca =>
           match _find_checkin_action_in_html base_url (text ca) with
           | Raise e => res = Raise e /\ xs = x0
           | Ok discovered =>
               exists found_action xp,
                 match discovered with
                 | Some a => found_action = Some a /\ xp = []
                 | None =>
                     probe session base_url (checkin_headers base_url)
                           probe_paths (h ++ x0) = (Ok found_action, xp)
                 end
                 /\ match found_action with
                    | None =>
                        res = Ok (FAILED, JStr (U "Check-in entry not found"))
                        /\ xs = x0 ++ xp
                    | Some action =>
                        if truthy (act_url action) then
                          exists g2 x2,
                            http_request retries_default
                              (checkin_request session base_url action (text ca))
                              (h ++ x0 ++ xp) = (g2, x2)
                            /\ xs = x0 ++ xp ++ x2
                            /\ res = match g2 with
                                     | Ok resp => Ok (determine_result resp)
                                     | Raise e => Raise e
                                     end
                        else
                          res = Ok (FAILED,
                                    JStr (U "Check-in action URL missing"))
                          /\ xs = x0 ++ xp
                    end
           end
       end.
Proof.
  intros H. unfold perform_checkin in H. cbv zeta in H.
  change (http_get session (urljoin base_url (U "/clientarea.php"))
            (browser_headers (urljoin base_url (U "/clientarea.php"))) None)
    with (http_request retries_default (checkin_get session base_url ca_url)) in H.
  destruct (http_request retries_default (checkin_get session base_url ca_url) h)
    as [g0 x0] eqn:G0.
  exists g0, x0. split; [reflexivity|].
  destruct g0 as [ca|e0]; [|rewrite (bind_raise _ G0) in H; injection H as <- <-; auto].
  rewrite (bind_ok _ G0) in H.
  assert (Htail : forall (found_action : option Action) (hh : list exchange) r ys,
            match found_action with
            | None => ret (FAILED, JStr (U "Check-in entry not found"))
            | Some action =>
                if negb (truthy (act_url action))
                then ret (FAILED, JStr (U "Check-in action URL missing"))
                else
                  resp <- http_request retries_default
                            (checkin_request session base_url action (text ca)) ;;
                  ret (determine_result resp)
            end hh = (r, ys) ->
            match found_action with
            | None =>
                r = Ok (FAILED, JStr (U "Check-in entry not found")) /\ ys = []
            | Some action =>
                if truthy (act_url action) then
                  exists g2 x2,
                    http_request retries_default
                      (checkin_request session base_url action (text ca)) hh
                    = (g2, x2)
                    /\ ys = x2
                    /\ r = match g2 with
                           | Ok resp => Ok (determine_result resp)
                           | Raise e => Raise e
                           end
                else
                  r = Ok (FAILED, JStr (U "Check-in action URL missing"))
                  /\ ys = []
            end).
  { intros [action|] hh r ys E.
    - destruct (truthy (act_url action)); cbn [negb] in E.
      + destruct (http_request retries_default
                    (checkin_request session base_url action (text ca)) hh)
          as [g2 x2] eqn:G2.
        exists g2, x2. split; [reflexivity|].
        destruct g2 as [resp|e2].
        * rewrite (bind_ok _ G2), ret_run, app_nil_r in E.
          injection E as <- <-. auto.
        * rewrite (bind_raise _ G2) in E. injection E as <- <-. auto.
      + rewrite ret_run in E. injection E as <- <-. auto.
    - rewrite ret_run in E. injection E as <- <-. auto. }
  rewrite bind_lift_res in H.
  destruct (_find_checkin_action_in_html base_url (text ca)) as [[a|]|e] eqn:D;
    [| |injection H as <- <-; rewrite app_nil_r; auto].
  - rewrite bind_ret in H. exists (Some a), []. split; [auto|].
    rewrite action_request_eq in H.
    destruct (_ (h ++ x0)) as [r ys] eqn:E in H. injection H as <- <-.
    apply (Htail (Some a)) in E.
    destruct (truthy (act_url a)).
    + destruct E as (g2 & x2 & G2 & -> & ->). exists g2, x2.
      rewrite app_nil_r. cbn [app]. auto.
    + destruct E as [-> ->]. rewrite app_nil_r. auto.
  - fold (checkin_headers base_url) in H.
    destruct (probe session base_url (checkin_headers base_url) probe_paths (h ++ x0))
      as [pr xp] eqn:P.
    pose proof (probe_spec P) as (_ & _ & fa & -> & _).
    exists fa, xp. split; [reflexivity|].
    rewrite (bind_ok _ P) in H.
    destruct fa as [a|].
    + unfold checkin_headers in H. rewrite action_request_eq in H.
      destruct (_ ((h ++ x0) ++ xp)) as [r ys] eqn:E in H. injection H as <- <-.
      apply (Htail (Some a)) in E. rewrite <- app_assoc in E.
      destruct (truthy (act_url a)).
      * destruct E as (g2 & x2 & G2 & -> & ->). exists g2, x2. auto.
      * destruct E as [-> ->]. rewrite app_nil_r. auto.
    + rewrite ret_run, app_nil_r in H. injection H as <- <-. auto.
Qed.

(** The requests of a run, in three blocks: the dashboard, the probes and
    the action. *)
Lemma perform_checkin_requests (h : list exchange) res xs :
  perform_checkin session base_url h = (res, xs) ->
  exists x0 xp x2,
    xs = x0 ++ xp ++ x2
    /\ length x0 <= 3 /\ length xp <= 18 /\ length x2 <= 3
    /\ Forall (fun x => fst x = checkin_get session base_url ca_url) x0
    /\ Forall (fun x => exists path,
                 In path probe_paths
                 /\ fst x = checkin_get session base_url (urljoin base_url path)) xp
    /\ (x2 = []
        \/ exists ca action g2,
             http_request retries_default (checkin_get session base_url ca_url) h
             = (Ok ca, x0)
             /\ (_find_checkin_action_in_html base_url (text ca)
                 = Ok (Some action) /\ xp = []
                 \/ _find_checkin_action_in_html base_url (text ca) = Ok None
                    /\ probe session base_url (checkin_headers base_url) probe_paths
                             (h ++ x0) = (Ok (Some action), xp))
             /\ truthy (act_url action) = true
             /\ http_request retries_default
                  (checkin_request session base_url action (text ca))
                  (h ++ x0 ++ xp) = (g2, x2)
             /\ res = match g2 with
                      | Ok resp => Ok (determine_result resp)
                      | Raise e => Raise e
                      end).
Proof.
  intros H. apply perform_checkin_cases in H as (g0 & x0 & G0 & H).
  pose proof (http_request_exchanges G0) as [L0 F0]. unfold retries_default in L0.
  destruct g0 as [ca|e0].
  2:{ destruct H as [_ ->]. exists x0, [], []. rewrite !app_nil_r.
      repeat split; auto; cbn; lia. }
  destruct (_find_checkin_action_in_html base_url (text ca))
    as [discovered|e1] eqn:D.
  2:{ destruct H as [_ ->]. exists x0, [], []. rewrite !app_nil_r.
      repeat split; auto; cbn; lia. }
  destruct H as (fa & xp & Hfind & H).
  assert (Hp : length xp <= 18
               /\ Forall (fun x => exists path,
                            In path probe_paths
                            /\ fst x = checkin_get session base_url
                                                   (urljoin base_url path)) xp).
  { destruct discovered as [a|].
    - destruct Hfind as [_ ->]. split; [cbn; lia|constructor].
    - apply probe_spec in Hfind as (L & F & _). split; [exact L|exact F]. }
  destruct Hp as [Lp Fp].
  destruct fa as [action|].
  2:{ destruct H as [_ ->]. exists x0, xp, []. rewrite !app_nil_r.
      repeat split; auto; cbn; lia. }
  destruct (truthy (act_url action)) eqn:Hu.
  2:{ destruct H as [_ ->]. exists x0, xp, []. rewrite !app_nil_r.
      repeat split; auto; cbn; lia. }
  destruct H as (g2 & x2 & G2 & -> & ->).
  pose proof (http_request_exchanges G2) as [L2 F2]. unfold retries_default in L2.
  exists x0, xp, x2. repeat split; auto.
  right. exists ca, action, g2. repeat split; auto.
  destruct discovered as [a|].
  - destruct Hfind as [E ->]. injection E as ->. auto.
  - auto.
Qed.

(** X15: a run of [perform_checkin] makes at most 24 requests, all on the
    session it was given and with a timeout of 30 seconds; every request
    that is not a POST carries no form data. *)
Theorem checkin_requests_bounded (h : list exchange) res xs :
  perform_checkin session base_url h = (res, xs) ->
  length xs <= 24
  /\ Forall (fun x =>
               rq_session (fst x) = session
               /\ rq_timeout (fst x) = 30%Z
               /\ (rq_method (fst x) = U "POST" \/ rq_data (fst x) = None)) xs.
Proof.
  intros H. apply perform_checkin_requests in H
    as (x0 & xp & x2 & -> & L0 & Lp & L2 & F0 & Fp & F2).
  split; [rewrite !length_app; lia|].
  apply Forall_app. split; [|apply Forall_app; split].
  - eapply Forall_impl; [|exact F0]. intros x ->. cbn. auto.
  - eapply Forall_impl; [|exact Fp]. intros x (path & _ & ->). cbn. auto.
  - destruct F2 as [->|(ca & action & g2 & _ & _ & _ & G2 & _)]; [constructor|].
    apply http_request_exchanges in G2 as [_ F2].
    eapply Forall_impl; [|exact F2]. intros x ->. unfold checkin_request.
    destruct (str_eqb _ _); cbn; auto.
Qed.

Lemma str_eqb_eq (a b : str) : str_eqb a b = true <-> a = b.
Proof.
  revert b. induction a as [|x a IH]; intros [|y b]; cbn; split;
    try congruence; try discriminate.
  - intros H. apply andb_prop in H as [Hx Ha]. unfold cp_eqb in Hx.
    apply N.eqb_eq in Hx. apply IH in Ha. congruence.
  - intros H. injection H as -> ->. unfold cp_eqb. rewrite N.eqb_refl.
    apply IH. reflexivity.
Qed.

Lemma dict_get_set_same V (d : dict V) (k : str) (v : V) :
  dict_get (dict_set d k v) k = Some v.
Proof.
  induction d as [|[k' v'] d IH]; cbn.
  - rewrite (proj2 (str_eqb_eq k k) eq_refl). reflexivity.
  - destruct (str_eqb k' k) eqn:E; cbn; rewrite E; auto.
Qed.

Lemma dict_get_set_other V (d : dict V) (k k0 : str) (v : V) :
  k0 <> k -> dict_get (dict_set d k v) k0 = dict_get d k0.
Proof.
  intros Hk. induction d as [|[k' v'] d IH]; cbn.
  - destruct (str_eqb k k0) eqn:E; [apply str_eqb_eq in E; congruence|reflexivity].
  - destruct (str_eqb k' k) eqn:E; cbn.
    + apply str_eqb_eq in E. subst k'.
      destruct (str_eqb k k0) eqn:E2; [|reflexivity].
      apply str_eqb_eq in E2. congruence.
    + destruct (str_eqb k' k0); auto.
Qed.

(** X16: a POST leaves [perform_checkin] only for an action that the
    discovery found on the dashboard page, never for a probed address:
    the dashboard came back with a status below 500, the discovery
    returned an action whose method is POST in upper case and whose
    address is not empty, and the POST goes to that address.  Its form
    data has every field of the action, unchanged, and, where the action
    has no token field, the token that the extractor finds on the
    dashboard page.  The hypothesis on [str_upper] holds of [str.upper]. *)
Theorem checkin_post_only_by_discovery (h : list exchange) res xs (x : exchange) :
  str_upper (U "GET") <> U "POST" ->
  perform_checkin session base_url h = (res, xs) ->
  In x xs -> rq_method (fst x) = U "POST" ->
  exists ca x0 action data,
    http_request retries_default (checkin_get session base_url ca_url) h
    = (Ok ca, x0)
    /\ (status_code ca < 500)%Z
    /\ _find_checkin_action_in_html base_url (text ca) = Ok (Some action)
    /\ str_upper (act_method action) = U "POST"
    /\ rq_url (fst x) = act_url action /\ act_url action <> []
    /\ rq_data (fst x) = Some data
    /\ (forall k v,
          dict_get match act_data action with Some d => d | None => [] end k
          = Some v -> dict_get data k = Some v)
    /\ (forall t,
          dict_get match act_data action with Some d => d | None => [] end
                   (U "token") = None ->
          _extract_csrf_token_from_html (text ca) = Some t ->
          dict_get data (U "token") = Some t).
Proof.
  intros Hup H Hin Hm. apply perform_checkin_requests in H
    as (x0 & xp & x2 & -> & _ & _ & _ & F0 & Fp & F2).
  apply in_app_or in Hin as [Hin|Hin]; [|apply in_app_or in Hin as [Hin|Hin]].
  - rewrite Forall_forall in F0. rewrite (F0 x Hin) in Hm. cbn in Hm.
    exfalso. apply get_is_not_post. exact Hm.
  - rewrite Forall_forall in Fp. destruct (Fp x Hin) as (path & _ & E).
    rewrite E in Hm. cbn in Hm. exfalso. apply get_is_not_post. exact Hm.
  - destruct F2 as [->|(ca & action & g2 & G0 & Hfind & Hu & G2 & _)];
      [destruct Hin|].
    apply http_request_exchanges in G2 as [_ F2]. rewrite Forall_forall in F2.
    pose proof (F2 x Hin) as E. rewrite E in Hm. unfold checkin_request in E, Hm.
    destruct (str_eqb (str_upper (act_method action)) (U "POST")) eqn:Hpost.
    2:{ cbn in Hm. exfalso. apply get_is_not_post. exact Hm. }
    apply str_eqb_eq in Hpost.
    destruct Hfind as [[Hfind _]|[_ Hprobe]].
    2:{ apply probe_spec in Hprobe as (_ & _ & fa & Efa & Hfa).
        injection Efa as <-. destruct Hfa as (path & resp & _ & -> & _).
        cbn in Hpost. contradiction. }
    exists ca, x0, action, (checkin_post_data action (text ca)).
    rewrite E. cbn [fst rq_url rq_data].
    split; [exact G0|]. split; [apply (http_request_ok_status G0)|].
    split; [exact Hfind|]. split; [exact Hpost|]. split; [reflexivity|].
    split; [intros Hnil; rewrite Hnil in Hu; discriminate|].
    split; [reflexivity|].
    unfold checkin_post_data, dict_mem. split.
    + intros k v Hk.
      destruct (dict_get _ (U "token")) as [t0|] eqn:Ht; [exact Hk|].
      destruct (_extract_csrf_token_from_html (text ca)) as [t|]; [|exact Hk].
      destruct (truthy t); [|exact Hk].
      rewrite dict_get_set_other; [exact Hk|]. intros ->. congruence.
    + intros t Ht Hx. rewrite Ht, Hx.
      assert (Hne : truthy t = true).
      { destruct t; [|reflexivity]. exfalso.
        unfold _extract_csrf_token_from_html in Hx. revert Hx.
        destruct (negb (truthy (text ca))); [discriminate|].
        unfold token_from_soup.
        destruct HAVE_BS4; [destruct (BeautifulSoup (text ca)) as [soup|]|].
        - destruct (find _ _ soup) as [ti|].
          + destruct (tag_get ti (U "value")) as [v|].
            * destruct v; cbn [truthy]; [|discriminate].
              intros Hs. apply (fallback_token_nonempty Hs). reflexivity.
            * intros Hs. apply (fallback_token_nonempty Hs). reflexivity.
          + intros Hs. apply (fallback_token_nonempty Hs). reflexivity.
        - intros Hs. apply (fallback_token_nonempty Hs). reflexivity.
        - intros Hs. apply (fallback_token_nonempty Hs). reflexivity. }
      rewrite Hne. apply dict_get_set_same.
Qed.

(** X17: once it has made a request, [perform_checkin] raises in three
    ways only.  The request for the dashboard has failed three times in a
    row, or the request for the action has: the three failed attempts are
    then the last exchanges of the run and the exception is that of the
    third.  Or the dashboard was answered with a status below 500 and the
    discovery raised on the page: the exception is that of the discovery
    and no further request is made.  A probe that fails never ends the
    run. *)
Theorem checkin_raise_causes (h : list exchange) e xs :
  perform_checkin session base_url h = (Raise e, xs) -> xs <> [] ->
  (exists ca,
      http_request retries_default (checkin_get session base_url ca_url) h
      = (Ok ca, xs)
      /\ (status_code ca < 500)%Z
      /\ _find_checkin_action_in_html base_url (text ca) = Raise e)
  \/ exists before tail rq,
       xs = before ++ tail /\ length tail = 3
       /\ Forall (fun x => fst x = rq /\ failed_attempt x) tail
       /\ (exists pre y, tail = pre ++ [y] /\ attempt_outcome (snd y) = Raise e)
       /\ (before = [] /\ rq = checkin_get session base_url ca_url
           \/ exists ca x0 xp action,
                before = x0 ++ xp
                /\ http_request retries_default
                     (checkin_get session base_url ca_url) h = (Ok ca, x0)
                /\ rq = checkin_request session base_url action (text ca)).
Proof.
  intros H _. apply perform_checkin_cases in H as (g0 & x0 & G0 & H).
  destruct g0 as [ca|e0].
  - destruct (_find_checkin_action_in_html base_url (text ca))
      as [discovered|e1] eqn:D.
    2:{ destruct H as [E ->]. injection E as ->. left. exists ca.
        repeat split; auto. apply (http_request_ok_status G0). }
    right. destruct H as (fa & xp & _ & H).
    destruct fa as [action|]; [|destruct H; discriminate].
    destruct (truthy (act_url action)); [|destruct H; discriminate].
    destruct H as (g2 & x2 & G2 & -> & H).
    destruct g2 as [resp|e2]; [discriminate|]. injection H as ->.
    apply http_request_run in G2 as (_ & _ & F2 & L2 & A2 & Hlast).
    exists (x0 ++ xp), x2, (checkin_request session base_url action (text ca)).
    rewrite app_assoc. repeat split; auto.
    + apply Forall_and; assumption.
    + right. exists ca, x0, xp, action. auto.
  - right. destruct H as [E ->]. injection E as ->.
    apply http_request_run in G0 as (_ & _ & F0 & L0 & A0 & Hlast).
    exists [], x0, (checkin_get session base_url ca_url).
    repeat split; auto. apply Forall_and; assumption.
Qed.

(** X18: what [perform_checkin] returns is either one of its two early
    failures, [Check-in entry not found] and [Check-in action URL missing],
    or the classification of the response to the action request: that
    response has a status below 500 and is the answer in the last exchange
    of the run, to a request that follows redirects. *)
Theorem checkin_result_from_last_answer (h : list exchange) s d xs :
  perform_checkin session base_url h = (Ok (s, d), xs) ->
  (s = FAILED
   /\ (d = JStr (U "Check-in entry not found")
       \/ d = JStr (U "Check-in action URL missing")))
  \/ exists before rq resp,
       xs = before ++ [(rq, Answer resp)]
       /\ (status_code resp < 500)%Z
       /\ rq_session rq = session
       /\ rq_allow_redirects rq = Some true
       /\ determine_result resp = (s, d).
Proof.
  intros H. apply perform_checkin_cases in H as (g0 & x0 & G0 & H).
  destruct g0 as [ca|e0]; [|destruct H; discriminate].
  destruct (_find_checkin_action_in_html base_url (text ca))
    as [discovered|e1]; [|destruct H; discriminate].
  destruct H as (fa & xp & _ & H).
  destruct fa as [action|];
    [|destruct H as [E _]; injection E as <- <-; left; auto].
  destruct (truthy (act_url action));
    [|destruct H as [E _]; injection E as <- <-; left; auto].
  destruct H as (g2 & x2 & G2 & -> & H).
  destruct g2 as [resp|e2]; [|discriminate]. injection H as H.
  apply http_request_run in G2 as (_ & _ & _ & before & -> & Hs & _).
  right.
  exists (x0 ++ xp ++ before),
         (checkin_request session base_url action (text ca)), resp.
  rewrite <- !app_assoc.
  repeat split; auto; unfold checkin_request; destruct (str_eqb _ _); reflexivity.
Qed.

Lemma json_case_range (resp : Response) s d :
  json_case resp = Some (s, d) -> s = ALREADY \/ s = SUCCESS.
Proof.
  unfold json_case. destruct (startswith _ _); [|discriminate].
  destruct (json resp) as [[| | | | |j]|]; try discriminate.
  destruct (py_or _ _) as [| | |m| |];
    try (destruct (existsb _ _); [|discriminate]; intros E; injection E as <- _; auto).
  destruct (found json_already_pattern m); [intros E; injection E as <- _; auto|].
  destruct (found json_success_pattern m); [intros E; injection E as <- _; auto|].
  destruct (existsb _ _); [|discriminate]. intros E; injection E as <- _; auto.
Qed.

(** X19: the classification of a response never gives [SKIPPED]; it gives
    [TWO_FA] only when the JSON case decided nothing, the body has neither
    an already-checked-in nor a success phrase, and the challenge detector
    trips; and it gives [FAILED] only with the detail
    [Unable to determine check-in result], when in addition the detector
    does not trip. *)
Theorem determine_result_statuses (resp : Response) s d :
  determine_result resp = (s, d) ->
  match s with
  | SUCCESS | ALREADY => True
  | SKIPPED => False
  | TWO_FA =>
      json_case resp = None
      /\ ~ Contains html_already_pattern (text resp)
      /\ ~ Contains html_success_pattern (text resp)
      /\ is_2fa_or_human_challenge (text resp) (url resp) = true
  | FAILED =>
      d = JStr (U "Unable to determine check-in result")
      /\ json_case resp = None
      /\ ~ Contains html_already_pattern (text resp)
      /\ ~ Contains html_success_pattern (text resp)
      /\ is_2fa_or_human_challenge (text resp) (url resp) = false
  end.
Proof.
  unfold determine_result. destruct (json_case resp) as [[s' d']|] eqn:J.
  - intros E. injection E as -> ->.
    apply json_case_range in J as [->| ->]; exact I.
  - unfold html_case.
    destruct (found html_already_pattern (text resp)) eqn:A;
      [intros E; injection E as <- _; exact I|].
    destruct (found html_success_pattern (text resp)) eqn:S;
      [intros E; injection E as <- _; exact I|].
    assert (NA : ~ Contains html_already_pattern (text resp))
      by (intros C; apply found_iff in C; congruence).
    assert (NS : ~ Contains html_success_pattern (text resp))
      by (intros C; apply found_iff in C; congruence).
    destruct (is_2fa_or_human_challenge (text resp) (url resp));
      intros E; injection E as <- <-; auto.
Qed.

(** X20: for a response typed as JSON whose document is an object, the
    message decides, whatever the body and the flags say: the first truthy
    of the fields [message], [msg] and [status], when it is a text, gives
    [ALREADY] if it has an already-checked-in word, even next to a success
    word, and [SUCCESS] if it has only a success word; the message is the
    detail.  With neither word, a truthy flag [success], [ok] or [result]
    gives [SUCCESS], with the message as detail, or [OK] when the message
    is empty. *)
Theorem json_message_decides (resp : Response) (j : dict jval) (m : str) :
  startswith (str_lower match content_type resp with Some c => c | None => [] end)
             (U "application/json") = true ->
  json resp = Some (JObj j) ->
  py_or (jget j (U "message"))
        (py_or (jget j (U "msg")) (py_or (jget j (U "status")) (JStr []))) = JStr m ->
  (Contains json_already_pattern m -> determine_result resp = (ALREADY, JStr m))
  /\ (~ Contains json_already_pattern m -> Contains json_success_pattern m ->
      determine_result resp = (SUCCESS, JStr m))
  /\ (~ Contains json_already_pattern m -> ~ Contains json_success_pattern m ->
      (exists k v, In k [U "success"; U "ok"; U "result"]
                   /\ dict_get j k = Some v /\ jtruthy v = true) ->
      determine_result resp
      = (SUCCESS, JStr (if truthy m then m else U "OK"))).
Proof.
  intros Hct Hj Hm. unfold determine_result, json_case. rewrite Hct, Hj, Hm.
  split; [|split].
  - intros C. apply found_iff in C. rewrite C. reflexivity.
  - intros NA C. apply found_iff in C.
    destruct (found json_already_pattern m) eqn:A;
      [exfalso; apply NA, found_iff, A|].
    rewrite C. reflexivity.
  - intros NA NS (k & v & Hk & Hget & Hv).
    destruct (found json_already_pattern m) eqn:A;
      [exfalso; apply NA, found_iff, A|].
    destruct (found json_success_pattern m) eqn:S;
      [exfalso; apply NS, found_iff, S|].
    assert (Hflag : existsb (fun k => dict_mem j k && jtruthy (jget j k))
                            [U "success"; U "ok"; U "result"] = true).
    { apply existsb_exists. exists k. split; [exact Hk|].
      unfold dict_mem, jget. rewrite Hget, Hv. reflexivity. }
    rewrite Hflag. unfold py_or. cbn [jtruthy]. destruct (truthy m); reflexivity.
Qed.
End CheckinRuns.

Lemma probe_stops_at_first_hit_witness :
  exists found_action,
    fst (probe (RT := rt_probe) 0 sample_base [] probe_paths []) = Ok found_action.
Proof.
  destruct (@probe_stops_at_first_hit rt_probe 0 sample_base [] probe_paths []
              (fst (probe (RT := rt_probe) 0 sample_base [] probe_paths []))
              (snd (probe (RT := rt_probe) 0 sample_base [] probe_paths [])))
    as (fa & E & _).
  - apply surjective_pairing.
  - exists fa. exact E.
Defined.

Lemma probe_run_eq :
  perform_checkin (RT := rt_probe) 0 sample_base []
  = (Ok (SUCCESS, JStr (U "Check-in success")), snd probe_run).
Proof. vm_compute. reflexivity. Qed.

Lemma post_run_eq :
  perform_checkin (RT := rt_post_action) 0 sample_base []
  = (Ok (ALREADY, JStr (U "Already checked in, ok")), snd post_run).
Proof. vm_compute. reflexivity. Qed.

Lemma checkin_requests_bounded_witness : length (snd probe_run) <= 24.
Proof.
  exact (proj1 (@checkin_requests_bounded rt_probe 0 sample_base []
                  (Ok (SUCCESS, JStr (U "Check-in success"))) (snd probe_run)
                  probe_run_eq)).
Defined.

Lemma checkin_post_only_by_discovery_witness :
  exists ca x0 action,
    http_request (RT := rt_post_action) retries_default
      (checkin_get (RT := rt_post_action) 0 sample_base
         (@urljoin rt_post_action sample_base (U "/clientarea.php"))) []
    = (Ok ca, x0)
    /\ @_find_checkin_action_in_html rt_post_action sample_base (text ca)
       = Ok (Some action).
Proof.
  pose (x := nth 1 (snd post_run) (get_index, unreachable)).
  destruct (@checkin_post_only_by_discovery rt_post_action 0 sample_base []
              (Ok (ALREADY, JStr (U "Already checked in, ok"))) (snd post_run) x)
    as (ca & x0 & action & data & G0 & _ & D & _).
  - intros H. vm_compute in H. discriminate.
  - exact post_run_eq.
  - apply nth_In. vm_compute. lia.
  - vm_compute. reflexivity.
  - exists ca, x0, action. split; [exact G0|exact D].
Defined.

Lemma bad_link_run_eq :
  perform_checkin (RT := rt_bad_link) 0 sample_base []
  = (Raise (Exn ValueError (U "Invalid IPv6 URL")), snd bad_link_run).
Proof. vm_compute. reflexivity. Qed.

Lemma checkin_raise_causes_witness :
  exists ca,
    @_find_checkin_action_in_html rt_bad_link sample_base (text ca)
    = Raise (Exn ValueError (U "Invalid IPv6 URL"))
    /\ (status_code ca < 500)%Z.
Proof.
  assert (L1 : length (snd bad_link_run) = 1) by (vm_compute; reflexivity).
  destruct (@checkin_raise_causes rt_bad_link 0 sample_base []
              (Exn ValueError (U "Invalid IPv6 URL")) (snd bad_link_run)
              bad_link_run_eq)
    as [(ca & _ & Hs & D)|(before & tail & rq & E & L & _)].
  - intros E. rewrite E in L1. discriminate L1.
  - exists ca. split; [exact D|exact Hs].
  - exfalso. apply (f_equal (@length exchange)) in E.
    rewrite length_app, L in E. rewrite L1 in E. lia.
Defined.

Lemma checkin_result_from_last_answer_witness :
  exists before rq resp, snd post_run = before ++ [(rq, Answer resp)].
Proof.
  destruct (@checkin_result_from_last_answer rt_post_action 0 sample_base []
              ALREADY (JStr (U "Already checked in, ok")) (snd post_run))
    as [[E _]|(before & rq & resp & E & _)].
  - exact post_run_eq.
  - discriminate E.
  - exists before, rq, resp. exact E.
Defined.

Lemma determine_result_statuses_witness :
  is_2fa_or_human_challenge (text not_found) (url not_found) = false.
Proof.
  pose proof (@determine_result_statuses rt_plain not_found FAILED
                (JStr (U "Unable to determine check-in result"))) as T.
  cbv iota in T. apply T. vm_compute. reflexivity.
Defined.

Lemma json_message_decides_witness :
  determine_result (RT := rt_post_action) json_already
  = (ALREADY, JStr (U "Already checked in, ok")).
Proof.
  destruct (@json_message_decides rt_post_action json_already
              [ (U "success", JBool true);
                (U "message", JStr (U "Already checked in, ok")) ]
              (U "Already checked in, ok")) as [H _].
  - vm_compute. reflexivity.
  - reflexivity.
  - vm_compute. reflexivity.
  - apply H. apply found_iff. vm_compute. reflexivity.
Defined.

(** ** Run orchestrator: outcomes, requests and the summary *)

Lemma StronglySorted_app (l1 l2 : list nat) :
  StronglySorted le l1 -> StronglySorted le l2 ->
  (forall a b, In a l1 -> In b l2 -> a <= b) ->
  StronglySorted le (l1 ++ l2).
Proof.
  induction l1 as [|a l1 IH]; intros S1 S2 H; cbn; [exact S2|].
  apply StronglySorted_inv in S1 as [S1 Ha]. constructor.
  - apply IH; auto. intros x y Hx Hy. apply H; [right; exact Hx|exact Hy].
  - apply Forall_app. split; [exact Ha|].
    apply Forall_forall. intros y Hy. apply H; [left; reflexivity|exact Hy].
Qed.

Lemma StronglySorted_const (i : nat) (l : list nat) :
  Forall (fun j => j = i) l -> StronglySorted le l.
Proof.
  induction 1 as [|j l Hj Hl IH]; constructor; auto.
  eapply Forall_impl; [|exact Hl]. intros k ->. lia.
Qed.

Section MainRuns.
Context {RT : Runtime}.

Lemma login_whmcs_sessions (session : nat) (base_url email password : str)
      (h : list exchange) res xs :
  login_whmcs session base_url email password h = (res, xs) ->
  length xs <= 9 /\ Forall (fun x => rq_session (fst x) = session) xs.
Proof.
  intros H. apply login_whmcs_requests in H
    as (x1 & x2 & x3 & -> & L1 & L2 & L3 & F1 & F3 & F2).
  split; [rewrite !length_app; lia|].
  apply Forall_app. split; [|apply Forall_app; split].
  - eapply Forall_impl; [|exact F1]. intros x ->. reflexivity.
  - destruct F2 as [->|(r1 & _ & _ & F2)]; [constructor|].
    eapply Forall_impl; [|exact F2]. intros x ->. reflexivity.
  - eapply Forall_impl; [|exact F3]. intros x ->. reflexivity.
Qed.

Lemma perform_checkin_sessions (session : nat) (base_url : str)
      (h : list exchange) res xs :
  perform_checkin session base_url h = (res, xs) ->
  length xs <= 24 /\ Forall (fun x => rq_session (fst x) = session) xs.
Proof.
  intros H. apply perform_checkin_requests in H
    as (x0 & xp & x2 & -> & L0 & Lp & L2 & F0 & Fp & F2).
  split; [rewrite !length_app; lia|].
  apply Forall_app. split; [|apply Forall_app; split].
  - eapply Forall_impl; [|exact F0]. intros x ->. reflexivity.
  - eapply Forall_impl; [|exact Fp]. intros x (path & _ & ->). reflexivity.
  - destruct F2 as [->|(ca & action & g2 & _ & _ & _ & G2 & _)]; [constructor|].
    apply http_request_exchanges in G2 as [_ F2].
    eapply Forall_impl; [|exact F2]. intros x ->. unfold checkin_request.
    destruct (str_eqb _ _); reflexivity.
Qed.

Lemma no_telegram_sent (xs : list exchange) :
  Forall (fun e => is_telegram e = false) (map Sent xs).
Proof.
  apply Forall_forall. intros e H. apply in_map_iff in H as (x & <- & _).
  reflexivity.
Qed.

Ltac no_telegram :=
  repeat first [ apply Forall_nil | apply no_telegram_sent
               | apply Forall_cons; [reflexivity|]
               | apply Forall_app; split ].

Lemma after_log_ok A (msg : str) (a b : A) : after_log msg a = Ok b -> a = b.
Proof.
  unfold after_log. destruct (print_error msg); [discriminate|].
  intros H. injection H as <-. reflexivity.
Qed.

Lemma after_log_raise A (msg : str) (a : A) e :
  after_log msg a = Raise e -> print_error msg = Some e.
Proof.
  unfold after_log. destruct (print_error msg) as [e'|]; [|discriminate].
  intros H. injection H as <-. reflexivity.
Qed.

Lemma account_text_raise (a : Account) (key default : str) e :
  account_text a key default = Raise e -> exn_cls e = AttributeError.
Proof.
  unfold account_text, account_get, res_bind.
  destruct a as [|b|z|s|l|o]; try (intros H; injection H as <-; reflexivity).
  rewrite or_strip_cases. destruct (truthy_non_text _); [|discriminate].
  intros H. injection H as <-. reflexivity.
Qed.

Lemma safe_label_raise (a : Account) e :
  safe_label a = Raise e ->
  exn_cls e = AttributeError \/ exn_cls e = IndexError.
Proof.
  unfold safe_label, res_bind.
  destruct (account_text a (U "label") []) as [label|e1] eqn:L;
    [|intros H; injection H as <-; left; apply (account_text_raise L)].
  destruct (truthy label); [discriminate|].
  destruct (account_text a (U "email") []) as [email|e1] eqn:E;
    [|intros H; injection H as <-; left; apply (account_text_raise E)].
  destruct (truthy email); [|discriminate].
  intros H. apply (proj1 (mask_email_cases _)) in H as [H _]. auto.
Qed.

Lemma read_account_raise (a : Account) e :
  read_account a = Raise e ->
  exn_cls e = AttributeError \/ exn_cls e = IndexError.
Proof.
  unfold read_account, res_bind.
  destruct (safe_label a) as [label|e1] eqn:L;
    [|intros H; injection H as <-; apply (safe_label_raise L)].
  destruct (account_text a (U "email") []) as [x1|e1] eqn:E1;
    [|intros H; injection H as <-; left; apply (account_text_raise E1)].
  destruct (account_text a (U "password") []) as [x2|e1] eqn:E2;
    [|intros H; injection H as <-; left; apply (account_text_raise E2)].
  destruct (account_text a (U "base_url") DEFAULT_BASE_URL) as [x3|e1] eqn:E3;
    [|intros H; injection H as <-; left; apply (account_text_raise E3)].
  destruct (account_text a (U "tg_chat_id") tg_default_chat) as [x4|e1] eqn:E4;
    [discriminate|intros H; injection H as <-; left; apply (account_text_raise E4)].
Qed.

(** What a turn of the loop leaves behind. *)
Lemma process_account_facts (idx : nat) (a : Account) (h : list event) r evs :
  process_account idx a h = (r, evs) ->
  length (exchanges_of evs) <= 33
  /\ Forall (fun x => rq_session (fst x) = idx) (exchanges_of evs)
  /\ (exchanges_of evs <> [] -> lacks_credentials a = false)
  /\ Forall (fun e => is_telegram e = false) evs
  /\ match r with
     | Ok o =>
         safe_label a = Ok (snd (fst o))
         /\ (lacks_credentials a = true ->
             o = (FAILED, snd (fst o), JStr (U "Missing credentials")))
     | Raise e =>
         read_account a = Raise e \/ exists msg, print_error msg = Some e
     end.
Proof.
  intros H. apply process_account_cases in H.
  destruct (read_account a) as [[[[label email] password] base_url]|e] eqn:R in H.
  2:{ destruct H as [-> ->]. cbn.
      repeat split; auto; try lia; try congruence; constructor. }
  apply read_account_credentials in R as (Hlabel & _ & _ & Hlack).
  assert (Hres : forall msg (o : outcome),
            snd (fst o) = label ->
            (lacks_credentials a = true ->
             o = (FAILED, label, JStr (U "Missing credentials"))) ->
            r = after_log msg o ->
            match r with
            | Ok o' =>
                safe_label a = Ok (snd (fst o'))
                /\ (lacks_credentials a = true ->
                    o' = (FAILED, snd (fst o'), JStr (U "Missing credentials")))
            | Raise e =>
                read_account a = Raise e \/ exists msg', print_error msg' = Some e
            end).
  { intros msg o Hl Hm ->. unfold after_log.
    destruct (print_error msg) as [e|] eqn:P; [right; eauto|].
    rewrite Hl. split; [exact Hlabel|exact Hm]. }
  destruct (negb (truthy email) || negb (truthy password)) eqn:Htest.
  { destruct H as [-> Hr]. cbn.
    repeat split; auto; try lia; try congruence; try constructor.
    eapply Hres; [| |exact Hr]; auto. }
  assert (Hnolack : forall (o : outcome),
            lacks_credentials a = true ->
            o = (FAILED, label, JStr (U "Missing credentials")))
    by (intros o Ht; congruence).
  destruct (print_error _) as [e|] eqn:P.
  { destruct H as [-> ->]. cbn.
    repeat split; eauto; try lia; try congruence; constructor. }
  destruct H as (r1 & xs & L & H).
  apply login_whmcs_sessions in L as [L1 F1].
  assert (Hfail : evs = Enter Login idx :: map Sent xs
                          ++ [Leave Login idx (left_with r1)] ->
            length (exchanges_of evs) <= 33
            /\ Forall (fun x => rq_session (fst x) = idx) (exchanges_of evs)
            /\ (exchanges_of evs <> [] -> lacks_credentials a = false)
            /\ Forall (fun e => is_telegram e = false) evs).
  { intros ->. exchanges_norm. repeat split; auto; [lia|no_telegram]. }
  destruct r1 as [[st detail]|e].
  - destruct st;
      try (destruct H as [Hev Hr]; destruct (Hfail Hev) as (A & B & C & D);
           repeat split; auto;
           eapply Hres; [| |exact Hr]; auto).
    destruct H as (r2 & ys & C & -> & Hr).
    apply perform_checkin_sessions in C as [L2 F2].
    exchanges_norm. split; [rewrite length_app; lia|].
    split; [apply Forall_app; auto|]. split; [auto|].
    split; [no_telegram|].
    eapply Hres; [| |exact Hr]; auto.
    destruct r2 as [[st2 d2]|e2]; reflexivity.
  - destruct H as [Hev Hr]. destruct (Hfail Hev) as (A & B & C & D).
    repeat split; auto. eapply Hres; [| |exact Hr]; auto.
Qed.

(** What the loop leaves behind, from any position in the list. *)
Lemma run_accounts_facts (accounts : list Account) :
  forall (i : nat) (res : list outcome) (h : list event) r evs,
    run_accounts i accounts res h = (r, evs) ->
    length (exchanges_of evs) <= 33 * length accounts
    /\ Forall (fun x => exists a,
                 nth_error accounts (rq_session (fst x) - i) = Some a
                 /\ i <= rq_session (fst x)
                 /\ lacks_credentials a = false) (exchanges_of evs)
    /\ StronglySorted le (sessions_of evs)
    /\ Forall (fun e => is_telegram e = false) evs
    /\ match r with
       | Ok results =>
           exists outs,
             results = res ++ outs
             /\ Forall2 (fun a o =>
                           safe_label a = Ok (snd (fst o))
                           /\ (lacks_credentials a = true ->
                               o = (FAILED, snd (fst o),
                                    JStr (U "Missing credentials"))))
                        accounts outs
       | Raise e =>
           (exists a, In a accounts /\ read_account a = Raise e)
           \/ exists msg, print_error msg = Some e
       end.
Proof.
  induction accounts as [|a rest IH]; intros i res h r evs H.
  - cbn in H. injection H as <- <-. cbn. repeat split; auto; try constructor.
    exists []. rewrite app_nil_r. split; auto.
  - cbn [run_accounts] in H. unfold bind in H.
    destruct (process_account i a h) as [r1 e1] eqn:Hbody.
    apply process_account_facts in Hbody as (B1 & B2 & B3 & B4 & B5).
    assert (Hfirst : Forall (fun x => exists a0,
                        nth_error (a :: rest) (rq_session (fst x) - i) = Some a0
                        /\ i <= rq_session (fst x)
                        /\ lacks_credentials a0 = false) (exchanges_of e1)).
    { apply Forall_forall. intros x Hx. exists a.
      rewrite Forall_forall in B2. rewrite (B2 x Hx), Nat.sub_diag.
      repeat split; auto. apply B3. intros E. rewrite E in Hx. destruct Hx. }
    assert (Hsorted : StronglySorted le
                        (map (fun x => rq_session (fst x)) (exchanges_of e1))).
    { apply StronglySorted_const with (i := i). apply Forall_map. exact B2. }
    destruct r1 as [o|e].
    + destruct (run_accounts (S i) rest (res ++ [o]) (h ++ e1)) as [r2 e2] eqn:Hrest.
      injection H as <- <-.
      apply IH in Hrest as (G1 & G2 & G3 & G4 & G5).
      unfold sessions_of in *. rewrite exchanges_of_app.
      cbn [length]. split; [rewrite length_app; lia|]. split; [|split; [|split]].
      * apply Forall_app. split; [exact Hfirst|].
        eapply Forall_impl; [|exact G2]. intros x (a' & Hn & Hle & Hc).
        exists a'. replace (rq_session (fst x) - i)
          with (S (rq_session (fst x) - S i)) by lia.
        repeat split; auto. lia.
      * rewrite map_app. apply StronglySorted_app; auto.
        intros x y Hx Hy.
        apply in_map_iff in Hx as (x' & <- & Hx).
        apply in_map_iff in Hy as (y' & <- & Hy).
        rewrite Forall_forall in B2, G2. rewrite (B2 x' Hx).
        destruct (G2 y' Hy) as (_ & _ & Hle & _). lia.
      * apply Forall_app. auto.
      * destruct r2 as [results|e].
        -- destruct G5 as (outs & -> & Hall). exists (o :: outs).
           rewrite <- app_assoc. split; [reflexivity|]. constructor; auto.
        -- destruct G5 as [(a' & Hin & Hl)|Hp]; [left|right; exact Hp].
           exists a'. split; [right|]; auto.
    + injection H as <- <-. unfold sessions_of. cbn [length].
      split; [lia|]. split; [exact Hfirst|]. split; [exact Hsorted|].
      split; [exact B4|].
      destruct B5 as [Hl|Hp]; [left|right; exact Hp].
      exists a. split; [left|]; auto.
Qed.

(** X21: when the loop of [main] comes to its end, [results] has one
    entry per account, in the order of the accounts: the label of an entry
    is what [safe_label] returns for its account, and the entry of an
    account without e-mail address or without password is [FAILED] with
    the detail [Missing credentials]. *)
Theorem results_follow_accounts (accounts : list Account) (h : list event)
        results evs :
  run_accounts 0 accounts [] h = (Ok results, evs) ->
  Forall2 (fun a o =>
             safe_label a = Ok (snd (fst o))
             /\ (lacks_credentials a = true ->
                 o = (FAILED, snd (fst o), JStr (U "Missing credentials"))))
          accounts results.
Proof.
  intros H. apply run_accounts_facts in H as (_ & _ & _ & _ & outs & -> & Hall).
  exact Hall.
Qed.

(** X22: the loop of [main] makes at most 33 requests per account; every
    request is made on the session of an account of the list that has an
    e-mail address and a password, the session being named by the position
    of the account; and the sessions follow each other in the order of the
    accounts: no session is used again once the next one has been used. *)
Theorem requests_stay_with_their_account (accounts : list Account)
        (h : list event) r evs :
  run_accounts 0 accounts [] h = (r, evs) ->
  length (exchanges_of evs) <= 33 * length accounts
  /\ Forall (fun x => exists a,
               nth_error accounts (rq_session (fst x)) = Some a
               /\ lacks_credentials a = false) (exchanges_of evs)
  /\ StronglySorted le (sessions_of evs).
Proof.
  intros H. apply run_accounts_facts in H as (L & F & S & _).
  repeat split; auto.
  eapply Forall_impl; [|exact F]. intros x (a & Hn & _ & Hc).
  rewrite Nat.sub_0_r in Hn. eauto.
Qed.


(** X24: the loop holds every exception of [login_whmcs] and of
    [perform_checkin]: [main] ends by an exception only when [print] raises
    on a message, or when reading the fields of an account of the list
    raises, which is an [AttributeError] (an element that is not an
    object, or a field that is truthy without being a text) or the
    [IndexError] of [mask_email]. *)
Theorem main_raise_causes (h : list event) e evs :
  main h = (Raise e, evs) ->
  (exists msg, print_error msg = Some e)
  \/ exists accounts a,
       json_loads (or_empty (getenv (U "ACCOUNTS"))) = AccountList accounts
       /\ In a accounts
       /\ read_account a = Raise e
       /\ (exn_cls e = AttributeError \/ exn_cls e = IndexError).
Proof.
  unfold main. intros H.
  destruct (negb (truthy (or_empty (getenv (U "ACCOUNTS"))))).
  { rewrite log_then in H. injection H as H _.
    left. eexists. apply (after_log_raise H). }
  destruct (json_loads _) as [bad| |accounts] eqn:J;
    try (rewrite log_then in H; injection H as H _;
         left; eexists; apply (after_log_raise H)).
  unfold bind at 1 in H.
  destruct (run_accounts 0 accounts [] h) as [r1 before] eqn:R.
  pose proof (run_accounts_facts R) as (_ & _ & _ & _ & Hr).
  destruct r1 as [results|e1].
  - rewrite log_bind in H. destruct (print_error (summary results)) as [e1|] eqn:P.
    + injection H as <- _. left. eauto.
    + destruct (truthy _ && truthy _); unfold bind, emit, ret in H;
        discriminate.
  - injection H as <- <-. destruct Hr as [(a & Hin & Hl)|Hp]; [right|left; exact Hp].
    exists accounts, a. repeat split; auto. apply (read_account_raise Hl).
Qed.

Lemma determine_result_not_skipped (resp : Response) :
  fst (determine_result resp) <> SKIPPED.
Proof.
  unfold determine_result. destruct (json_case resp) as [[s d]|] eqn:J.
  - apply json_case_range in J as [->| ->]; discriminate.
  - unfold html_case.
    destruct (found html_already_pattern _); [discriminate|].
    destruct (found html_success_pattern _); [discriminate|].
    destruct (is_2fa_or_human_challenge _ _); discriminate.
Qed.

Lemma perform_checkin_not_skipped (session : nat) (base_url : str)
      (h : list exchange) s d xs :
  perform_checkin session base_url h = (Ok (s, d), xs) -> s <> SKIPPED.
Proof.
  intros H. apply perform_checkin_cases in H as (g0 & x0 & _ & H).
  destruct g0 as [ca|e0]; [|destruct H; discriminate].
  destruct (_find_checkin_action_in_html base_url (text ca))
    as [discovered|e1]; [|destruct H; discriminate].
  destruct H as (fa & xp & _ & H).
  destruct fa as [action|];
    [|destruct H as [E _]; injection E as -> _; discriminate].
  destruct (truthy (act_url action));
    [|destruct H as [E _]; injection E as -> _; discriminate].
  destruct H as (g2 & x2 & _ & _ & H).
  destruct g2 as [resp|e2]; [|discriminate]. injection H as H.
  pose proof (@determine_result_not_skipped resp) as N.
  rewrite <- H in N. exact N.
Qed.

(** What backs the status a turn of the loop records. *)
Lemma process_account_status (idx : nat) (a : Account) (h : list event)
      s label d evs :
  process_account idx a h = (Ok (s, label, d), evs) ->
  s <> SKIPPED
  /\ (s = SUCCESS \/ s = ALREADY ->
      In (Leave Login idx (Some SUCCESS)) evs
      /\ In (Leave Checkin idx (Some s)) evs)
  /\ (s = TWO_FA ->
      In (Leave Login idx (Some TWO_FA)) evs
      \/ In (Leave Checkin idx (Some TWO_FA)) evs).
Proof.
  intros H. apply process_account_cases in H.
  destruct (read_account a) as [[[[label0 email] password] base_url]|e];
    [|destruct H; discriminate].
  assert (Hfailed : FAILED <> SKIPPED
            /\ (FAILED = SUCCESS \/ FAILED = ALREADY ->
                In (Leave Login idx (Some SUCCESS)) evs
                /\ In (Leave Checkin idx (Some FAILED)) evs)
            /\ (FAILED = TWO_FA ->
                In (Leave Login idx (Some TWO_FA)) evs
                \/ In (Leave Checkin idx (Some TWO_FA)) evs)).
  { split; [discriminate|].
    split; [intros [E|E]; discriminate E|intros E; discriminate E]. }
  destruct (negb (truthy email) || negb (truthy password)).
  { destruct H as [_ E]. symmetry in E. apply after_log_ok in E.
    injection E as <- _ _. exact Hfailed. }
  destruct (print_error _); [destruct H; discriminate|].
  destruct H as (r1 & xs & _ & H).
  destruct r1 as [[st detail]|e].
  - destruct st;
      try (destruct H as [_ E]; symmetry in E; apply after_log_ok in E;
           injection E as <- _ _; exact Hfailed).
    + destruct H as (r2 & ys & C & -> & E).
      symmetry in E. apply after_log_ok in E.
      assert (Hlogin : forall tl, In (Leave Login idx (Some SUCCESS))
                         (Enter Login idx :: map Sent xs
                            ++ Leave Login idx (Some SUCCESS) :: tl)).
      { intros tl. apply in_cons, in_or_app. right. left. reflexivity. }
      assert (Hcheckin : forall s2, In (Leave Checkin idx s2)
                         (Enter Login idx :: map Sent xs
                            ++ Leave Login idx (Some SUCCESS)
                            :: Enter Checkin idx :: map Sent ys
                            ++ [Leave Checkin idx s2])).
      { intros s2. apply in_cons, in_or_app. right. right. right.
        apply in_or_app. right. left. reflexivity. }
      destruct r2 as [[st2 d2]|e2]; injection E as <- _ _.
      * split; [apply (perform_checkin_not_skipped C)|]. split.
        -- intros _. split; [apply Hlogin|apply Hcheckin].
        -- intros ->. right. apply Hcheckin.
      * exact Hfailed.
    + destruct H as [-> E]. symmetry in E. apply after_log_ok in E.
      injection E as <- _ _.
      split; [discriminate|].
      split; [intros [E|E]; discriminate E|].
      intros _. left. apply in_cons, in_or_app. right. left. reflexivity.
  - destruct H as [_ E]. symmetry in E. apply after_log_ok in E.
    injection E as <- _ _. exact Hfailed.
Qed.

Lemma run_accounts_status (accounts : list Account) :
  forall (i : nat) (res : list outcome) (h : list event) results evs,
    run_accounts i accounts res h = (Ok results, evs) ->
    exists outs,
      results = res ++ outs
      /\ forall j s label d,
           nth_error outs j = Some (s, label, d) ->
           s <> SKIPPED
           /\ (s = SUCCESS \/ s = ALREADY ->
               In (Leave Login (i + j) (Some SUCCESS)) evs
               /\ In (Leave Checkin (i + j) (Some s)) evs)
           /\ (s = TWO_FA ->
               In (Leave Login (i + j) (Some TWO_FA)) evs
               \/ In (Leave Checkin (i + j) (Some TWO_FA)) evs).
Proof.
  induction accounts as [|a rest IH]; intros i res h results evs H.
  - cbn in H. injection H as <- <-. exists []. rewrite app_nil_r.
    split; [reflexivity|]. intros [|j] s label d E; discriminate.
  - cbn [run_accounts] in H. unfold bind in H.
    destruct (process_account i a h) as [r1 e1] eqn:Hbody.
    destruct r1 as [[[s0 label0] d0]|e]; [|discriminate].
    destruct (run_accounts (S i) rest (res ++ [(s0, label0, d0)]) (h ++ e1))
      as [r2 e2] eqn:Hrest.
    injection H as -> <-.
    apply IH in Hrest as (outs & -> & Hall).
    apply process_account_status in Hbody as (B1 & B2 & B3).
    exists ((s0, label0, d0) :: outs). rewrite <- app_assoc.
    split; [reflexivity|].
    intros [|j] s label d E; cbn in E.
    + injection E as <- <- <-. rewrite Nat.add_0_r.
      split; [exact B1|]. split.
      * intros Hs. destruct (B2 Hs). split; apply in_or_app; left; assumption.
      * intros Hs. destruct (B3 Hs); [left|right]; apply in_or_app; left;
          assumption.
    + destruct (Hall j s label d E) as (G1 & G2 & G3).
      replace (i + S j) with (S i + j) by lia.
      split; [exact G1|]. split.
      * intros Hs. destruct (G2 Hs). split; apply in_or_app; right; assumption.
      * intros Hs. destruct (G3 Hs); [left|right]; apply in_or_app; right;
          assumption.
Qed.

(** X26: the status recorded for an account is backed by the calls made
    for it.  An entry [SUCCESS] or [ALREADY] means that [login_whmcs]
    returned [SUCCESS] for that account and [perform_checkin] returned
    that very status; an entry [TWO_FA] means that one of the two calls
    returned [TWO_FA]; no entry is [SKIPPED]. *)
Theorem recorded_status_is_backed (accounts : list Account) (h : list event)
        results evs (j : nat) s label d :
  run_accounts 0 accounts [] h = (Ok results, evs) ->
  nth_error results j = Some (s, label, d) ->
  s <> SKIPPED
  /\ (s = SUCCESS \/ s = ALREADY ->
      In (Leave Login j (Some SUCCESS)) evs
      /\ In (Leave Checkin j (Some s)) evs)
  /\ (s = TWO_FA ->
      In (Leave Login j (Some TWO_FA)) evs
      \/ In (Leave Checkin j (Some TWO_FA)) evs).
Proof.
  intros H Hn. apply run_accounts_status in H as (outs & -> & Hall).
  apply (Hall j s label d Hn).
Qed.
End MainRuns.

Lemma join_contains (sep p : str) (parts : list str) :
  In p parts -> exists pre post, join sep parts = pre ++ p ++ post.
Proof.
  induction parts as [|q parts IH]; [intros []|].
  intros [->|Hin].
  - destruct parts as [|q' parts'].
    + exists [], []. cbn. rewrite app_nil_r. reflexivity.
    + exists [], (sep ++ join sep (q' :: parts')). reflexivity.
  - destruct (IH Hin) as (pre & post & E).
    destruct parts as [|q' parts']; [destruct Hin|].
    exists (q ++ sep ++ pre), post.
    change (join sep (q :: q' :: parts')) with (q ++ sep ++ join sep (q' :: parts')).
    rewrite E, <- !app_assoc. reflexivity.
Qed.

(** X25: the summary names every recorded outcome: the line of each
    entry of [results], which is the heading of its status followed by its
    label, is part of the message. *)
Theorem summary_lists_every_outcome (results : list outcome) (o : outcome) :
  In o results ->
  exists pre post, summary results = pre ++ summary_line o ++ post.
Proof.
  intros Hin.
  destruct (@join_contains [0x0A%N] (summary_line o) (map summary_line results))
    as (pre & post & E); [apply in_map; exact Hin|].
  unfold summary. rewrite E. cbv zeta.
  destruct (0 <? count_status TWO_FA results).
  - match goal with
    | |- context [(?hd ++ ?nl ++ pre ++ summary_line o ++ post) ++ ?tl] =>
        exists (hd ++ nl ++ pre), (post ++ tl)
    end.
    rewrite <- !app_assoc. reflexivity.
  - match goal with
    | |- context [?hd ++ ?nl ++ pre ++ summary_line o ++ post] =>
        exists (hd ++ nl ++ pre), post
    end.
    rewrite <- !app_assoc. reflexivity.
Qed.

Lemma two_accounts_loop_eq :
  run_accounts (RT := rt_two_accounts) 0 [account_alice; account_bob] [] []
  = (Ok [ (SUCCESS, U "alice", JStr (U "Check-in success"));
          (FAILED, U "b*b@example.com",
           JStr (U "Invalid credentials or login failed")) ],
     snd two_accounts_loop).
Proof. vm_compute. reflexivity. Qed.

Lemma results_follow_accounts_witness :
  safe_label account_alice = Ok (U "alice").
Proof.
  pose proof (results_follow_accounts two_accounts_loop_eq) as F.
  apply Forall2_cons_iff in F as [[H _] _]. exact H.
Defined.

Lemma requests_stay_with_their_account_witness :
  length (exchanges_of (snd two_accounts_loop)) <= 33 * 2.
Proof.
  exact (proj1 (requests_stay_with_their_account two_accounts_loop_eq)).
Defined.



Lemma main_raise_causes_witness :
  exists a,
    read_account (RT := rt_accounts no_net [account_at_sign_first]) a
    = Raise (Exn IndexError (U "string index out of range")).
Proof.
  destruct (@main_raise_causes
              (rt_accounts no_net [account_at_sign_first]) []
              (Exn IndexError (U "string index out of range")) [])
    as [[msg H]|(accounts & a & _ & _ & H & _)].
  - vm_compute. reflexivity.
  - discriminate H.
  - exists a. exact H.
Defined.

Lemma summary_lists_every_outcome_witness :
  exists pre post,
    summary [(TWO_FA, U "alice", JNull)]
    = pre ++ summary_line (TWO_FA, U "alice", JNull) ++ post.
Proof.
  apply summary_lists_every_outcome. left. reflexivity.
Defined.

Lemma recorded_status_is_backed_witness :
  In (Leave Checkin 0 (Some SUCCESS)) (snd two_accounts_loop).
Proof.
  destruct (@recorded_status_is_backed rt_two_accounts
              [account_alice; account_bob] [] _ _ 0 SUCCESS (U "alice")
              (JStr (U "Check-in success")) two_accounts_loop_eq)
    as (_ & H & _).
  - reflexivity.
  - apply H. left. reflexivity.
Defined.
